(** * Raster import: projection of an RGB raster onto the tile map

    A shallow embedding of [raster_import.cpp] and of the dimension check of
    [raster_io.h], with the machine arithmetic of the C++ code written out:
    [uint] is a 32-bit unsigned integer, [int] a 32-bit signed integer,
    [size_t] and [uint64] are 64-bit unsigned integers, [byte] is 8 bits. *)

From Stdlib Require Import ZArith List Bool Lia.
From stdpp Require Import base option gmap.
Import ListNotations.

Local Open Scope Z_scope.

(** ** Machine integers *)

Module MachineInt.

(** Reduction of a mathematical integer to an unsigned 32-bit value. *)
Definition u32 (z : Z) : Z := z mod 2 ^ 32.

(** Reduction of a mathematical integer to an unsigned 64-bit value. *)
Definition u64 (z : Z) : Z := z mod 2 ^ 64.

(** Reduction of a mathematical integer to a signed 32-bit value
    (two's complement). *)
Definition i32 (z : Z) : Z := (z + 2 ^ 31) mod 2 ^ 32 - 2 ^ 31.

Definition is_u32 (z : Z) : Prop := 0 <= z < 2 ^ 32.
Definition is_u64 (z : Z) : Prop := 0 <= z < 2 ^ 64.
Definition is_i32 (z : Z) : Prop := - 2 ^ 31 <= z < 2 ^ 31.

(** [uint] arithmetic. Division by zero is handled where it occurs. *)
Definition uadd (a b : Z) : Z := u32 (a + b).
Definition usub (a b : Z) : Z := u32 (a - b).
Definition umul (a b : Z) : Z := u32 (a * b).
Definition udiv (a b : Z) : Z := a / b.

(** [int] arithmetic; [/] and [%] truncate towards zero. *)
Definition iadd (a b : Z) : Z := i32 (a + b).
Definition isub (a b : Z) : Z := i32 (a - b).
Definition imul (a b : Z) : Z := i32 (a * b).
Definition idiv (a b : Z) : Z := i32 (Z.quot a b).
Definition irem (a b : Z) : Z := Z.rem a b.
Definition iabs (a : Z) : Z := i32 (Z.abs a).

End MachineInt.
Import MachineInt.

(** ** raster_io.h *)

(** [MAX_RASTER_SIDE_LENGTH_IN_PIXELS = 2 * (1 << 16)]. *)
Definition MAX_RASTER_SIDE_LENGTH_IN_PIXELS : Z := u32 (2 * Z.shiftl 1 16).

(** [MAX_RASTER_SIZE_PIXELS = 256 << 20]. *)
Definition MAX_RASTER_SIZE_PIXELS : Z := u32 (Z.shiftl 256 20).

(** [IsValidRasterDimension(size_t width, size_t height)]: the product is
    taken in [uint64]. *)
Definition IsValidRasterDimension (width height : Z) : bool :=
  (u64 (u64 width * height) <=? MAX_RASTER_SIZE_PIXELS) &&
  (0 <? width) && (width <=? MAX_RASTER_SIDE_LENGTH_IN_PIXELS) &&
  (0 <? height) && (height <=? MAX_RASTER_SIDE_LENGTH_IN_PIXELS).

(** [enum RasterDataType]. *)
Inductive RasterDataType :=
| RDT_HEIGHT | RDT_TERRAIN | RDT_FIELDS | RDT_WATER | RDT_TREES
| RDT_SNOW | RDT_DESERT | RDT_TROPICS | RDT_INVALID.

(** ** Game settings and the tile grid *)

(** [enum HeightmapRotation] of [_settings_game.game_creation]. *)
Inductive HeightmapRotation := HM_COUNTER_CLOCKWISE | HM_CLOCKWISE.

(** [enum LandscapeType] of [_settings_game.game_creation.landscape]. *)
Inductive LandscapeType := LT_TEMPERATE | LT_ARCTIC | LT_TROPIC | LT_TOYLAND.

(** [enum TileType]. *)
Inductive TileType :=
| MP_CLEAR | MP_RAILWAY | MP_ROAD | MP_HOUSE | MP_TREES | MP_STATION
| MP_WATER | MP_VOID | MP_INDUSTRY | MP_TUNNELBRIDGE | MP_OBJECT.

(** [enum ClearGround]. *)
Inductive ClearGround :=
| CLEAR_GRASS | CLEAR_ROUGH | CLEAR_ROCKS | CLEAR_FIELDS | CLEAR_SNOW
| CLEAR_DESERT.

(** [enum TreeGround] (tree_base.h). *)
Inductive TreeGround :=
| TREE_GROUND_GRASS | TREE_GROUND_ROUGH | TREE_GROUND_SNOW_DESERT
| TREE_GROUND_SHORE | TREE_GROUND_ROUGH_SNOW.

(** [enum TropicZone]. *)
Inductive TropicZone :=
| TROPICZONE_NORMAL | TROPICZONE_DESERT | TROPICZONE_RAINFOREST.

(** What a water tile is. *)
Inductive WaterClass := WATER_CLASS_SEA | WATER_CLASS_CANAL | WATER_CLASS_RIVER.

#[global] Instance HeightmapRotation_eq_dec : EqDecision HeightmapRotation.
Proof. solve_decision. Defined.
#[global] Instance LandscapeType_eq_dec : EqDecision LandscapeType.
Proof. solve_decision. Defined.
#[global] Instance TileType_eq_dec : EqDecision TileType.
Proof. solve_decision. Defined.
#[global] Instance ClearGround_eq_dec : EqDecision ClearGround.
Proof. solve_decision. Defined.
#[global] Instance TreeGround_eq_dec : EqDecision TreeGround.
Proof. solve_decision. Defined.
#[global] Instance TropicZone_eq_dec : EqDecision TropicZone.
Proof. solve_decision. Defined.
#[global] Instance WaterClass_eq_dec : EqDecision WaterClass.
Proof. solve_decision. Defined.

(** [enum TreeType] (tree_base.h); the values are used in arithmetic. *)
Definition TreeType := Z.
Definition TREE_TEMPERATE : TreeType := 0x00.
Definition TREE_SUB_ARCTIC : TreeType := 0x0C.
Definition TREE_RAINFOREST : TreeType := 0x14.
Definition TREE_CACTUS : TreeType := 0x1B.
Definition TREE_SUB_TROPICAL : TreeType := 0x1C.
Definition TREE_TOYLAND : TreeType := 0x20.
Definition TREE_INVALID : TreeType := 0xFF.

Definition TREE_COUNT_TEMPERATE : Z := usub TREE_SUB_ARCTIC TREE_TEMPERATE.
Definition TREE_COUNT_SUB_ARCTIC : Z := usub TREE_RAINFOREST TREE_SUB_ARCTIC.
Definition TREE_COUNT_RAINFOREST : Z := usub TREE_CACTUS TREE_RAINFOREST.
Definition TREE_COUNT_SUB_TROPICAL : Z := usub TREE_TOYLAND TREE_SUB_TROPICAL.
Definition TREE_COUNT_TOYLAND : Z := 9.

Definition TileIndex := Z.
Definition Owner := Z.
Definition Slope := Z.

(** Modelled from the spec: the owner and slope constants and the
    half-tile test belong to the grid collaborator (company_type.h,
    slope_type.h, slope_func.h), which is not among the sources. *)
Definition OWNER_NONE : Owner := 0x10.
Definition OWNER_WATER : Owner := 0x11.
Definition INVALID_INDUSTRY : Z := 0xFFFF.
Definition SLOPE_FLAT : Slope := 0x00.
Definition SLOPE_HALFTILE : Slope := 0x20.
Definition IsHalftileSlope (s : Slope) : bool :=
  negb (Z.land s SLOPE_HALFTILE =? 0).

(** Modelled from the spec: one cell of the world grid, with the attributes
    the queries of the grid collaborator read (cell kind, slope, height,
    owner, ground sub-kind and density, climate zone, planted trees). *)
Record Tile := mkTile {
  tile_type : TileType;
  tile_owner : Owner;
  tile_slope : Slope;
  tile_height : Z;
  tile_tropic : TropicZone;
  tile_ground : ClearGround;
  tile_snow : bool;
  tile_tree_ground : TreeGround;
  tile_density : Z;
  tile_field : Z;
  tile_industry : Z;
  tile_water : WaterClass;
  tile_trees : Z * Z * Z;
  tile_random : Z
}.

(** The mutation requests the classifiers issue to the grid collaborator,
    one constructor per primitive they call. *)
Inductive GridCall :=
| CallSetClearGroundDensity (t : TileIndex) (ground : ClearGround) (density : Z)
| CallSetTreeGroundDensity (t : TileIndex) (ground : TreeGround) (density : Z)
| CallMakeClear (t : TileIndex) (ground : ClearGround) (density : Z)
| CallMakeField (t : TileIndex) (field_type : Z) (industry : Z)
| CallMakeCanal (t : TileIndex) (o : Owner) (random_bits : Z)
| CallMakeRiver (t : TileIndex) (random_bits : Z)
| CallMakeSea (t : TileIndex)
| CallMakeSnow (t : TileIndex) (density : Z)
| CallSetTropicZone (t : TileIndex) (zone : TropicZone)
| CallPlantTreesOnTile (t : TileIndex) (treetype : TreeType) (count growth : Z).

(** Field-wise updates of a tile. *)
Definition with_ground (g : ClearGround) (snow : bool) (d : Z) (t : Tile) : Tile :=
  mkTile (tile_type t) (tile_owner t) (tile_slope t) (tile_height t)
         (tile_tropic t) g snow (tile_tree_ground t) d (tile_field t)
         (tile_industry t) (tile_water t) (tile_trees t) (tile_random t).

Definition with_tree_ground (g : TreeGround) (d : Z) (t : Tile) : Tile :=
  mkTile (tile_type t) (tile_owner t) (tile_slope t) (tile_height t)
         (tile_tropic t) (tile_ground t) (tile_snow t) g d (tile_field t)
         (tile_industry t) (tile_water t) (tile_trees t) (tile_random t).

Definition with_tropic (z : TropicZone) (t : Tile) : Tile :=
  mkTile (tile_type t) (tile_owner t) (tile_slope t) (tile_height t)
         z (tile_ground t) (tile_snow t) (tile_tree_ground t) (tile_density t)
         (tile_field t) (tile_industry t) (tile_water t) (tile_trees t)
         (tile_random t).

Definition as_clear (g : ClearGround) (d : Z) (field industry : Z) (o : Owner)
    (t : Tile) : Tile :=
  mkTile MP_CLEAR o (tile_slope t) (tile_height t) (tile_tropic t) g false
         (tile_tree_ground t) d field industry (tile_water t) (tile_trees t)
         (tile_random t).

Definition as_water (wc : WaterClass) (o : Owner) (random_bits : Z) (t : Tile) : Tile :=
  mkTile MP_WATER o (tile_slope t) (tile_height t) (tile_tropic t)
         (tile_ground t) (tile_snow t) (tile_tree_ground t) (tile_density t)
         (tile_field t) (tile_industry t) wc (tile_trees t) random_bits.

Definition as_trees (treetype count growth : Z) (t : Tile) : Tile :=
  mkTile MP_TREES (tile_owner t) (tile_slope t) (tile_height t) (tile_tropic t)
         (tile_ground t) (tile_snow t)
         (match tile_type t with
          | MP_CLEAR =>
              match tile_ground t with
              | CLEAR_ROUGH => if tile_snow t then TREE_GROUND_ROUGH_SNOW else TREE_GROUND_ROUGH
              | CLEAR_SNOW | CLEAR_DESERT => TREE_GROUND_SNOW_DESERT
              | _ => if tile_snow t then TREE_GROUND_SNOW_DESERT else TREE_GROUND_GRASS
              end
          | MP_WATER => TREE_GROUND_SHORE
          | _ => tile_tree_ground t
          end)
         (tile_density t) (tile_field t) (tile_industry t) (tile_water t)
         (treetype, count, growth) (tile_random t).

(** A cell outside the stored grid reads as a void border cell. *)
Definition void_tile : Tile :=
  mkTile MP_VOID OWNER_NONE SLOPE_FLAT 0 TROPICZONE_NORMAL CLEAR_GRASS false
         TREE_GROUND_GRASS 0 0 0 WATER_CLASS_SEA (0, 0, 0) 0.

Definition tile_at (m : gmap Z Tile) (t : TileIndex) : Tile :=
  default void_tile (m !! t).

Definition call_tile (c : GridCall) : TileIndex :=
  match c with
  | CallSetClearGroundDensity t _ _ | CallSetTreeGroundDensity t _ _
  | CallMakeClear t _ _ | CallMakeField t _ _ | CallMakeCanal t _ _
  | CallMakeRiver t _ | CallMakeSea t | CallMakeSnow t _
  | CallSetTropicZone t _ | CallPlantTreesOnTile t _ _ _ => t
  end.

(** Modelled from the spec: the effect of each mutation primitive of the
    grid collaborator (clear_map.h, tree_map.h, water_map.h, tile_map.h are
    not among the sources) on the one cell it is called on: clear-ground
    kind and density, tree-ground kind and density, field conversion,
    canal, river and sea conversion, snow conversion, tropic-zone tagging
    and tree planting. *)
Definition tile_apply (c : GridCall) (t : Tile) : Tile :=
  match c with
  | CallSetClearGroundDensity _ g d => with_ground g (tile_snow t) d t
  | CallSetTreeGroundDensity _ g d => with_tree_ground g d t
  | CallMakeClear _ g d => as_clear g d (tile_field t) (tile_industry t) OWNER_NONE t
  | CallMakeField _ f i => as_clear CLEAR_FIELDS 3 f i OWNER_NONE t
  | CallMakeCanal _ o r => as_water WATER_CLASS_CANAL o r t
  | CallMakeRiver _ r => as_water WATER_CLASS_RIVER OWNER_WATER r t
  | CallMakeSea _ => as_water WATER_CLASS_SEA OWNER_WATER 0 t
  | CallMakeSnow _ d => with_ground (tile_ground t) true d t
  | CallSetTropicZone _ z => with_tropic z t
  | CallPlantTreesOnTile _ ty n g => as_trees ty n g t
  end.

Definition grid_apply (c : GridCall) (m : gmap Z Tile) : gmap Z Tile :=
  <[call_tile c := tile_apply c (tile_at m (call_tile c))]> m.

(** ** The game state the import runs in *)

(** What the decoders (libpng, bmp.cpp, not modelled) make of a file on
    disk, which is looked up by subdirectory and name: whether the
    container is accepted, the header dimensions, whether the pixel rows can
    be read, and the RGB bytes the decoder produces. *)
Record ImageFile := mkImageFile {
  img_header_ok : bool;
  img_width : Z;
  img_height : Z;
  img_bitmap_ok : bool;
  img_rgb : list Z
}.

Inductive DetailedFileType := DFT_HEIGHTMAP_BMP | DFT_HEIGHTMAP_PNG | DFT_OTHER.

Record Game := mkGame {
  heightmap_rotation : HeightmapRotation;
  landscape : LandscapeType;
  MapSizeX : Z;
  MapSizeY : Z;
  tiles : gmap Z Tile;
  journal : list GridCall;
  entropy : nat -> Z;
  random_calls : nat;
  disk : Z -> Z -> option ImageFile;
  live_buffers : Z;
  error_messages : nat;
  screen_dirty : bool
}.

(** ** Computations: state passing, [None] for an abort (failed assertion,
    [NOT_REACHED], division by zero, read outside a buffer) *)

Definition M (A : Type) : Type := Game -> option (A * Game).

Definition ret {A} (a : A) : M A := fun s => Some (a, s).
Definition bind {A B} (m : M A) (k : A -> M B) : M B :=
  fun s => match m s with Some (a, s') => k a s' | None => None end.
Definition abort {A} : M A := fun _ => None.
Definition gets {A} (f : Game -> A) : M A := fun s => Some (f s, s).
Definition modify (f : Game -> Game) : M unit := fun s => Some (tt, f s).

Declare Scope prog_scope.
Delimit Scope prog_scope with prog.
Notation "'do' x <- c1 ; c2" := (bind c1 (fun x => c2))
  (at level 10, x name, c1 at level 100, c2 at level 200) : prog_scope.
Local Open Scope prog_scope.

Definition assert (b : bool) : M unit := if b then ret tt else abort.
Definition NOT_REACHED {A} : M A := abort.
Definition when (b : bool) (m : M unit) : M unit := if b then m else ret tt.

(** Division and remainder abort on a zero divisor. *)
Definition udivM (a b : Z) : M Z := if b =? 0 then abort else ret (udiv a b).
Definition idivM (a b : Z) : M Z := if b =? 0 then abort else ret (idiv a b).
Definition iremM (a b : Z) : M Z := if b =? 0 then abort else ret (irem a b).

(** A [for (i = lo; i < hi; i++)] loop over [uint]: it runs [hi - lo] times
    when [lo < hi] and not at all otherwise. *)
Fixpoint for_count (n : nat) (i : Z) (body : Z -> M unit) : M unit :=
  match n with
  | O => ret tt
  | S k => do _ <- body i; for_count k (i + 1) body
  end.

Definition for_uint (lo hi : Z) (body : Z -> M unit) : M unit :=
  for_count (Z.to_nat (hi - lo)) lo body.

(** ** The collaborators of the import, as operations on the game state *)

Definition record_call (c : GridCall) (s : Game) : Game :=
  mkGame (heightmap_rotation s) (landscape s) (MapSizeX s) (MapSizeY s)
         (grid_apply c (tiles s)) (journal s ++ [c]) (entropy s)
         (random_calls s) (disk s) (live_buffers s) (error_messages s)
         (screen_dirty s).

Definition next_random (s : Game) : Game :=
  mkGame (heightmap_rotation s) (landscape s) (MapSizeX s) (MapSizeY s)
         (tiles s) (journal s) (entropy s) (S (random_calls s)) (disk s)
         (live_buffers s) (error_messages s) (screen_dirty s).

Definition with_live_buffers (n : Z) (s : Game) : Game :=
  mkGame (heightmap_rotation s) (landscape s) (MapSizeX s) (MapSizeY s)
         (tiles s) (journal s) (entropy s) (random_calls s) (disk s) n
         (error_messages s) (screen_dirty s).

Definition with_error_message (s : Game) : Game :=
  mkGame (heightmap_rotation s) (landscape s) (MapSizeX s) (MapSizeY s)
         (tiles s) (journal s) (entropy s) (random_calls s) (disk s)
         (live_buffers s) (S (error_messages s)) (screen_dirty s).

Definition with_screen_dirty (s : Game) : Game :=
  mkGame (heightmap_rotation s) (landscape s) (MapSizeX s) (MapSizeY s)
         (tiles s) (journal s) (entropy s) (random_calls s) (disk s)
         (live_buffers s) (error_messages s) true.

(** A mutation primitive changes its cell and is noted in the journal. *)
Definition grid_call (c : GridCall) : M unit := modify (record_call c).

Definition SetClearGroundDensity (t : TileIndex) (g : ClearGround) (d : Z) : M unit :=
  grid_call (CallSetClearGroundDensity t g d).
Definition SetTreeGroundDensity (t : TileIndex) (g : TreeGround) (d : Z) : M unit :=
  grid_call (CallSetTreeGroundDensity t g d).
Definition MakeClear (t : TileIndex) (g : ClearGround) (d : Z) : M unit :=
  grid_call (CallMakeClear t g d).
Definition MakeField (t : TileIndex) (field_type industry : Z) : M unit :=
  grid_call (CallMakeField t field_type industry).
Definition MakeCanal (t : TileIndex) (o : Owner) (random_bits : Z) : M unit :=
  grid_call (CallMakeCanal t o random_bits).
Definition MakeRiver (t : TileIndex) (random_bits : Z) : M unit :=
  grid_call (CallMakeRiver t random_bits).
Definition MakeSea (t : TileIndex) : M unit := grid_call (CallMakeSea t).
Definition MakeSnow (t : TileIndex) (d : Z) : M unit := grid_call (CallMakeSnow t d).
Definition SetTropicZone (t : TileIndex) (z : TropicZone) : M unit :=
  grid_call (CallSetTropicZone t z).
Definition PlantTreesOnTile (t : TileIndex) (treetype : TreeType) (count growth : Z) : M unit :=
  grid_call (CallPlantTreesOnTile t treetype count growth).

(** Queries of the grid collaborator. *)
Definition GetTileType (t : TileIndex) : M TileType :=
  gets (fun s => tile_type (tile_at (tiles s) t)).
Definition GetTileSlope (t : TileIndex) : M Slope :=
  gets (fun s => tile_slope (tile_at (tiles s) t)).
Definition GetTileOwner (t : TileIndex) : M Owner :=
  gets (fun s => tile_owner (tile_at (tiles s) t)).
Definition TileHeight (t : TileIndex) : M Z :=
  gets (fun s => tile_height (tile_at (tiles s) t)).
Definition IsTileFlat (t : TileIndex) : M bool :=
  gets (fun s => tile_slope (tile_at (tiles s) t) =? SLOPE_FLAT).
Definition IsSnowTile (t : TileIndex) : M bool :=
  gets (fun s => bool_decide (tile_type (tile_at (tiles s) t) = MP_CLEAR)
                 && tile_snow (tile_at (tiles s) t)).
Definition GetTreeGround (t : TileIndex) : M TreeGround :=
  gets (fun s => tile_tree_ground (tile_at (tiles s) t)).

(** Modelled from the spec: the tree-planting eligibility check of the grid
    collaborator (tree_cmd.cpp is not among the sources). *)
Definition CanPlantTreesOnTile (t : TileIndex) (allow_desert : bool) : M bool :=
  gets (fun s =>
    let c := tile_at (tiles s) t in
    match tile_type c with
    | MP_CLEAR =>
        negb (bool_decide (tile_ground c = CLEAR_FIELDS))
        && negb (bool_decide (tile_ground c = CLEAR_ROCKS))
        && (allow_desert || negb (bool_decide (tile_ground c = CLEAR_DESERT)))
    | _ => false
    end).

(** Modelled from the spec: the random tree-species-for-position lookup of
    the grid collaborator (tree_cmd.cpp is not among the sources); [seed] is
    one byte. *)
Definition GetRandomTreeType (t : TileIndex) (seed : Z) : M TreeType :=
  gets (fun s =>
    match landscape s with
    | LT_TEMPERATE => uadd (udiv (umul seed TREE_COUNT_TEMPERATE) 256) TREE_TEMPERATE
    | LT_ARCTIC => uadd (udiv (umul seed TREE_COUNT_SUB_ARCTIC) 256) TREE_SUB_ARCTIC
    | LT_TROPIC =>
        match tile_tropic (tile_at (tiles s) t) with
        | TROPICZONE_NORMAL =>
            uadd (udiv (umul seed TREE_COUNT_SUB_TROPICAL) 256) TREE_SUB_TROPICAL
        | TROPICZONE_DESERT => if 12 <? seed then TREE_INVALID else TREE_CACTUS
        | TROPICZONE_RAINFOREST =>
            uadd (udiv (umul seed TREE_COUNT_RAINFOREST) 256) TREE_RAINFOREST
        end
    | LT_TOYLAND => uadd (udiv (umul seed TREE_COUNT_TOYLAND) 256) TREE_TOYLAND
    end).

(** [Random()]: the next 32-bit word of the random source. *)
Definition Random : M Z :=
  fun s => Some (u32 (entropy s (random_calls s)), next_random s).

(** Modelled from the spec: [RandomRange(limit)], the uniform-random-in-range
    primitive (core/random_func.hpp is not among the sources); it scales one
    random word into [0, limit). *)
Definition RandomRange (limit : Z) : M Z :=
  do raw <- Random; ret (Z.shiftr (raw * limit) 32).

(** [GB(x, s, n)]: [n] bits of [x] from bit [s] on. *)
Definition GB (x s n : Z) : Z := Z.land (Z.shiftr x s) (Z.shiftl 1 n - 1).

Definition MarkWholeScreenDirty : M unit := modify with_screen_dirty.
Definition ShowErrorMessage : M unit := modify with_error_message.

(** ** raster_import.cpp *)

Definition LOWER_CUTOFF : Z := 0x0f.
Definition UPPER_CUTOFF : Z := 0xf0.

(** [TileRasterCallback]. *)
Definition TileRasterCallback := Z -> Z -> Z -> TileIndex -> M unit.

Definition ReplaceGround (tile : TileIndex) (ground : ClearGround) (density : Z) : M unit :=
  do current <- GetTileType tile;
  if bool_decide (current = MP_CLEAR) then
    SetClearGroundDensity tile ground density
  else if bool_decide (current = MP_TREES) then
    match ground with
    | CLEAR_GRASS => SetTreeGroundDensity tile TREE_GROUND_GRASS density
    | CLEAR_ROUGH => SetTreeGroundDensity tile TREE_GROUND_ROUGH density
    | CLEAR_ROCKS | CLEAR_FIELDS => MakeClear tile ground density
    | CLEAR_SNOW | CLEAR_DESERT => SetTreeGroundDensity tile TREE_GROUND_SNOW_DESERT density
    end
  else ret tt.

(** [SampleQuantizedGradient(int sample, int max_level, int start, int end)];
    [rand] is a [uint], so the comparison with [x % x_delta] is unsigned. *)
Definition SampleQuantizedGradient (sample max_level start end_ : Z) : M Z :=
  do _ <- assert (0 <? max_level);
  do _ <- assert (negb (start =? end_));
  let x_delta := idiv (isub end_ start) max_level in
  let '(start, end_) := if end_ <? start then (end_, start) else (start, end_) in
  let x := Z.max (isub sample start) 0 in
  do draw <- RandomRange (u32 (iabs (isub x_delta 2)));
  let rand := uadd draw 1 in
  do x_rem <- iremM x x_delta;
  let y_jitter := if rand <? u32 x_rem then 1 else 0 in
  do y_delta <- idivM x (iabs x_delta);
  let y := Z.min (Z.max (iadd y_delta y_jitter) 0) max_level in
  ret (if x_delta <? 0 then isub max_level y else y).

(** [TreeTypeLookup(byte val)]: the remainder is taken in [uint], the count
    constants being [uint]. *)
Definition TreeTypeLookup (val : Z) : M TreeType :=
  if val <? 0x10 then ret TREE_INVALID else
  do climate <- gets landscape;
  let step := u32 (isub (Z.shiftr val 4) 1) in
  match climate with
  | LT_TEMPERATE => ret (uadd TREE_TEMPERATE (step mod TREE_COUNT_TEMPERATE))
  | LT_ARCTIC => ret (uadd TREE_SUB_ARCTIC (step mod TREE_COUNT_SUB_ARCTIC))
  | LT_TROPIC => ret (uadd TREE_RAINFOREST (step mod TREE_COUNT_SUB_TROPICAL))
  | LT_TOYLAND => ret (uadd TREE_TOYLAND (step mod TREE_COUNT_TOYLAND))
  end.

(** The classifiers, over the gradient sampler they call. *)
Section Classifiers.

Variable sampler : Z -> Z -> Z -> Z -> M Z.

Definition ApplyTerrain_with : TileRasterCallback := fun r g b tile =>
  do current <- GetTileType tile;
  if negb (bool_decide (current = MP_CLEAR)) && negb (bool_decide (current = MP_TREES))
  then ret tt else
  do _ <- (if 0x10 <=? r then
             do level <- sampler r 3 UPPER_CUTOFF LOWER_CUTOFF;
             let density := u32 level in
             when (density <? 3) (ReplaceGround tile CLEAR_GRASS density)
           else ret tt);
  do _ <- (if 0x10 <=? g then
             do level <- sampler g 1 LOWER_CUTOFF UPPER_CUTOFF;
             when (negb (level =? 0)) (ReplaceGround tile CLEAR_ROUGH 3)
           else ret tt);
  if 0x10 <=? b then
    do level <- sampler b 1 LOWER_CUTOFF UPPER_CUTOFF;
    when (negb (level =? 0)) (ReplaceGround tile CLEAR_ROCKS 3)
  else ret tt.

Definition ApplyFields_with : TileRasterCallback := fun r g b tile =>
  if r <? LOWER_CUTOFF then ret tt else
  let field := u32 (irem (isub (Z.shiftr r 4) 1) 9) in
  do level <- sampler g 1 LOWER_CUTOFF UPPER_CUTOFF;
  when (negb (level =? 0)) (MakeField tile field INVALID_INDUSTRY).

Definition ApplyTrees_with : TileRasterCallback := fun r g b tile =>
  do growth <- (if r <? 0x10 then ret 3
                else do level <- sampler r 6 LOWER_CUTOFF UPPER_CUTOFF;
                     ret (u32 level));
  do level <- sampler g (iadd 3 1) LOWER_CUTOFF UPPER_CUTOFF;
  let density := isub level 1 in
  if density <? 0 then ret tt else
  do tree <- (if b <? 0x10 then
                do word <- Random; GetRandomTreeType tile (GB word 24 8)
              else TreeTypeLookup b);
  if tree =? TREE_INVALID then ret tt else
  do ok <- CanPlantTreesOnTile tile true;
  when ok (PlantTreesOnTile tile tree (u32 density) growth).

Definition ApplySnow_with : TileRasterCallback := fun r g b tile =>
  do level <- sampler b (iadd 3 1) LOWER_CUTOFF UPPER_CUTOFF;
  let density := isub level 1 in
  if density <? 0 then ret tt else
  do type <- GetTileType tile;
  if bool_decide (type = MP_CLEAR) then
    do snowy <- IsSnowTile tile;
    if snowy then SetClearGroundDensity tile CLEAR_SNOW (u32 density)
    else MakeSnow tile (u32 density)
  else if bool_decide (type = MP_TREES) then
    do ground <- GetTreeGround tile;
    match ground with
    | TREE_GROUND_GRASS | TREE_GROUND_SNOW_DESERT =>
        SetTreeGroundDensity tile TREE_GROUND_SNOW_DESERT (u32 density)
    | TREE_GROUND_ROUGH | TREE_GROUND_ROUGH_SNOW =>
        SetTreeGroundDensity tile TREE_GROUND_ROUGH_SNOW (u32 density)
    | TREE_GROUND_SHORE => ret tt
    end
  else ret tt.

Definition ApplyDesert_with : TileRasterCallback := fun r g b tile =>
  do level <- sampler r (iadd 1 1) LOWER_CUTOFF UPPER_CUTOFF;
  let density := isub (imul level 2) 1 in
  if density <? 0 then ret tt else
  do _ <- ReplaceGround tile CLEAR_DESERT (u32 density);
  when (UPPER_CUTOFF <? g) (SetTropicZone tile TROPICZONE_DESERT).

End Classifiers.

Definition ApplyTerrain : TileRasterCallback := ApplyTerrain_with SampleQuantizedGradient.
Definition ApplyFields : TileRasterCallback := ApplyFields_with SampleQuantizedGradient.
Definition ApplyTrees : TileRasterCallback := ApplyTrees_with SampleQuantizedGradient.
Definition ApplySnow : TileRasterCallback := ApplySnow_with SampleQuantizedGradient.
Definition ApplyDesert : TileRasterCallback := ApplyDesert_with SampleQuantizedGradient.

Definition ApplyWater : TileRasterCallback := fun r g b tile =>
  if UPPER_CUTOFF <=? r then
    do slope <- GetTileSlope tile;
    if slope =? SLOPE_FLAT then
      do owner <- GetTileOwner tile;
      if negb (owner =? OWNER_WATER) then
        do word <- Random; MakeCanal tile owner word
      else
        do word <- Random; MakeCanal tile OWNER_NONE word
    else if (UPPER_CUTOFF <=? g) && IsHalftileSlope slope then
      do word <- Random; MakeRiver tile word
    else ret tt
  else if UPPER_CUTOFF <=? g then
    do slope <- GetTileSlope tile;
    if (slope =? SLOPE_FLAT) || IsHalftileSlope slope then
      do word <- Random; MakeRiver tile word
    else ret tt
  else if UPPER_CUTOFF <=? b then
    do flat <- IsTileFlat tile;
    if flat then
      do height <- TileHeight tile;
      when (height =? 0) (MakeSea tile)
    else ret tt
  else ret tt.

Definition ApplyTropics : TileRasterCallback := fun r g b tile =>
  if UPPER_CUTOFF <? r then SetTropicZone tile TROPICZONE_DESERT
  else if UPPER_CUTOFF <? g then SetTropicZone tile TROPICZONE_RAINFOREST
  else if UPPER_CUTOFF <? b then SetTropicZone tile TROPICZONE_NORMAL
  else ret tt.

(** *** The grid projector *)

(** Modelled from the spec: the cell reference of grid coordinates and the
    inner-cell predicate belong to the grid collaborator (map_func.h,
    tile_map.h are not among the sources): cells are numbered row by row,
    and a cell is inner when it lies on no edge of the grid. *)
Definition TileXY (x y : Z) : M TileIndex :=
  do size_x <- gets MapSizeX; ret (uadd (umul y size_x) x).

Definition IsInnerTile (tile : TileIndex) : M bool :=
  do size_x <- gets MapSizeX;
  do size_y <- gets MapSizeY;
  if size_x =? 0 then abort else
  let x := tile mod size_x in
  let y := tile / size_x in
  ret ((0 <? x) && (x <? size_x - 1) && (0 <? y) && (y <? size_y - 1)).

(** The subdivision base of the fixed-point scale. *)
Definition num_div : Z := 16384.

(** The values [ApplyRasterToMap] computes before its loops. *)
Record Projection := mkProjection {
  map_width : Z;
  map_height : Z;
  map_row_pad : Z;
  map_col_pad : Z;
  raster_scale : Z
}.

Definition projection_setup (raster_width raster_height : Z) : M Projection :=
  do rotation <- gets heightmap_rotation;
  do size_x <- gets MapSizeX;
  do size_y <- gets MapSizeY;
  let '(width, height) :=
    match rotation with
    | HM_COUNTER_CLOCKWISE => (size_x, size_y)
    | HM_CLOCKWISE => (size_y, size_x)
    end in
  do raster_aspect <- udivM (umul raster_width num_div) raster_height;
  do map_aspect <- udivM (umul width num_div) height;
  if map_aspect <? raster_aspect then
    do scale <- udivM (umul width num_div) raster_width;
    ret (mkProjection width height
           (udiv (usub (uadd 1 height) (udiv (umul raster_height scale) num_div)) 2)
           0 scale)
  else
    do scale <- udivM (umul height num_div) raster_height;
    ret (mkProjection width height 0
           (udiv (usub (uadd 1 width) (udiv (umul raster_width scale) num_div)) 2)
           scale).

(** The source row and column of a destination cell (lines 95 to 104). *)
Definition source_row (p : Projection) (map_row : Z) : M Z :=
  udivM (umul (usub map_row (map_row_pad p)) num_div) (raster_scale p).

Definition source_col (rotation : HeightmapRotation) (p : Projection) (map_col : Z) : M Z :=
  match rotation with
  | HM_COUNTER_CLOCKWISE =>
      udivM (umul (usub (usub (usub (map_width p) 1) map_col) (map_col_pad p)) num_div)
            (raster_scale p)
  | HM_CLOCKWISE =>
      udivM (umul (usub map_col (map_col_pad p)) num_div) (raster_scale p)
  end.

(** A read of the pixel buffer; outside the buffer it aborts. *)
Definition read_byte (raster : list Z) (index : Z) : M Z :=
  match raster !! Z.to_nat index with
  | Some v => ret v
  | None => abort
  end.

(** The body of the two loops, for one destination cell. *)
Definition project_cell (raster_width raster_height : Z) (raster : list Z)
    (proc : TileRasterCallback) (p : Projection) (map_row map_col : Z) : M unit :=
  do rotation <- gets heightmap_rotation;
  do tile <- match rotation with
             | HM_COUNTER_CLOCKWISE => TileXY map_col map_row
             | HM_CLOCKWISE => TileXY map_row map_col
             end;
  do raster_row <- source_row p map_row;
  do raster_col <- source_col rotation p map_col;
  do _ <- assert (raster_row <? raster_height);
  do _ <- assert (raster_col <? raster_width);
  let pixel := umul (uadd (umul raster_row raster_width) raster_col) 3 in
  do r <- read_byte raster pixel;
  do g <- read_byte raster (uadd pixel 1);
  do b <- read_byte raster (uadd pixel 2);
  do inner <- IsInnerTile tile;
  when inner (proc r g b tile).

Definition ApplyRasterToMap (raster_width raster_height : Z) (raster : list Z)
    (proc : TileRasterCallback) : M unit :=
  do p <- projection_setup raster_width raster_height;
  for_uint (map_row_pad p) (usub (map_height p) (map_row_pad p)) (fun map_row =>
    for_uint (map_col_pad p) (usub (map_width p) (map_col_pad p)) (fun map_col =>
      project_cell raster_width raster_height raster proc p map_row map_col)).

(** *** raster_io.cpp: reading the file *)

(** [MallocT] and [free], counting the buffers that are live. *)
Definition MallocT (bytes : list Z) : M (option (list Z)) :=
  do _ <- modify (fun s => with_live_buffers (live_buffers s + 1) s);
  ret (Some bytes).

Definition free (buffer : option (list Z)) : M unit :=
  match buffer with
  | Some _ => modify (fun s => with_live_buffers (live_buffers s - 1) s)
  | None => ret tt
  end.

(** The outcome of [ReadRasterFile]: its return value and the values left
    in [*x], [*y] and [*raster]. *)
Record ReadOutcome := mkReadOutcome {
  read_ok : bool;
  read_x : Z;
  read_y : Z;
  read_raster : option (list Z)
}.

(** [ReadRasterPNG] and [ReadRasterBMP] over a decoded file; [want_raster]
    is [raster != nullptr]. In [ReadRasterPNG] an error that libpng raises
    while the rows are copied comes back through the [setjmp] branch, after
    the buffer has been allocated; in [ReadRasterBMP] the bitmap is read
    before the allocation. *)
Definition ReadRasterPNG (f : ImageFile) (want_raster : bool) (out : ReadOutcome) : M ReadOutcome :=
  if negb (img_header_ok f) then
    do _ <- ShowErrorMessage; ret (mkReadOutcome false (read_x out) (read_y out) (read_raster out))
  else
    let raster_width := u32 (img_width f) in
    let raster_height := u32 (img_height f) in
    if negb (IsValidRasterDimension raster_width raster_height) then
      do _ <- ShowErrorMessage; ret (mkReadOutcome false (read_x out) (read_y out) (read_raster out))
    else if want_raster then
      do raster <- MallocT (resize (Z.to_nat (u64 (u64 (raster_width * raster_height) * 3))) 0 (img_rgb f));
      if negb (img_bitmap_ok f) then
        do _ <- ShowErrorMessage; ret (mkReadOutcome false (read_x out) (read_y out) raster)
      else ret (mkReadOutcome true raster_width raster_height raster)
    else ret (mkReadOutcome true raster_width raster_height (read_raster out)).

Definition ReadRasterBMP (f : ImageFile) (want_raster : bool) (out : ReadOutcome) : M ReadOutcome :=
  if negb (img_header_ok f) then
    do _ <- ShowErrorMessage; ret (mkReadOutcome false (read_x out) (read_y out) (read_raster out))
  else if negb (IsValidRasterDimension (u32 (img_width f)) (u32 (img_height f))) then
    do _ <- ShowErrorMessage; ret (mkReadOutcome false (read_x out) (read_y out) (read_raster out))
  else
    if want_raster then
      if negb (img_bitmap_ok f) then
        do _ <- ShowErrorMessage; ret (mkReadOutcome false (read_x out) (read_y out) (read_raster out))
      else
        do raster <- MallocT (resize (Z.to_nat (u64 (u64 (u32 (img_width f) * u32 (img_height f)) * 3))) 0 (img_rgb f));
        ret (mkReadOutcome true (u32 (img_width f)) (u32 (img_height f)) raster)
    else ret (mkReadOutcome true (u32 (img_width f)) (u32 (img_height f)) (read_raster out)).

Definition ReadRasterFile (dft : DetailedFileType) (filename subdir : Z)
    (want_raster : bool) (out : ReadOutcome) : M ReadOutcome :=
  do file <- gets (fun s => disk s subdir filename);
  match dft with
  | DFT_OTHER => NOT_REACHED
  | DFT_HEIGHTMAP_PNG =>
      match file with
      | None => do _ <- ShowErrorMessage; ret (mkReadOutcome false (read_x out) (read_y out) (read_raster out))
      | Some f => ReadRasterPNG f want_raster out
      end
  | DFT_HEIGHTMAP_BMP =>
      match file with
      | None => do _ <- ShowErrorMessage; ret (mkReadOutcome false (read_x out) (read_y out) (read_raster out))
      | Some f => ReadRasterBMP f want_raster out
      end
  end.

(** *** The entry point *)

Definition LoadRaster (dft : DetailedFileType) (rdt : RasterDataType)
    (filename subdir : Z) : M unit :=
  do out <- ReadRasterFile dft filename subdir true (mkReadOutcome false 0 0 None);
  if negb (read_ok out) then free (read_raster out) else
  let x := read_x out in
  let y := read_y out in
  let raster := default [] (read_raster out) in
  do _ <- match rdt with
          | RDT_TERRAIN => ApplyRasterToMap x y raster ApplyTerrain
          | RDT_FIELDS => ApplyRasterToMap x y raster ApplyFields
          | RDT_WATER => ApplyRasterToMap x y raster ApplyWater
          | RDT_TREES => ApplyRasterToMap x y raster ApplyTrees
          | RDT_SNOW => ApplyRasterToMap x y raster ApplySnow
          | RDT_DESERT => ApplyRasterToMap x y raster ApplyDesert
          | RDT_TROPICS => ApplyRasterToMap x y raster ApplyTropics
          | RDT_HEIGHT | RDT_INVALID => NOT_REACHED
          end;
  do _ <- free (read_raster out);
  MarkWholeScreenDirty.

(** ** Vocabulary of the properties *)

(** The mutation requests issued between two states. *)
Definition calls_since (before after : Game) : list GridCall :=
  drop (length (journal before)) (journal after).

Definition is_canal_call (c : GridCall) : bool :=
  match c with CallMakeCanal _ _ _ => true | _ => false end.
Definition is_river_call (c : GridCall) : bool :=
  match c with CallMakeRiver _ _ => true | _ => false end.
Definition is_sea_call (c : GridCall) : bool :=
  match c with CallMakeSea _ => true | _ => false end.

(** What of a cell makes up its ground: its kind, ground sub-kinds, snow
    and density. *)
Definition ground_of (t : Tile) : TileType * ClearGround * bool * TreeGround * Z :=
  (tile_type t, tile_ground t, tile_snow t, tile_tree_ground t, tile_density t).

(** The [(max_level, start, end)] triples the classifiers sample with. *)
Definition gradient_call_sites : list (Z * Z * Z) :=
  [(3, 240, 15); (1, 15, 240); (6, 15, 240); (4, 15, 240); (2, 15, 240)].

(** Two samplers that agree on the listed triples. *)
Definition agree_on_call_sites (S1 S2 : Z -> Z -> Z -> Z -> M Z) : Prop :=
  forall sample max_level start end_ s,
    In (max_level, start, end_) gradient_call_sites ->
    S1 sample max_level start end_ s = S2 sample max_level start end_ s.

(** The species groups of tree_base.h: the group that starts at a base
    offset, and its count. *)
Definition species_count_of_base (base : TreeType) : option Z :=
  if base =? TREE_TEMPERATE then Some TREE_COUNT_TEMPERATE
  else if base =? TREE_SUB_ARCTIC then Some TREE_COUNT_SUB_ARCTIC
  else if base =? TREE_RAINFOREST then Some TREE_COUNT_RAINFOREST
  else if base =? TREE_SUB_TROPICAL then Some TREE_COUNT_SUB_TROPICAL
  else if base =? TREE_TOYLAND then Some TREE_COUNT_TOYLAND
  else None.

(** The column back-mapping as the specification words it for the
    counter-clockwise orientation: mirrored with the image width. *)
Definition spec_source_col (rotation : HeightmapRotation) (raster_width : Z)
    (p : Projection) (map_col : Z) : M Z :=
  match rotation with
  | HM_COUNTER_CLOCKWISE =>
      udivM (umul (usub (usub (usub raster_width 1) map_col) (map_col_pad p)) num_div)
            (raster_scale p)
  | HM_CLOCKWISE =>
      udivM (umul (usub map_col (map_col_pad p)) num_div) (raster_scale p)
  end.

(** ** Example states *)

Module Examples.

(** An empty 64 x 64 grid with a random source that always yields the
    word [word]. *)
Definition game (rotation : HeightmapRotation) (climate : LandscapeType)
    (word : Z) : Game :=
  mkGame rotation climate 64 64 ∅ [] (fun _ => word) 0 (fun _ _ => None) 0 0 false.

(** A house on a half-tile slope. *)
Definition house : Tile :=
  mkTile MP_HOUSE 3 SLOPE_HALFTILE 2 TROPICZONE_NORMAL CLEAR_GRASS false
         TREE_GROUND_GRASS 0 0 0 WATER_CLASS_SEA (0, 0, 0) 0.

Definition town (rotation : HeightmapRotation) (word : Z) : Game :=
  mkGame rotation LT_TROPIC 64 64 {[ 130 := house ]} [] (fun _ => word) 0
         (fun _ _ => None) 0 0 false.

(** A disk with two files: file 1 announces a side of zero pixels, file 2
    is a 2 x 2 image whose rows cannot be read. *)
Definition bad_disk (rotation : HeightmapRotation) : Game :=
  mkGame rotation LT_TEMPERATE 64 64 {[ 130 := house ]} [] (fun _ => 0) 0
         (fun subdir name =>
            if (subdir =? 0) && (name =? 1)
            then Some (mkImageFile true 0 5 true [])
            else if (subdir =? 0) && (name =? 2)
            then Some (mkImageFile true 2 2 false [])
            else None)
         0 0 false.

(** A sampler that aborts on a level count of 5 and is the gradient
    sampler otherwise. *)
Definition picky_sampler (sample max_level start end_ : Z) : M Z :=
  if max_level =? 5 then abort
  else SampleQuantizedGradient sample max_level start end_.

End Examples.

(** ** raster_io.cpp: copying the decoded rows into the pixel buffer *)

(** A palette entry. *)
Record Colour := mkColour { colour_r : Z; colour_g : Z; colour_b : Z }.

(** What libpng hands to [ReadPNGRows]: colour type, channels per pixel,
    the rows, the dimensions and the palette. *)
Record PngImage := mkPngImage {
  png_has_palette : bool;
  png_channels : Z;
  png_rows : list (list Z);
  png_width : Z;
  png_height : Z;
  png_palette : list Colour
}.

(** [BmpInfo] and [BmpData] as far as [ReadBMPRows] reads them; a null
    palette is [None]. *)
Record BmpImage := mkBmpImage {
  bmp_width : Z;
  bmp_height : Z;
  bmp_bpp : Z;
  bmp_palette : option (list Colour);
  bmp_bitmap : list Z
}.

(** Computations on a buffer: [None] for an access outside a buffer, a row
    or a palette. *)
Definition store (index value : Z) (raster : list Z) : option (list Z) :=
  if (0 <=? index) && (index <? Z.of_nat (length raster))
  then Some (<[Z.to_nat index := value]> raster) else None.

Definition load {A} (cells : list A) (index : Z) : option A :=
  if 0 <=? index then cells !! Z.to_nat index else None.

(** A [for (i = lo; i < hi; i++)] loop over a state. *)
Fixpoint loop_count {S} (n : nat) (i : Z) (body : Z -> S -> option S) (st : S) : option S :=
  match n with
  | O => Some st
  | Datatypes.S k =>
      match body i st with
      | Some st' => loop_count k (i + 1) body st'
      | None => None
      end
  end.

Definition loop_uint {S} (lo hi : Z) (body : Z -> S -> option S) (st : S) : option S :=
  loop_count (Z.to_nat (hi - lo)) lo body st.

(** [*pixel++ = a; *pixel++ = b; *pixel++ = c]. *)
Definition store3 (pixel a b c : Z) (raster : list Z) : option (list Z) :=
  match store pixel a raster with
  | Some r1 =>
      match store (pixel + 1) b r1 with
      | Some r2 => store (pixel + 2) c r2
      | None => None
      end
  | None => None
  end.

(** [ReadPNGRows]: the columns are the outer loop; the offsets are [uint]. *)
Definition ReadPNGRows (raster : list Z) (png : PngImage) : option (list Z) :=
  let channels := png_channels png in
  let width := png_width png in
  let height := png_height png in
  if png_has_palette png then
    loop_uint 0 width (fun x =>
      loop_uint 0 height (fun y raster =>
        let pixel := umul (uadd (umul y width) x) 3 in
        let x_offset := umul x channels in
        match load (png_rows png) y with
        | Some row =>
            match load row x_offset with
            | Some index =>
                match load (png_palette png) index with
                | Some c => store3 pixel (colour_r c) (colour_g c) (colour_b c) raster
                | None => None
                end
            | None => None
            end
        | None => None
        end)) raster
  else
    loop_uint 0 width (fun x =>
      loop_uint 0 height (fun y raster =>
        let pixel := umul (uadd (umul y width) x) 3 in
        let x_offset := umul x channels in
        match load (png_rows png) y with
        | Some row =>
            if channels =? 3 then
              match load row (uadd x_offset 0), load row (uadd x_offset 1),
                    load row (uadd x_offset 2) with
              | Some a, Some b, Some c => store3 pixel a b c raster
              | _, _, _ => None
              end
            else
              match load row x_offset with
              | Some v => store3 pixel v v v raster
              | None => None
              end
        | None => None
        end)) raster.

(** [ReadBMPRows]: the state of an inner loop is the two running pointers
    and the buffer. *)
Definition ReadBMPRows (raster : list Z) (bmp : BmpImage) : option (list Z) :=
  let width := bmp_width bmp in
  match bmp_palette bmp with
  | Some palette =>
      loop_uint 0 (bmp_height bmp) (fun y raster =>
        let pixel := umul (umul y width) 3 in
        let bitmap := umul y width in
        match loop_uint 0 width (fun x '(pixel, bitmap, raster) =>
                match load (bmp_bitmap bmp) bitmap with
                | Some index =>
                    match load palette index with
                    | Some c =>
                        match store3 pixel (colour_r c) (colour_g c) (colour_b c) raster with
                        | Some raster' => Some (pixel + 3, bitmap + 1, raster')
                        | None => None
                        end
                    | None => None
                    end
                | None => None
                end) (pixel, bitmap, raster) with
        | Some (_, _, raster') => Some raster'
        | None => None
        end) raster
  | None =>
      if bmp_bpp bmp =? 24 then
        loop_uint 0 (bmp_height bmp) (fun y raster =>
          let pixel := umul (umul y width) 3 in
          let bitmap := umul (umul y width) 3 in
          match loop_uint 0 (umul width 3) (fun x '(pixel, bitmap, raster) =>
                  match load (bmp_bitmap bmp) bitmap with
                  | Some v =>
                      match store pixel v raster with
                      | Some raster' => Some (pixel + 1, bitmap + 1, raster')
                      | None => None
                      end
                  | None => None
                  end) (pixel, bitmap, raster) with
          | Some (_, _, raster') => Some raster'
          | None => None
          end) raster
      else Some raster
  end.

(** The colour of a pixel of a decoded PNG, in exact integers. *)
Definition png_pixel (png : PngImage) (x y : Z) : option (Z * Z * Z) :=
  match load (png_rows png) y with
  | Some row =>
      if png_has_palette png then
        match load row (x * png_channels png) with
        | Some index =>
            match load (png_palette png) index with
            | Some c => Some (colour_r c, colour_g c, colour_b c)
            | None => None
            end
        | None => None
        end
      else if png_channels png =? 3 then
        match load row (x * 3), load row (x * 3 + 1), load row (x * 3 + 2) with
        | Some a, Some b, Some c => Some (a, b, c)
        | _, _, _ => None
        end
      else
        match load row (x * png_channels png) with
        | Some v => Some (v, v, v)
        | None => None
        end
  | None => None
  end.

(** The three bytes of the pixel in a column and row of a buffer of a
    given width. *)
Definition buffer_pixel (raster : list Z) (width x y : Z) : option (Z * Z * Z) :=
  match load raster ((y * width + x) * 3), load raster ((y * width + x) * 3 + 1),
        load raster ((y * width + x) * 3 + 2) with
  | Some a, Some b, Some c => Some (a, b, c)
  | _, _, _ => None
  end.

(** The colour of a pixel of a decoded BMP, in exact integers. *)
Definition bmp_pixel (bmp : BmpImage) (x y : Z) : option (Z * Z * Z) :=
  match bmp_palette bmp with
  | Some palette =>
      match load (bmp_bitmap bmp) (y * bmp_width bmp + x) with
      | Some index =>
          match load palette index with
          | Some c => Some (colour_r c, colour_g c, colour_b c)
          | None => None
          end
      | None => None
      end
  | None => buffer_pixel (bmp_bitmap bmp) (bmp_width bmp) x y
  end.

(** The pixel of a buffer is the one a decoder defines. *)
Definition filled (fetch : Z -> Z -> option (Z * Z * Z)) (raster : list Z)
    (width x y : Z) : Prop :=
  exists colour, fetch x y = Some colour /\ buffer_pixel raster width x y = Some colour.

(** The rows libpng hands over cover the image: one row per line, each of
    at least [width * channels] bytes, and with a palette every byte
    indexes it. *)
Definition png_rows_fit (png : PngImage) : bool :=
  (Z.of_nat (length (png_rows png)) =? png_height png)
  && forallb (fun row =>
       (png_width png * png_channels png <=? Z.of_nat (length row))
       && (negb (png_has_palette png)
           || forallb (fun v => (0 <=? v) && (v <? Z.of_nat (length (png_palette png))))
                      row))
     (png_rows png).

(** The bitmap [BmpReadBitmap] hands over covers the image: one byte per
    pixel that indexes the palette, or three bytes per pixel at 24 bits. *)
Definition bmp_bitmap_fits (bmp : BmpImage) : bool :=
  match bmp_palette bmp with
  | Some palette =>
      (bmp_width bmp * bmp_height bmp <=? Z.of_nat (length (bmp_bitmap bmp)))
      && forallb (fun v => (0 <=? v) && (v <? Z.of_nat (length palette))) (bmp_bitmap bmp)
  | None =>
      if bmp_bpp bmp =? 24
      then bmp_width bmp * bmp_height bmp * 3 <=? Z.of_nat (length (bmp_bitmap bmp))
      else true
  end.

(** ** The sampler in exact integers *)

(** The jitter threshold [rand] the sampler draws in a state, for a step. *)
Definition jitter_threshold (s : Game) (x_delta : Z) : Z :=
  uadd (Z.shiftr (u32 (entropy s (random_calls s)) * u32 (iabs (isub x_delta 2))) 32) 1.

(** The level of a sample for a given threshold, in exact integers. *)
Definition gradient_level (sample max_level start end_ rand : Z) : Z :=
  let d := Z.quot (end_ - start) max_level in
  let x := Z.max (sample - Z.min start end_) 0 in
  let y := Z.min (x / Z.abs d + (if rand <? x mod Z.abs d then 1 else 0)) max_level in
  if d <? 0 then max_level - y else y.

(** Arguments far enough from the ends of [int] for the sampler's
    arithmetic not to wrap. *)
Definition gradient_args (sample max_level start end_ : Z) : Prop :=
  - 2 ^ 29 <= sample <= 2 ^ 29 /\ - 2 ^ 29 <= start <= 2 ^ 29
  /\ - 2 ^ 29 <= end_ <= 2 ^ 29 /\ 0 < max_level < 2 ^ 31
  /\ Z.quot (end_ - start) max_level <> 0.

(** ** Requests, the grid and the settings *)

(** The grid after a list of mutation requests, oldest first. *)
Definition replay (calls : list GridCall) (m : gmap Z Tile) : gmap Z Tile :=
  foldl (fun grid c => grid_apply c grid) m calls.

(** What of the state no classifier and no projection pass touches:
    everything but the grid, the journal and the position of the random
    source. *)
Definition same_settings (s s' : Game) : Prop :=
  heightmap_rotation s' = heightmap_rotation s /\ landscape s' = landscape s
  /\ MapSizeX s' = MapSizeX s /\ MapSizeY s' = MapSizeY s
  /\ entropy s' = entropy s /\ disk s' = disk s
  /\ live_buffers s' = live_buffers s /\ error_messages s' = error_messages s
  /\ screen_dirty s' = screen_dirty s.

(** [s'] comes from [s] by mutation requests that all satisfy [Q]: the
    journal has grown by them, the grid is the old grid with them applied,
    and the settings are the same. *)
Definition evolves (Q : GridCall -> Prop) (s s' : Game) : Prop :=
  same_settings s s'
  /\ exists calls,
       journal s' = journal s ++ calls /\ Forall Q calls
       /\ tiles s' = replay calls (tiles s).

(** A computation that returns from every state, with a result in [R] and
    by requests in [Q] only. *)
Definition steps {A} (Q : GridCall -> Prop) (R : A -> Prop) (m : M A) : Prop :=
  forall s, exists a s', m s = Some (a, s') /\ R a /\ evolves Q s s'.

(** The arguments a request may carry: densities and tree counts of two
    bits, a growth stage up to 6, a real tree species, a canal owner other
    than water, no industry behind a field. *)
Definition valid_call (c : GridCall) : Prop :=
  match c with
  | CallSetClearGroundDensity _ _ d | CallSetTreeGroundDensity _ _ d
  | CallMakeClear _ _ d | CallMakeSnow _ d => 0 <= d <= 3
  | CallPlantTreesOnTile _ ty n g => ty <> TREE_INVALID /\ 0 <= n <= 3 /\ 0 <= g <= 6
  | CallMakeCanal _ o _ => o <> OWNER_WATER
  | CallMakeField _ _ i => i = INVALID_INDUSTRY
  | CallMakeRiver _ _ | CallMakeSea _ | CallSetTropicZone _ _ => True
  end.

Definition valid_call_on (tile : TileIndex) (c : GridCall) : Prop :=
  call_tile c = tile /\ valid_call c.

(** The classifier [LoadRaster] dispatches a theme to. *)
Definition theme_classifier (rdt : RasterDataType) : option TileRasterCallback :=
  match rdt with
  | RDT_TERRAIN => Some ApplyTerrain
  | RDT_FIELDS => Some ApplyFields
  | RDT_WATER => Some ApplyWater
  | RDT_TREES => Some ApplyTrees
  | RDT_SNOW => Some ApplySnow
  | RDT_DESERT => Some ApplyDesert
  | RDT_TROPICS => Some ApplyTropics
  | RDT_HEIGHT | RDT_INVALID => None
  end.

(** The inner-cell predicate as a function of the grid size. *)
Definition is_inner (s : Game) (tile : TileIndex) : bool :=
  (0 <? tile mod MapSizeX s) && (tile mod MapSizeX s <? MapSizeX s - 1)
  && (0 <? tile / MapSizeX s) && (tile / MapSizeX s <? MapSizeY s - 1).

(** The cell reference the projector composes for a grid row and column. *)
Definition projected_tile (s : Game) (map_row map_col : Z) : TileIndex :=
  match heightmap_rotation s with
  | HM_COUNTER_CLOCKWISE => uadd (umul map_row (MapSizeX s)) map_col
  | HM_CLOCKWISE => uadd (umul map_col (MapSizeX s)) map_row
  end.

(** The request is for an inner cell of the grid and carries valid
    arguments. *)
Definition inner_valid_call (s : Game) (c : GridCall) : Prop :=
  is_inner s (call_tile c) = true /\ valid_call c.

(** The requests of the desert classifier: the desert zone tag, or desert
    ground of density 1 or 3 on a clear or a tree-covered tile. *)
Definition desert_call (tile : TileIndex) (c : GridCall) : Prop :=
  c = CallSetTropicZone tile TROPICZONE_DESERT
  \/ exists d, (d = 1 \/ d = 3)
               /\ (c = CallSetClearGroundDensity tile CLEAR_DESERT d
                   \/ c = CallSetTreeGroundDensity tile TREE_GROUND_SNOW_DESERT d).

(** The block of species of a climate in [enum TreeType]. *)
Definition in_climate_block (climate : LandscapeType) (tree : TreeType) : Prop :=
  match climate with
  | LT_TEMPERATE => TREE_TEMPERATE <= tree < TREE_SUB_ARCTIC
  | LT_ARCTIC => TREE_SUB_ARCTIC <= tree < TREE_RAINFOREST
  | LT_TROPIC => TREE_RAINFOREST <= tree < TREE_TOYLAND
  | LT_TOYLAND => TREE_TOYLAND <= tree < TREE_TOYLAND + TREE_COUNT_TOYLAND
  end.

(** The extents of the grid as the projector sees them: in clockwise
    orientation width and height change places. *)
Definition grid_width (s : Game) : Z :=
  match heightmap_rotation s with
  | HM_COUNTER_CLOCKWISE => MapSizeX s
  | HM_CLOCKWISE => MapSizeY s
  end.

Definition grid_height (s : Game) : Z :=
  match heightmap_rotation s with
  | HM_COUNTER_CLOCKWISE => MapSizeY s
  | HM_CLOCKWISE => MapSizeX s
  end.

(** ** Example images *)

(** Example images and a small grid to project them on. *)
Module Images.

(** An empty 4 x 4 grid with a disk of two 2 x 2 images: file 3 is dark
    (every byte 8), file 4 is bright (every byte 250). *)
Definition plot (rotation : HeightmapRotation) (word : Z) : Game :=
  mkGame rotation LT_TEMPERATE 4 4 ∅ [] (fun _ => word) 0
         (fun subdir name =>
            if (subdir =? 0) && (name =? 3)
            then Some (mkImageFile true 2 2 true (replicate 12 8))
            else if (subdir =? 0) && (name =? 4)
            then Some (mkImageFile true 2 2 true (replicate 12 250))
            else None)
         0 0 false.

(** A 2 x 2 RGB image as libpng hands it over. *)
Definition rgb_png : PngImage :=
  mkPngImage false 3 [[1; 2; 3; 4; 5; 6]; [7; 8; 9; 10; 11; 12]] 2 2 [].

(** A 2 x 2 BMP with a palette of two colours. *)
Definition indexed_bmp : BmpImage :=
  mkBmpImage 2 2 8 (Some [mkColour 10 20 30; mkColour 40 50 60]) [0; 1; 1; 0].

End Images.

(** * Properties *)

(** ** Machine integers *)

Lemma u32_range z : is_u32 (u32 z).
Proof. unfold is_u32, u32. apply Z.mod_pos_bound. lia. Qed.

Lemma i32_range z : is_i32 (i32 z).
Proof.
  unfold is_i32, i32.
  pose proof (Z.mod_pos_bound (z + 2 ^ 31) (2 ^ 32) ltac:(lia)). lia.
Qed.

Lemma u32_small z : is_u32 z -> u32 z = z.
Proof. unfold is_u32, u32. intros H. apply Z.mod_small. exact H. Qed.

Lemma i32_small z : is_i32 z -> i32 z = z.
Proof.
  unfold is_i32, i32. intros H.
  rewrite Z.mod_small by lia. lia.
Qed.

Lemma u64_small z : is_u64 z -> u64 z = z.
Proof. unfold is_u64, u64. intros H. apply Z.mod_small. exact H. Qed.

Lemma iabs_nonzero z : is_i32 z -> z <> 0 -> iabs z <> 0.
Proof.
  unfold iabs, is_i32. intros Hz Hnz.
  destruct (Z.eq_dec (Z.abs z) (2 ^ 31)) as [E | E].
  - rewrite E. vm_compute. discriminate.
  - rewrite i32_small; unfold is_i32; lia.
Qed.

(** ** The dimension check *)

Lemma raster_limits :
  MAX_RASTER_SIDE_LENGTH_IN_PIXELS = 131072 /\ MAX_RASTER_SIZE_PIXELS = 268435456.
Proof. split; reflexivity. Qed.

(** C4: [IsValidRasterDimension] accepts exactly the dimensions with at most
    268435456 pixels and both sides in [1, 131072], for all [size_t]
    arguments (the 64-bit product cannot wrap on accepted sides). *)
Theorem IsValidRasterDimension_iff (width height : Z) :
  is_u64 width -> is_u64 height ->
  IsValidRasterDimension width height = true <->
  width * height <= 268435456 /\
  0 < width <= 131072 /\ 0 < height <= 131072.
Proof.
  intros Hw Hh. unfold IsValidRasterDimension.
  destruct raster_limits as [-> ->].
  rewrite !andb_true_iff, !Z.leb_le, !Z.ltb_lt.
  rewrite (u64_small width) by exact Hw.
  split.
  - intros [[[[Hp Hw0] Hw1] Hh0] Hh1].
    rewrite u64_small in Hp by (unfold is_u64; nia). lia.
  - intros (Hp & Hw' & Hh').
    rewrite u64_small by (unfold is_u64; nia). lia.
Qed.

Lemma IsValidRasterDimension_iff_witness :
  IsValidRasterDimension 30000 964 = true <->
  30000 * 964 <= 268435456 /\ 0 < 30000 <= 131072 /\ 0 < 964 <= 131072.
Proof.
  apply (IsValidRasterDimension_iff 30000 964); unfold is_u64; lia.
Defined.

(** ** The gradient sampler *)

Lemma RandomRange_runs limit s :
  RandomRange limit s
  = Some (Z.shiftr (u32 (entropy s (random_calls s)) * limit) 32, next_random s).
Proof. reflexivity. Qed.

(** With a nonzero step the sampler returns, consumes one random word and
    leaves the rest of the state alone; the level is within bounds. *)
Lemma SampleQuantizedGradient_runs sample max_level start end_ s :
  0 < max_level -> start <> end_ -> idiv (isub end_ start) max_level <> 0 ->
  exists y,
    SampleQuantizedGradient sample max_level start end_ s = Some (y, next_random s)
    /\ (is_i32 max_level -> 0 <= y <= max_level).
Proof.
  intros Hml Hse Hxd.
  unfold SampleQuantizedGradient.
  set (x_delta := idiv (isub end_ start) max_level) in *.
  assert (Hxd' : iabs x_delta <> 0).
  { apply iabs_nonzero; [apply i32_range | exact Hxd]. }
  unfold bind at 1.
  replace (0 <? max_level) with true by (symmetry; apply Z.ltb_lt; lia).
  cbn [assert ret]. unfold bind at 1.
  replace (start =? end_) with false by (symmetry; apply Z.eqb_neq; exact Hse).
  cbn [negb assert ret].
  destruct (end_ <? start);
    unfold bind at 1; rewrite RandomRange_runs;
    unfold iremM, idivM;
    destruct (Z.eqb_spec x_delta 0) as [E0 | _]; try contradiction;
    destruct (Z.eqb_spec (iabs x_delta) 0) as [E1 | _]; try contradiction;
    cbn [bind ret]; unfold bind, ret;
    (eexists; split; [reflexivity |]); intros Hr;
    unfold is_i32 in Hr;
    match goal with |- context [iadd ?a ?b] => generalize (iadd a b) end;
    intros level;
    (destruct (x_delta <? 0); [| lia]);
    unfold isub; rewrite i32_small; unfold is_i32; lia.
Qed.

(** C1: under the sampler's preconditions (positive level count, distinct
    end points, a step of magnitude at least 3 as the code computes it in
    [int]) and for every state of the random source, the sampler returns a
    level in [0, max_level]. *)
Theorem SampleQuantizedGradient_in_range (sample max_level start end_ : Z) (s : Game) :
  is_i32 sample -> is_i32 max_level -> is_i32 start -> is_i32 end_ ->
  0 < max_level -> start <> end_ ->
  3 <= Z.abs (idiv (isub end_ start) max_level) ->
  exists y s',
    SampleQuantizedGradient sample max_level start end_ s = Some (y, s')
    /\ 0 <= y <= max_level.
Proof.
  intros _ Hml _ _ Hpos Hse Hstep.
  destruct (SampleQuantizedGradient_runs sample max_level start end_ s Hpos Hse)
    as (y & Hrun & Hy).
  - lia.
  - exists y, (next_random s). split; [exact Hrun | exact (Hy Hml)].
Qed.

Lemma SampleQuantizedGradient_in_range_witness :
  exists y s',
    SampleQuantizedGradient 100 3 240 15
      (Examples.game HM_CLOCKWISE LT_TEMPERATE 3000000000) = Some (y, s')
    /\ 0 <= y <= 3.
Proof.
  apply (SampleQuantizedGradient_in_range 100 3 240 15);
    try (unfold is_i32; lia); vm_compute; discriminate.
Defined.

Lemma uadd_nonneg a b : 0 <= uadd a b.
Proof.
  unfold uadd. pose proof (u32_range (a + b)) as H. unfold is_u32 in H. lia.
Qed.

(** A sample at the upper end of an ascending two-band gradient is in the
    upper band whatever the random word. *)
Lemma SampleQuantizedGradient_at_upper s :
  SampleQuantizedGradient 240 1 15 240 s = Some (1, next_random s).
Proof.
  unfold SampleQuantizedGradient.
  cbn [bind assert ret Z.ltb Z.eqb negb Z.compare Pos.compare Pos.compare_cont Pos.eqb].
  unfold bind at 1. rewrite RandomRange_runs.
  change (idiv (isub 240 15) 1) with 225.
  change (iremM (Z.max (isub 240 15) 0) 225) with (@ret Z 0).
  change (iabs 225) with 225.
  change (idivM (Z.max (isub 240 15) 0) 225) with (@ret Z 1).
  cbn [bind ret]. unfold bind, ret.
  change (u32 0) with 0.
  match goal with |- context [?a <? 0] =>
    destruct (Z.ltb_spec a 0) as [H | H]; [| reflexivity] end.
  match type of H with uadd ?a ?b < 0 => pose proof (uadd_nonneg a b) end.
  lia.
Qed.

(** ** The classifiers *)

(** What [TreeTypeLookup] computes for a value of 16 or more. *)
Lemma TreeTypeLookup_decodes (b : Z) (s : Game) :
  16 <= b < 256 ->
  TreeTypeLookup b s
  = Some (match landscape s with
          | LT_TEMPERATE => TREE_TEMPERATE + (Z.shiftr b 4 - 1) mod TREE_COUNT_TEMPERATE
          | LT_ARCTIC => TREE_SUB_ARCTIC + (Z.shiftr b 4 - 1) mod TREE_COUNT_SUB_ARCTIC
          | LT_TROPIC => TREE_RAINFOREST + (Z.shiftr b 4 - 1) mod TREE_COUNT_SUB_TROPICAL
          | LT_TOYLAND => TREE_TOYLAND + (Z.shiftr b 4 - 1) mod TREE_COUNT_TOYLAND
          end, s).
Proof.
  intros Hb. unfold TreeTypeLookup.
  replace (b <? 16) with false by (symmetry; apply Z.ltb_ge; lia).
  unfold bind, gets, ret.
  assert (Hq : 1 <= Z.shiftr b 4 < 16).
  { rewrite Z.shiftr_div_pow2 by lia. change (2 ^ 4) with 16.
    split; [apply Z.div_le_lower_bound | apply Z.div_lt_upper_bound]; lia. }
  assert (E : u32 (isub (Z.shiftr b 4) 1) = Z.shiftr b 4 - 1).
  { unfold isub. rewrite i32_small by (unfold is_i32; lia).
    apply u32_small. unfold is_u32. lia. }
  rewrite E.
  change TREE_COUNT_TEMPERATE with 12. change TREE_COUNT_SUB_ARCTIC with 8.
  change TREE_COUNT_SUB_TROPICAL with 4. change TREE_COUNT_TOYLAND with 9.
  change TREE_TEMPERATE with 0. change TREE_SUB_ARCTIC with 12.
  change TREE_RAINFOREST with 20. change TREE_TOYLAND with 32.
  destruct (landscape s); f_equal; f_equal; unfold uadd; apply u32_small;
    unfold is_u32;
    match goal with |- context [?a mod ?n] =>
      pose proof (Z.mod_pos_bound a n ltac:(lia)) end; lia.
Qed.

(** C5: in the tropic climate the blue value 0x60 decodes to species 0x15:
    the base is that of the rainforest group (7 species) but the modulus is
    the count of the sub-tropical group (4 species), so the result is
    neither the rainforest species 0x19 nor the sub-tropical species 0x1D
    that a base and a count of one group would give. *)
Theorem TreeTypeLookup_tropic_mixes_groups :
  forall rotation size_x size_y cells calls words drawn files live errors dirty,
    let s := mkGame rotation LT_TROPIC size_x size_y cells calls words drawn
                    files live errors dirty in
    TreeTypeLookup 0x60 s = Some (0x15, s)
    /\ species_count_of_base TREE_RAINFOREST = Some 7
    /\ TREE_COUNT_SUB_TROPICAL = 4
    /\ TREE_RAINFOREST + (Z.shiftr 0x60 4 - 1) mod 7 = 0x19
    /\ TREE_SUB_TROPICAL + (Z.shiftr 0x60 4 - 1) mod TREE_COUNT_SUB_TROPICAL = 0x1D.
Proof. intros. repeat split. Qed.

(** Below the lower cutoff the fields classifier does nothing. *)
Lemma ApplyFields_below_cutoff r g b tile s :
  r < 15 -> ApplyFields r g b tile s = Some (tt, s).
Proof.
  intros Hr. unfold ApplyFields, ApplyFields_with.
  replace (r <? LOWER_CUTOFF) with true by (symmetry; apply Z.ltb_lt; exact Hr).
  reflexivity.
Qed.

(** C6: at red 15 and green 240 the fields classifier converts the tile with
    field type 4294967295, the [uint] image of [-1 % 9 = -1], which is not
    in [0, 8]. *)
Theorem ApplyFields_red_15 :
  forall tile s,
    ApplyFields 15 240 0 tile s
    = Some (tt, record_call (CallMakeField tile 4294967295 INVALID_INDUSTRY)
                            (next_random s)).
Proof.
  intros tile s. unfold ApplyFields, ApplyFields_with.
  change (15 <? LOWER_CUTOFF) with false. cbv iota.
  unfold bind. change LOWER_CUTOFF with 15. change UPPER_CUTOFF with 240.
  rewrite SampleQuantizedGradient_at_upper. reflexivity.
Qed.

Lemma calls_since_same s : calls_since s s = [].
Proof. unfold calls_since. apply drop_all. Qed.

Lemma calls_since_random s : calls_since s (next_random s) = [].
Proof. unfold calls_since. cbn. apply drop_all. Qed.

Lemma calls_since_random_record c s :
  calls_since s (record_call c (next_random s)) = [c].
Proof. unfold calls_since. cbn. apply drop_app_length. Qed.

(** From red 16 on the fields classifier either leaves the tile alone or
    converts it with field type [((r >> 4) - 1) mod 9], a value in [0, 8]. *)
Lemma ApplyFields_from_16 r g b tile s :
  16 <= r < 256 ->
  exists s',
    ApplyFields r g b tile s = Some (tt, s')
    /\ (calls_since s s' = []
        \/ calls_since s s'
           = [CallMakeField tile ((Z.shiftr r 4 - 1) mod 9) INVALID_INDUSTRY])
    /\ 0 <= (Z.shiftr r 4 - 1) mod 9 <= 8.
Proof.
  intros Hr. unfold ApplyFields, ApplyFields_with.
  replace (r <? LOWER_CUTOFF) with false
    by (symmetry; apply Z.ltb_ge; change LOWER_CUTOFF with 15; lia).
  assert (Hq : 1 <= Z.shiftr r 4 < 16).
  { rewrite Z.shiftr_div_pow2 by lia. change (2 ^ 4) with 16.
    split; [apply Z.div_le_lower_bound | apply Z.div_lt_upper_bound]; lia. }
  pose proof (Z.mod_pos_bound (Z.shiftr r 4 - 1) 9 ltac:(lia)) as Hm.
  assert (E : u32 (irem (isub (Z.shiftr r 4) 1) 9) = (Z.shiftr r 4 - 1) mod 9).
  { unfold isub, irem. rewrite i32_small by (unfold is_i32; lia).
    rewrite Z.rem_mod_nonneg by lia. apply u32_small. unfold is_u32. lia. }
  rewrite E.
  destruct (SampleQuantizedGradient_runs g 1 LOWER_CUTOFF UPPER_CUTOFF s)
    as (level & Hrun & _); [lia | discriminate | discriminate |].
  unfold bind. rewrite Hrun.
  destruct (level =? 0); cbn [negb when].
  - exists (next_random s). split; [reflexivity |]. split; [| lia].
    left. apply calls_since_random.
  - eexists. split; [reflexivity |]. split; [| lia].
    right. apply calls_since_random_record.
Qed.

(** C7: with red at or above 240 on a slope that is not flat, the water
    classifier makes neither canal nor sea, and makes a river exactly when
    green is at or above 240 and the slope is a half-tile slope; with red
    below 240 and green at or above 240 it makes a river whenever the slope
    is flat or a half-tile slope. *)
Theorem ApplyWater_slope_rules (r g b : Z) (tile : TileIndex) (s : Game) :
  let slope := tile_slope (tile_at (tiles s) tile) in
  (240 <= r -> slope <> SLOPE_FLAT ->
   exists s',
     ApplyWater r g b tile s = Some (tt, s')
     /\ existsb is_canal_call (calls_since s s') = false
     /\ existsb is_sea_call (calls_since s s') = false
     /\ (existsb is_river_call (calls_since s s') = true
         <-> 240 <= g /\ IsHalftileSlope slope = true))
  /\ (r < 240 -> 240 <= g -> slope = SLOPE_FLAT \/ IsHalftileSlope slope = true ->
      exists s',
        ApplyWater r g b tile s = Some (tt, s')
        /\ existsb is_river_call (calls_since s s') = true).
Proof.
  intros slope. split.
  - intros Hr Hslope. unfold ApplyWater.
    replace (UPPER_CUTOFF <=? r) with true by (symmetry; apply Z.leb_le; exact Hr).
    unfold bind at 1, GetTileSlope, gets. fold slope.
    replace (slope =? SLOPE_FLAT) with false
      by (symmetry; apply Z.eqb_neq; exact Hslope).
    destruct (Z.leb_spec UPPER_CUTOFF g) as [Hg | Hg];
      destruct (IsHalftileSlope slope) eqn:Hhalf; cbn [andb].
    + eexists. split; [reflexivity |].
      rewrite calls_since_random_record. cbn.
      repeat split; intros; try reflexivity; exact Hg.
    + exists s. split; [reflexivity |].
      rewrite calls_since_same. cbn.
      repeat split; intros; try reflexivity; try discriminate.
      destruct H as [_ H]. discriminate.
    + eexists. split; [reflexivity |].
      rewrite calls_since_same. cbn.
      repeat split; intros; try reflexivity; try discriminate.
      destruct H as [H _]. change UPPER_CUTOFF with 240 in Hg. lia.
    + exists s. split; [reflexivity |].
      rewrite calls_since_same. cbn.
      repeat split; intros; try reflexivity; try discriminate.
      destruct H as [_ H]. discriminate.
  - intros Hr Hg Hslope. unfold ApplyWater.
    replace (UPPER_CUTOFF <=? r) with false by (symmetry; apply Z.leb_gt; exact Hr).
    replace (UPPER_CUTOFF <=? g) with true by (symmetry; apply Z.leb_le; exact Hg).
    unfold bind at 1, GetTileSlope, gets. fold slope.
    replace ((slope =? SLOPE_FLAT) || IsHalftileSlope slope) with true.
    + eexists. split; [reflexivity |].
      rewrite calls_since_random_record. reflexivity.
    + symmetry. apply orb_true_iff.
      destruct Hslope as [H | H]; [left; apply Z.eqb_eq; exact H | right; exact H].
Qed.

Lemma ApplyWater_slope_rules_witness :
  (exists s',
     ApplyWater 250 250 0 130 (Examples.town HM_CLOCKWISE 77) = Some (tt, s')
     /\ existsb is_canal_call (calls_since (Examples.town HM_CLOCKWISE 77) s') = false
     /\ existsb is_sea_call (calls_since (Examples.town HM_CLOCKWISE 77) s') = false
     /\ (existsb is_river_call (calls_since (Examples.town HM_CLOCKWISE 77) s') = true
         <-> 240 <= 250
             /\ IsHalftileSlope
                  (tile_slope (tile_at (tiles (Examples.town HM_CLOCKWISE 77)) 130))
                = true))
  /\ (exists s',
        ApplyWater 10 250 0 130 (Examples.town HM_CLOCKWISE 77) = Some (tt, s')
        /\ existsb is_river_call (calls_since (Examples.town HM_CLOCKWISE 77) s') = true).
Proof.
  split.
  - apply (proj1 (ApplyWater_slope_rules 250 250 0 130 (Examples.town HM_CLOCKWISE 77))).
    + lia.
    + vm_compute. discriminate.
  - apply (proj2 (ApplyWater_slope_rules 10 250 0 130 (Examples.town HM_CLOCKWISE 77))).
    + lia.
    + lia.
    + right. vm_compute. reflexivity.
Defined.

(** ** Reading fails: nothing happens *)

(** A read that reports failure has shown one error message and either has
    left the caller's buffer pointer and the heap as they were, or hands back
    the one buffer it has allocated. *)
Lemma ReadRasterFile_failure dft filename subdir want_raster out0 out s s1 :
  ReadRasterFile dft filename subdir want_raster out0 s = Some (out, s1) ->
  read_ok out = false ->
  (s1 = with_error_message s /\ read_raster out = read_raster out0)
  \/ (s1 = with_error_message (with_live_buffers (live_buffers s + 1) s)
      /\ exists bytes, read_raster out = Some bytes).
Proof.
  unfold ReadRasterFile, bind at 1, gets.
  destruct dft; [| | discriminate];
    (destruct (disk s subdir filename) as [f |];
     [| intros [= <- <-] _; left; split; reflexivity]).
  - unfold ReadRasterBMP.
    destruct (img_header_ok f); cbn [negb];
      [| intros [= <- <-] _; left; split; reflexivity].
    destruct (IsValidRasterDimension _ _); cbn [negb];
      [| intros [= <- <-] _; left; split; reflexivity].
    destruct want_raster.
    + destruct (img_bitmap_ok f); cbn [negb];
        [| intros [= <- <-] _; left; split; reflexivity].
      intros [= <- <-]. discriminate.
    + intros [= <- <-]. discriminate.
  - unfold ReadRasterPNG.
    destruct (img_header_ok f); cbn [negb];
      [| intros [= <- <-] _; left; split; reflexivity].
    destruct (IsValidRasterDimension _ _); cbn [negb];
      [| intros [= <- <-] _; left; split; reflexivity].
    destruct want_raster; [| intros [= <- <-]; discriminate].
    destruct (img_bitmap_ok f); cbn [negb].
    + intros [= <- <-]. discriminate.
    + intros [= <- <-] _. right. split; [reflexivity |].
      eexists. reflexivity.
Qed.

(** C8: when [ReadRasterFile] reports failure, [LoadRaster] returns without
    a projection pass: the grid and the journal of mutation requests are as
    before, no random word is drawn, the screen is not marked dirty, and the
    buffer the reader may have allocated is released, as many buffers
    being live as before. *)
Theorem LoadRaster_read_failure (dft : DetailedFileType) (rdt : RasterDataType)
    (filename subdir : Z) (s s1 : Game) (out : ReadOutcome) :
  ReadRasterFile dft filename subdir true (mkReadOutcome false 0 0 None) s
  = Some (out, s1) ->
  read_ok out = false ->
  exists s',
    LoadRaster dft rdt filename subdir s = Some (tt, s')
    /\ tiles s' = tiles s
    /\ journal s' = journal s
    /\ calls_since s s' = []
    /\ random_calls s' = random_calls s
    /\ screen_dirty s' = screen_dirty s
    /\ live_buffers s' = live_buffers s.
Proof.
  intros Hread Hfail.
  unfold LoadRaster, bind at 1. rewrite Hread, Hfail. cbn [negb].
  destruct (ReadRasterFile_failure _ _ _ _ _ _ _ _ Hread Hfail)
    as [[-> Hbuf] | [-> [bytes Hbuf]]]; rewrite Hbuf.
  - exists (with_error_message s). cbn [read_raster free ret].
    repeat split. unfold calls_since. cbn. apply drop_all.
  - eexists. cbn [free modify]. split; [reflexivity |].
    cbn [tiles journal random_calls screen_dirty live_buffers
         with_live_buffers with_error_message].
    repeat split; [| lia]. unfold calls_since. cbn. apply drop_all.
Qed.

Lemma LoadRaster_read_failure_witness :
  exists s',
    LoadRaster DFT_HEIGHTMAP_PNG RDT_WATER 2 0 (Examples.bad_disk HM_CLOCKWISE)
    = Some (tt, s')
    /\ tiles s' = tiles (Examples.bad_disk HM_CLOCKWISE)
    /\ journal s' = journal (Examples.bad_disk HM_CLOCKWISE)
    /\ calls_since (Examples.bad_disk HM_CLOCKWISE) s' = []
    /\ random_calls s' = random_calls (Examples.bad_disk HM_CLOCKWISE)
    /\ screen_dirty s' = screen_dirty (Examples.bad_disk HM_CLOCKWISE)
    /\ live_buffers s' = live_buffers (Examples.bad_disk HM_CLOCKWISE).
Proof.
  apply (LoadRaster_read_failure DFT_HEIGHTMAP_PNG RDT_WATER 2 0
           (Examples.bad_disk HM_CLOCKWISE)
           (with_error_message
              (with_live_buffers 1 (Examples.bad_disk HM_CLOCKWISE)))
           (mkReadOutcome false 0 0 (Some (replicate 12 0)))).
  - reflexivity.
  - reflexivity.
Defined.

(** ** Ground writes and tile kinds *)

Lemma ReplaceGround_other_kind tile ground density s :
  tile_type (tile_at (tiles s) tile) <> MP_CLEAR ->
  tile_type (tile_at (tiles s) tile) <> MP_TREES ->
  ReplaceGround tile ground density s = Some (tt, s).
Proof.
  intros Hc Ht. unfold ReplaceGround, bind, GetTileType, gets.
  rewrite !bool_decide_eq_false_2 by assumption. reflexivity.
Qed.

Lemma ground_of_SetTropicZone m tile zone t :
  ground_of (tile_at (grid_apply (CallSetTropicZone tile zone) m) t)
  = ground_of (tile_at m t).
Proof.
  unfold grid_apply, tile_at. cbn [call_tile tile_apply].
  destruct (decide (tile = t)) as [-> | Hne].
  - rewrite lookup_insert_eq. reflexivity.
  - rewrite lookup_insert_ne by exact Hne. reflexivity.
Qed.

(** C10: on a tile that is neither clear ground nor tree-covered,
    [ReplaceGround] does nothing, the terrain classifier does nothing, and
    the desert classifier leaves the ground of every tile as it was: the
    only mutation it can request is the desert zone tag of that tile. *)
Theorem ReplaceGround_spares_other_tiles (r g b : Z) (tile : TileIndex)
    (ground : ClearGround) (density : Z) (s : Game) :
  tile_type (tile_at (tiles s) tile) <> MP_CLEAR ->
  tile_type (tile_at (tiles s) tile) <> MP_TREES ->
  ReplaceGround tile ground density s = Some (tt, s)
  /\ ApplyTerrain r g b tile s = Some (tt, s)
  /\ exists s',
       ApplyDesert r g b tile s = Some (tt, s')
       /\ (forall t, ground_of (tile_at (tiles s') t) = ground_of (tile_at (tiles s) t))
       /\ (forall c, In c (calls_since s s') -> c = CallSetTropicZone tile TROPICZONE_DESERT).
Proof.
  intros Hc Ht. split; [| split].
  - apply ReplaceGround_other_kind; assumption.
  - unfold ApplyTerrain, ApplyTerrain_with, bind at 1, GetTileType, gets.
    rewrite !bool_decide_eq_false_2 by assumption. reflexivity.
  - unfold ApplyDesert, ApplyDesert_with. change (iadd 1 1) with 2.
    destruct (SampleQuantizedGradient_runs r 2 LOWER_CUTOFF UPPER_CUTOFF s)
      as (level & Hrun & _); [lia | discriminate | discriminate |].
    unfold bind at 1. rewrite Hrun.
    destruct (isub (imul level 2) 1 <? 0).
    + exists (next_random s). split; [reflexivity |]. split; [reflexivity |].
      rewrite calls_since_random. intros c [].
    + unfold bind at 1.
      rewrite (ReplaceGround_other_kind tile CLEAR_DESERT _ (next_random s))
        by assumption.
      destruct (UPPER_CUTOFF <? g); cbn [when].
      * eexists. split; [reflexivity |]. split.
        -- intros t. cbn [tiles record_call next_random].
           apply ground_of_SetTropicZone.
        -- rewrite calls_since_random_record.
           intros c [<- | []]. reflexivity.
      * exists (next_random s). split; [reflexivity |]. split; [reflexivity |].
        rewrite calls_since_random. intros c [].
Qed.

Lemma ReplaceGround_spares_other_tiles_witness :
  ReplaceGround 130 CLEAR_ROCKS 3 (Examples.town HM_CLOCKWISE 5)
  = Some (tt, Examples.town HM_CLOCKWISE 5)
  /\ ApplyTerrain 250 250 0 130 (Examples.town HM_CLOCKWISE 5)
     = Some (tt, Examples.town HM_CLOCKWISE 5)
  /\ exists s',
       ApplyDesert 250 250 0 130 (Examples.town HM_CLOCKWISE 5) = Some (tt, s')
       /\ (forall t, ground_of (tile_at (tiles s') t)
                     = ground_of (tile_at (tiles (Examples.town HM_CLOCKWISE 5)) t))
       /\ (forall c, In c (calls_since (Examples.town HM_CLOCKWISE 5) s') ->
                     c = CallSetTropicZone 130 TROPICZONE_DESERT).
Proof.
  apply (ReplaceGround_spares_other_tiles 250 250 0 130 CLEAR_ROCKS 3
           (Examples.town HM_CLOCKWISE 5)).
  - vm_compute. discriminate.
  - vm_compute. discriminate.
Defined.

(** ** The arguments the classifiers sample with *)

Lemma bind_ext {A B} (m1 m2 : M A) (k1 k2 : A -> M B) :
  (forall s, m1 s = m2 s) -> (forall a s, k1 a s = k2 a s) ->
  forall s, bind m1 k1 s = bind m2 k2 s.
Proof.
  intros Hm Hk s. unfold bind. rewrite Hm.
  destruct (m2 s) as [[a s'] |]; [apply Hk | reflexivity].
Qed.

Ltac listed_site :=
  repeat (first [left; reflexivity | right]).

Ltac same_run H :=
  repeat first
    [ reflexivity
    | apply H; listed_site
    | apply bind_ext; intros
    | match goal with
      | |- context [if ?c then _ else _] => destruct c
      end ].

Lemma classifiers_depend_on_call_sites S1 S2 :
  agree_on_call_sites S1 S2 ->
  forall r g b tile s,
    ApplyTerrain_with S1 r g b tile s = ApplyTerrain_with S2 r g b tile s
    /\ ApplyFields_with S1 r g b tile s = ApplyFields_with S2 r g b tile s
    /\ ApplyTrees_with S1 r g b tile s = ApplyTrees_with S2 r g b tile s
    /\ ApplySnow_with S1 r g b tile s = ApplySnow_with S2 r g b tile s
    /\ ApplyDesert_with S1 r g b tile s = ApplyDesert_with S2 r g b tile s.
Proof.
  intros H r g b tile s.
  unfold ApplyTerrain_with, ApplyFields_with, ApplyTrees_with, ApplySnow_with,
    ApplyDesert_with.
  repeat split; same_run H.
Qed.

Lemma call_site_steps max_level start end_ :
  In (max_level, start, end_) gradient_call_sites ->
  0 < max_level /\ start <> end_
  /\ 3 <= Z.abs (idiv (isub end_ start) max_level)
  /\ idiv (isub end_ start) max_level <> 0
  /\ 0 < u32 (iabs (isub (idiv (isub end_ start) max_level) 2)).
Proof.
  unfold gradient_call_sites.
  intros [[= <- <- <-] | [[= <- <- <-] | [[= <- <- <-] | [[= <- <- <-] |
         [[= <- <- <-] | []]]]]];
    vm_compute; repeat split; discriminate.
Qed.

(** C9: the classifiers call the sampler only with the triples
    [(3,240,15)], [(1,15,240)], [(6,15,240)], [(4,15,240)], [(2,15,240)]
    (their runs depend on the sampler at these triples alone); for each of
    them the step has magnitude at least 3 and so is not zero, the bound
    handed to [RandomRange] is positive, and the sampler returns, no
    remainder or quotient by zero being taken. *)
Theorem classifier_call_sites_are_safe :
  (forall S1 S2, agree_on_call_sites S1 S2 ->
     forall r g b tile s,
       ApplyTerrain_with S1 r g b tile s = ApplyTerrain_with S2 r g b tile s
       /\ ApplyFields_with S1 r g b tile s = ApplyFields_with S2 r g b tile s
       /\ ApplyTrees_with S1 r g b tile s = ApplyTrees_with S2 r g b tile s
       /\ ApplySnow_with S1 r g b tile s = ApplySnow_with S2 r g b tile s
       /\ ApplyDesert_with S1 r g b tile s = ApplyDesert_with S2 r g b tile s)
  /\ (forall max_level start end_,
        In (max_level, start, end_) gradient_call_sites ->
        3 <= Z.abs (idiv (isub end_ start) max_level)
        /\ idiv (isub end_ start) max_level <> 0
        /\ 0 < u32 (iabs (isub (idiv (isub end_ start) max_level) 2))
        /\ forall sample s, exists y,
             SampleQuantizedGradient sample max_level start end_ s
             = Some (y, next_random s)).
Proof.
  split.
  - exact classifiers_depend_on_call_sites.
  - intros max_level start end_ Hin.
    destruct (call_site_steps _ _ _ Hin) as (Hpos & Hne & Hstep & Hnz & Hbound).
    repeat split; try assumption.
    intros sample s.
    destruct (SampleQuantizedGradient_runs sample max_level start end_ s Hpos Hne Hnz)
      as (y & Hrun & _).
    exists y. exact Hrun.
Qed.

Lemma picky_sampler_agrees :
  agree_on_call_sites SampleQuantizedGradient Examples.picky_sampler.
Proof.
  intros sample max_level start end_ s Hin.
  unfold gradient_call_sites in Hin. unfold Examples.picky_sampler.
  destruct Hin as [[= <- <- <-] | [[= <- <- <-] | [[= <- <- <-] |
                  [[= <- <- <-] | [[= <- <- <-] | []]]]]]; reflexivity.
Defined.

Lemma classifier_call_sites_are_safe_witness :
  (ApplyTrees_with SampleQuantizedGradient 200 100 50 130 (Examples.town HM_CLOCKWISE 9)
   = ApplyTrees_with Examples.picky_sampler 200 100 50 130 (Examples.town HM_CLOCKWISE 9))
  /\ (3 <= Z.abs (idiv (isub 15 240) 3)
      /\ exists y,
           SampleQuantizedGradient 100 3 240 15 (Examples.town HM_CLOCKWISE 9)
           = Some (y, next_random (Examples.town HM_CLOCKWISE 9))).
Proof.
  split.
  - exact (proj1 (proj2 (proj2
             (proj1 classifier_call_sites_are_safe
                SampleQuantizedGradient Examples.picky_sampler
                picky_sampler_agrees 200 100 50 130
                (Examples.town HM_CLOCKWISE 9))))).
  - destruct (proj2 classifier_call_sites_are_safe 3 240 15) as (H1 & _ & _ & H2).
    + left. reflexivity.
    + split; [exact H1 | apply H2].
Defined.

(** ** The grid projector *)

(** C2: a 30000 x 964 image passes the dimension check, and on a 64 x 64
    grid in counter-clockwise orientation the first visited cell (row 31,
    column 0) gets source column 30358, which is not below the image width:
    the second assertion of [ApplyRasterToMap] fails and the pass aborts,
    whatever the pixels and the classifier. In clockwise orientation the
    same column is computed for the cell in column 63. *)
Theorem ApplyRasterToMap_column_out_of_bounds :
  IsValidRasterDimension 30000 964 = true
  /\ forall climate cells calls words drawn files live errors dirty raster proc,
       let s := mkGame HM_COUNTER_CLOCKWISE climate 64 64 cells calls words
                       drawn files live errors dirty in
       let p := mkProjection 64 64 31 0 34 in
       projection_setup 30000 964 s = Some (p, s)
       /\ usub (map_height p) (map_row_pad p) = 33
       /\ source_row p 31 s = Some (0, s)
       /\ source_col HM_COUNTER_CLOCKWISE p 0 s = Some (30358, s)
       /\ source_col HM_CLOCKWISE p 63 s = Some (30358, s)
       /\ ApplyRasterToMap 30000 964 raster proc s = None.
Proof.
  split; [reflexivity |].
  intros climate cells calls words drawn files live errors dirty raster proc s p.
  split; [vm_compute; exact eq_refl |].
  split; [vm_compute; exact eq_refl |].
  split; [vm_compute; exact eq_refl |].
  split; [vm_compute; exact eq_refl |].
  split; [vm_compute; exact eq_refl |].
  vm_compute. exact eq_refl.
Qed.

(** C3, the claim as worded: on a 64 x 64 grid and a 2 x 2 image (no
    padding, columns 0 to 63 visited), for the inner cell in row 1 and
    column 1, the counter-clockwise column is 1, mirrored on the grid width,
    where mirroring on the image width gives 0. *)
Lemma source_col_not_mirrored_on_image_width :
  projection_setup 2 2 (Examples.game HM_COUNTER_CLOCKWISE LT_TEMPERATE 0)
  = Some (mkProjection 64 64 0 0 524288,
          Examples.game HM_COUNTER_CLOCKWISE LT_TEMPERATE 0)
  /\ (0 <=? 1) && (1 <? usub 64 0) = true
  /\ source_col HM_COUNTER_CLOCKWISE (mkProjection 64 64 0 0 524288) 1
       (Examples.game HM_COUNTER_CLOCKWISE LT_TEMPERATE 0)
     = Some (1, Examples.game HM_COUNTER_CLOCKWISE LT_TEMPERATE 0)
  /\ spec_source_col HM_COUNTER_CLOCKWISE 2 (mkProjection 64 64 0 0 524288) 1
       (Examples.game HM_COUNTER_CLOCKWISE LT_TEMPERATE 0)
     = Some (0, Examples.game HM_COUNTER_CLOCKWISE LT_TEMPERATE 0)
  /\ source_col HM_COUNTER_CLOCKWISE (mkProjection 64 64 0 0 524288) 1
       (Examples.game HM_COUNTER_CLOCKWISE LT_TEMPERATE 0)
     <> spec_source_col HM_COUNTER_CLOCKWISE 2 (mkProjection 64 64 0 0 524288) 1
          (Examples.game HM_COUNTER_CLOCKWISE LT_TEMPERATE 0).
Proof.
  split; [vm_compute; exact eq_refl |].
  split; [vm_compute; exact eq_refl |].
  split; [vm_compute; exact eq_refl |].
  split; [vm_compute; exact eq_refl |].
  vm_compute. discriminate.
Qed.

(** C3, amended: for a visited cell (row in [row padding, grid height - row
    padding), column in [column padding, grid width - column padding)) of a
    grid whose extents times the base 16384 fit in a [uint], and a positive
    scale, the source row is [(row - row padding) * 16384 / scale]; the
    source column is [(grid width - 1 - column - column padding) * 16384 /
    scale] in counter-clockwise orientation, mirrored on the width of the
    destination grid, and [(column - column padding) * 16384 / scale] in
    clockwise orientation. No wrap-around occurs. *)
Theorem source_pixel_back_mapping (rotation : HeightmapRotation) (p : Projection)
    (map_row map_col : Z) (s : Game) :
  0 < raster_scale p ->
  map_height p * 16384 < 2 ^ 32 -> map_width p * 16384 < 2 ^ 32 ->
  0 <= map_row_pad p <= map_row -> map_row < map_height p - map_row_pad p ->
  0 <= map_col_pad p <= map_col -> map_col < map_width p - map_col_pad p ->
  source_row p map_row s
  = Some ((map_row - map_row_pad p) * 16384 / raster_scale p, s)
  /\ source_col rotation p map_col s
     = Some (match rotation with
             | HM_COUNTER_CLOCKWISE =>
                 (map_width p - 1 - map_col - map_col_pad p) * 16384 / raster_scale p
             | HM_CLOCKWISE =>
                 (map_col - map_col_pad p) * 16384 / raster_scale p
             end, s).
Proof.
  intros Hscale Hh Hw Hrow Hrow' Hcol Hcol'.
  assert (Hdiv : forall a, udivM a (raster_scale p) s = Some (a / raster_scale p, s)).
  { intros a. unfold udivM.
    replace (raster_scale p =? 0) with false by (symmetry; apply Z.eqb_neq; lia).
    reflexivity. }
  assert (Hsmall : forall z, 0 <= z < 2 ^ 32 -> u32 z = z)
    by (intros z Hz; apply u32_small; exact Hz).
  unfold source_row, source_col, num_div.
  split.
  - rewrite Hdiv. unfold umul, usub.
    rewrite (Hsmall (map_row - map_row_pad p)) by lia.
    rewrite Hsmall by lia. reflexivity.
  - destruct rotation; rewrite Hdiv; unfold umul, usub.
    + rewrite (Hsmall (map_width p - 1)) by lia.
      rewrite (Hsmall (map_width p - 1 - map_col)) by lia.
      rewrite (Hsmall (map_width p - 1 - map_col - map_col_pad p)) by lia.
      rewrite Hsmall by lia. reflexivity.
    + rewrite (Hsmall (map_col - map_col_pad p)) by lia.
      rewrite Hsmall by lia. reflexivity.
Qed.

Lemma source_pixel_back_mapping_witness :
  source_row (mkProjection 64 64 0 0 524288) 1
    (Examples.game HM_COUNTER_CLOCKWISE LT_TEMPERATE 0)
  = Some ((1 - 0) * 16384 / 524288, Examples.game HM_COUNTER_CLOCKWISE LT_TEMPERATE 0)
  /\ source_col HM_COUNTER_CLOCKWISE (mkProjection 64 64 0 0 524288) 1
       (Examples.game HM_COUNTER_CLOCKWISE LT_TEMPERATE 0)
     = Some ((64 - 1 - 1 - 0) * 16384 / 524288,
             Examples.game HM_COUNTER_CLOCKWISE LT_TEMPERATE 0).
Proof.
  apply (source_pixel_back_mapping HM_COUNTER_CLOCKWISE
           (mkProjection 64 64 0 0 524288) 1 1
           (Examples.game HM_COUNTER_CLOCKWISE LT_TEMPERATE 0));
    cbn [raster_scale map_height map_width map_row_pad map_col_pad]; lia.
Defined.

(** * Further properties *)

(** ** The sampler in closed form *)

Lemma quot_abs_le a b : 0 < b -> Z.abs (Z.quot a b) <= Z.abs a.
Proof.
  intros Hb. destruct (Z.le_gt_cases 0 a) as [Ha | Ha].
  - rewrite Z.quot_div_nonneg by lia.
    pose proof (Z.div_pos a b Ha Hb). pose proof (Z.div_le_upper_bound a b a Hb ltac:(nia)).
    lia.
  - replace a with (- (- a)) by lia. rewrite Z.quot_opp_l by lia.
    rewrite Z.quot_div_nonneg by lia.
    pose proof (Z.div_pos (- a) b ltac:(lia) Hb).
    pose proof (Z.div_le_upper_bound (- a) b (- a) Hb ltac:(nia)).
    lia.
Qed.

Lemma jitter_threshold_bounds s d :
  - 2 ^ 30 <= d <= 2 ^ 30 ->
  1 <= jitter_threshold s d <= Z.max 1 (Z.abs (d - 2)).
Proof.
  intros Hd. unfold jitter_threshold.
  set (raw := u32 (entropy s (random_calls s))).
  assert (Hraw : 0 <= raw < 2 ^ 32) by apply u32_range.
  assert (El : u32 (iabs (isub d 2)) = Z.abs (d - 2)).
  { unfold isub, iabs. rewrite (i32_small (d - 2)) by (unfold is_i32; lia).
    rewrite i32_small by (unfold is_i32; lia).
    apply u32_small. unfold is_u32. lia. }
  rewrite El. set (limit := Z.abs (d - 2)).
  assert (Hl : 0 <= limit <= 2 ^ 30 + 2) by (unfold limit; lia).
  clearbody raw.
  rewrite Z.shiftr_div_pow2 by lia.
  assert (Hq : 0 <= raw * limit / 2 ^ 32 <= limit).
  { split; [apply Z.div_pos; nia |].
    apply Z.div_le_upper_bound; nia. }
  assert (Hq' : limit > 0 -> raw * limit / 2 ^ 32 < limit).
  { intros Hp. apply Z.div_lt_upper_bound; nia. }
  unfold uadd. rewrite u32_small by (unfold is_u32; lia).
  destruct (Z.eq_dec limit 0) as [E | E].
  - clearbody limit. lia.
  - specialize (Hq' ltac:(lia)). clearbody limit. lia.
Qed.

(** Away from the ends of [int] the sampler computes [gradient_level] of
    the threshold it draws. *)
Lemma SampleQuantizedGradient_closed_form sample max_level start end_ s :
  gradient_args sample max_level start end_ ->
  start <> end_ ->
  SampleQuantizedGradient sample max_level start end_ s
  = Some (gradient_level sample max_level start end_
            (jitter_threshold s (Z.quot (end_ - start) max_level)),
          next_random s).
Proof.
  intros (Hs & Hst & Hen & Hml & Hd) Hne.
  pose proof (quot_abs_le (end_ - start) max_level ltac:(lia)) as Hq.
  set (d := Z.quot (end_ - start) max_level) in *.
  assert (Ed : idiv (isub end_ start) max_level = d).
  { unfold idiv, isub. rewrite (i32_small (end_ - start)) by (unfold is_i32; lia).
    apply i32_small. unfold is_i32. fold d. lia. }
  unfold SampleQuantizedGradient. rewrite Ed.
  unfold bind at 1.
  replace (0 <? max_level) with true by (symmetry; apply Z.ltb_lt; lia).
  cbn [assert ret]. unfold bind at 1.
  replace (start =? end_) with false by (symmetry; apply Z.eqb_neq; exact Hne).
  cbn [negb assert ret].
  assert (Ea : iabs d = Z.abs d).
  { unfold iabs. apply i32_small. unfold is_i32. lia. }
  rewrite Ea.
  assert (Hlo : (if end_ <? start then (end_, start) else (start, end_))
                = (Z.min start end_, Z.max start end_)).
  { destruct (Z.ltb_spec end_ start); f_equal; lia. }
  rewrite Hlo. cbv beta iota.
  set (lo := Z.min start end_).
  assert (Ex : isub sample lo = sample - lo).
  { unfold isub. apply i32_small. unfold is_i32, lo. lia. }
  rewrite Ex. set (x := Z.max (sample - lo) 0).
  assert (Hx : 0 <= x <= 2 ^ 30) by (unfold x, lo; lia).
  unfold bind at 1. rewrite RandomRange_runs.
  fold (jitter_threshold s d). set (rand := jitter_threshold s d).
  unfold iremM, idivM.
  replace (d =? 0) with false by (symmetry; apply Z.eqb_neq; exact Hd).
  replace (Z.abs d =? 0) with false by (symmetry; apply Z.eqb_neq; lia).
  cbn [bind ret]. unfold bind, ret. f_equal. f_equal.
  unfold gradient_level. fold d. fold lo. fold x.
  assert (Er : u32 (irem x d) = x mod Z.abs d).
  { unfold irem. rewrite <- Z.rem_abs_r by exact Hd.
    rewrite Z.rem_mod_nonneg by lia.
    apply u32_small. unfold is_u32.
    pose proof (Z.mod_pos_bound x (Z.abs d) ltac:(lia)). lia. }
  rewrite Er.
  assert (Eq : idiv x (Z.abs d) = x / Z.abs d).
  { unfold idiv. rewrite Z.quot_div_nonneg by lia.
    apply i32_small. unfold is_i32.
    pose proof (Z.div_pos x (Z.abs d) ltac:(lia) ltac:(lia)).
    pose proof (Z.div_le_upper_bound x (Z.abs d) x ltac:(lia) ltac:(nia)). lia. }
  rewrite Eq.
  set (j := if rand <? x mod Z.abs d then 1 else 0).
  assert (Hj : 0 <= j <= 1) by (unfold j; destruct (rand <? _); lia).
  assert (Hqq : 0 <= x / Z.abs d <= 2 ^ 30).
  { split; [apply Z.div_pos; lia |]. apply Z.div_le_upper_bound; nia. }
  assert (Ey : iadd (x / Z.abs d) j = x / Z.abs d + j).
  { unfold iadd. apply i32_small. unfold is_i32. lia. }
  rewrite Ey.
  rewrite (Z.max_l (x / Z.abs d + j) 0) by lia.
  destruct (d <? 0); [| reflexivity].
  unfold isub. apply i32_small. unfold is_i32. lia.
Qed.

Lemma quot_facts a b :
  0 < b ->
  Z.abs (Z.quot a b) * b <= Z.abs a
  /\ (0 <= a -> 0 <= Z.quot a b) /\ (a <= 0 -> Z.quot a b <= 0).
Proof.
  intros Hb. destruct (Z.le_gt_cases 0 a) as [Ha | Ha].
  - rewrite Z.quot_div_nonneg by lia.
    pose proof (Z.div_pos a b Ha Hb).
    pose proof (Z.mul_div_le a b Hb). repeat split; lia.
  - replace a with (- (- a)) by lia. rewrite Z.quot_opp_l by lia.
    rewrite Z.quot_div_nonneg by lia.
    pose proof (Z.div_pos (- a) b ltac:(lia) Hb).
    pose proof (Z.mul_div_le (- a) b Hb). repeat split; lia.
Qed.

(** X1: the sampler aborts exactly when the level count is not positive, the
    end points coincide, or the step [(end - start) / max_level] truncates
    to zero; when it returns it has drawn one random word and changed
    nothing else. *)
Theorem SampleQuantizedGradient_aborts_iff (sample max_level start end_ : Z) (s : Game) :
  (SampleQuantizedGradient sample max_level start end_ s = None
   <-> max_level <= 0 \/ start = end_ \/ idiv (isub end_ start) max_level = 0)
  /\ (forall y s', SampleQuantizedGradient sample max_level start end_ s = Some (y, s') ->
                   s' = next_random s).
Proof.
  destruct (Z.ltb_spec 0 max_level) as [Hml | Hml].
  - destruct (Z.eq_dec start end_) as [He | He].
    + split.
      * split; [intros _; right; left; exact He |]. intros _.
        unfold SampleQuantizedGradient, bind at 1.
        replace (0 <? max_level) with true by (symmetry; apply Z.ltb_lt; lia).
        cbn [assert ret]. unfold bind at 1.
        replace (start =? end_) with true by (symmetry; apply Z.eqb_eq; exact He).
        reflexivity.
      * intros y s'. unfold SampleQuantizedGradient, bind at 1.
        replace (0 <? max_level) with true by (symmetry; apply Z.ltb_lt; lia).
        cbn [assert ret]. unfold bind at 1.
        replace (start =? end_) with true by (symmetry; apply Z.eqb_eq; exact He).
        discriminate.
    + destruct (Z.eq_dec (idiv (isub end_ start) max_level) 0) as [Hd | Hd].
      * assert (Hnone : SampleQuantizedGradient sample max_level start end_ s = None).
        { unfold SampleQuantizedGradient, bind at 1.
          replace (0 <? max_level) with true by (symmetry; apply Z.ltb_lt; lia).
          cbn [assert ret]. unfold bind at 1.
          replace (start =? end_) with false by (symmetry; apply Z.eqb_neq; exact He).
          cbn [negb assert ret]. rewrite Hd.
          destruct (end_ <? start); unfold bind at 1; rewrite RandomRange_runs;
            reflexivity. }
        split; [split; [intros _; right; right; exact Hd | intros _; exact Hnone] |].
        intros y s' H. rewrite Hnone in H. discriminate.
      * destruct (SampleQuantizedGradient_runs sample max_level start end_ s Hml He Hd)
          as (y & Hrun & _).
        split.
        -- split; [rewrite Hrun; discriminate |].
           intros [H | [H | H]]; [lia | contradiction | contradiction].
        -- intros y' s' H. rewrite Hrun in H. injection H as _ <-. reflexivity.
  - assert (Hnone : SampleQuantizedGradient sample max_level start end_ s = None).
    { unfold SampleQuantizedGradient, bind at 1.
      replace (0 <? max_level) with false by (symmetry; apply Z.ltb_ge; lia).
      reflexivity. }
    split; [split; [intros _; left; exact Hml | intros _; exact Hnone] |].
    intros y s' H. rewrite Hnone in H. discriminate.
Qed.

Lemma sampler_clamps (sample max_level start end_ : Z) (s : Game) :
  gradient_args sample max_level start end_ -> start <> end_ ->
  (sample <= Z.min start end_ ->
   SampleQuantizedGradient sample max_level start end_ s
   = Some (if start <? end_ then 0 else max_level, next_random s))
  /\ (Z.max start end_ <= sample ->
      SampleQuantizedGradient sample max_level start end_ s
      = Some (if start <? end_ then max_level else 0, next_random s)).
Proof.
  intros Hargs Hne.
  rewrite (SampleQuantizedGradient_closed_form _ _ _ _ s Hargs Hne).
  destruct Hargs as (Hs & Hst & Hen & Hml & Hd).
  destruct (quot_facts (end_ - start) max_level ltac:(lia)) as (Hq & Hpos & Hneg).
  pose proof (jitter_threshold_bounds s (Z.quot (end_ - start) max_level)) as Hrand.
  pose proof (quot_abs_le (end_ - start) max_level ltac:(lia)) as Hle.
  specialize (Hrand ltac:(lia)).
  set (rand := jitter_threshold s _) in *. clearbody rand.
  unfold gradient_level.
  set (d := Z.quot (end_ - start) max_level) in *.
  assert (Hsign : (d <? 0) = negb (start <? end_)).
  { destruct (Z.ltb_spec d 0), (Z.ltb_spec start end_); cbn; try reflexivity.
    - specialize (Hpos ltac:(lia)). lia.
    - specialize (Hneg ltac:(lia)). lia. }
  rewrite Hsign. clear Hsign Hpos Hneg.
  assert (Hd' : 0 < Z.abs d) by lia.
  split; intros Hsample; f_equal; f_equal.
  - rewrite Z.max_r by lia. rewrite Z.div_0_l, Z.mod_0_l by lia.
    replace (rand <? 0) with false by (symmetry; apply Z.ltb_ge; lia).
    rewrite Z.min_l by lia.
    destruct (start <? end_); cbn [negb]; lia.
  - set (x := Z.max (sample - Z.min start end_) 0).
    assert (Hx : Z.abs d * max_level <= x) by (unfold x; lia).
    assert (Hqx : max_level <= x / Z.abs d).
    { apply Z.div_le_lower_bound; lia. }
    set (j := if rand <? x mod Z.abs d then 1 else 0).
    assert (Hj : 0 <= j) by (unfold j; destruct (rand <? _); lia).
    rewrite Z.min_r by lia.
    destruct (start <? end_); cbn [negb]; lia.
Qed.

(** X2: a sample at or below the lower end of the gradient gets the level of
    that end, and a sample at or above the upper end gets the level of that
    end, whatever the random word: level 0 at [start] and [max_level] at
    [end], in either direction. *)
Theorem SampleQuantizedGradient_clamps (sample max_level start end_ : Z) (s : Game) :
  gradient_args sample max_level start end_ -> start <> end_ ->
  (sample <= Z.min start end_ ->
   SampleQuantizedGradient sample max_level start end_ s
   = Some (if start <? end_ then 0 else max_level, next_random s))
  /\ (Z.max start end_ <= sample ->
      SampleQuantizedGradient sample max_level start end_ s
      = Some (if start <? end_ then max_level else 0, next_random s)).
Proof. exact (sampler_clamps sample max_level start end_ s). Qed.

Lemma SampleQuantizedGradient_clamps_witness :
  SampleQuantizedGradient 5 3 15 240 (Examples.game HM_CLOCKWISE LT_TEMPERATE 7)
  = Some (0, next_random (Examples.game HM_CLOCKWISE LT_TEMPERATE 7))
  /\ SampleQuantizedGradient 250 3 240 15 (Examples.game HM_CLOCKWISE LT_TEMPERATE 7)
     = Some (0, next_random (Examples.game HM_CLOCKWISE LT_TEMPERATE 7)).
Proof.
  split.
  - refine (proj1 (SampleQuantizedGradient_clamps 5 3 15 240 _ _ _) _).
    + unfold gradient_args. repeat split; try lia. vm_compute. discriminate.
    + lia.
    + lia.
  - refine (proj2 (SampleQuantizedGradient_clamps 250 3 240 15 _ _ _) _).
    + unfold gradient_args. repeat split; try lia. vm_compute. discriminate.
    + lia.
    + lia.
Defined.






(** ** Requests, journal and grid *)

Lemma same_settings_refl s : same_settings s s.
Proof. unfold same_settings. tauto. Qed.

Lemma same_settings_trans s1 s2 s3 :
  same_settings s1 s2 -> same_settings s2 s3 -> same_settings s1 s3.
Proof. unfold same_settings. intuition congruence. Qed.

Lemma evolves_refl Q s : evolves Q s s.
Proof.
  split; [apply same_settings_refl |]. exists []. rewrite app_nil_r.
  repeat split. constructor.
Qed.

Lemma evolves_trans Q s1 s2 s3 :
  evolves Q s1 s2 -> evolves Q s2 s3 -> evolves Q s1 s3.
Proof.
  intros [H1 (c1 & J1 & F1 & T1)] [H2 (c2 & J2 & F2 & T2)].
  split; [eapply same_settings_trans; eassumption |].
  exists (c1 ++ c2). rewrite J2, J1, T2, T1, app_assoc. repeat split.
  - apply Forall_app. split; assumption.
  - unfold replay. rewrite foldl_app. reflexivity.
Qed.

Lemma evolves_weaken (Q Q' : GridCall -> Prop) s s' :
  (forall c, Q c -> Q' c) -> evolves Q s s' -> evolves Q' s s'.
Proof.
  intros Himp [H (calls & J & F & T)]. split; [exact H |].
  exists calls. repeat split; try assumption.
  eapply Forall_impl; eassumption.
Qed.

Lemma evolves_calls_since Q s s' :
  evolves Q s s' ->
  Forall Q (calls_since s s') /\ tiles s' = replay (calls_since s s') (tiles s).
Proof.
  intros [_ (calls & J & F & T)]. unfold calls_since.
  rewrite J, drop_app_length. split; assumption.
Qed.

Lemma replay_elsewhere calls m t :
  Forall (fun c => call_tile c <> t) calls -> replay calls m !! t = m !! t.
Proof.
  revert m. induction calls as [| c calls IH]; intros m Hall; [reflexivity |].
  inversion Hall as [| ? ? Hc Hrest]; subst. cbn [replay foldl].
  change (foldl _ (grid_apply c m) calls) with (replay calls (grid_apply c m)).
  rewrite IH by exact Hrest. unfold grid_apply.
  apply lookup_insert_ne. exact Hc.
Qed.

Lemma steps_ret {A} Q (R : A -> Prop) a : R a -> steps Q R (ret a).
Proof.
  intros Ha s. exists a, s.
  split; [reflexivity |]. split; [exact Ha | apply evolves_refl].
Qed.

Lemma steps_gets {A} Q (R : A -> Prop) (f : Game -> A) :
  (forall s, R (f s)) -> steps Q R (gets f).
Proof.
  intros Hf s. exists (f s), s.
  split; [reflexivity |]. split; [apply Hf | apply evolves_refl].
Qed.

Lemma steps_bind {A B} Q (R : A -> Prop) (R' : B -> Prop) (m : M A) (k : A -> M B) :
  steps Q R m -> (forall a, R a -> steps Q R' (k a)) -> steps Q R' (bind m k).
Proof.
  intros Hm Hk s. destruct (Hm s) as (a & s1 & E1 & Ha & Ev1).
  destruct (Hk a Ha s1) as (b & s2 & E2 & Hb & Ev2).
  exists b, s2. unfold bind. rewrite E1.
  split; [exact E2 |]. split; [exact Hb |].
  eapply evolves_trans; eassumption.
Qed.

Lemma steps_weaken {A} Q (R R' : A -> Prop) (m : M A) :
  (forall a, R a -> R' a) -> steps Q R m -> steps Q R' m.
Proof.
  intros Himp Hm s. destruct (Hm s) as (a & s' & E & Ha & Ev).
  exists a, s'. split; [exact E |]. split; [apply Himp; exact Ha | exact Ev].
Qed.

Lemma steps_Random Q : steps Q (fun _ => True) Random.
Proof.
  intros s. eexists _, _. split; [reflexivity |]. split; [exact I |].
  split; [unfold same_settings; cbn; tauto |]. exists []. cbn.
  rewrite app_nil_r. repeat split. constructor.
Qed.

Lemma steps_grid_call (Q : GridCall -> Prop) c :
  Q c -> steps Q (fun _ => True) (grid_call c).
Proof.
  intros Hc s. eexists _, _. split; [reflexivity |]. split; [exact I |].
  split; [unfold same_settings; cbn; tauto |]. exists [c]. cbn. repeat split.
  constructor; [exact Hc | constructor].
Qed.

Lemma steps_sampler Q sample max_level start end_ :
  0 < max_level < 2 ^ 31 -> start <> end_ ->
  idiv (isub end_ start) max_level <> 0 ->
  steps Q (fun y => 0 <= y <= max_level)
        (SampleQuantizedGradient sample max_level start end_).
Proof.
  intros Hml Hne Hd s.
  destruct (SampleQuantizedGradient_runs sample max_level start end_ s
              ltac:(lia) Hne Hd) as (y & Hrun & Hy).
  exists y, (next_random s). split; [exact Hrun |].
  split; [apply Hy; unfold is_i32; lia |].
  split; [unfold same_settings; cbn; tauto |]. exists []. cbn.
  rewrite app_nil_r. repeat split. constructor.
Qed.

(** ** The classifiers keep to their tile and to valid arguments *)

Ltac ltb_facts :=
  repeat match goal with
  | H : (_ <? _) = true |- _ => apply Z.ltb_lt in H
  | H : (_ <? _) = false |- _ => apply Z.ltb_ge in H
  | H : (_ <=? _) = true |- _ => apply Z.leb_le in H
  | H : (_ <=? _) = false |- _ => apply Z.leb_gt in H
  | H : (_ =? _) = true |- _ => apply Z.eqb_eq in H
  | H : (_ =? _) = false |- _ => apply Z.eqb_neq in H
  end.

Ltac quiet_steps :=
  repeat first
    [ apply steps_ret; exact I
    | apply steps_gets; intros; exact I
    | apply steps_Random
    | apply (steps_bind _ (fun _ => True)); [| intros ? _]
    | match goal with
      | |- steps _ _ (if ?c then _ else _) => destruct c eqn:?
      | |- steps _ _ (match ?x with _ => _ end) => destruct x eqn:?
      end ].

Ltac sample_step level Hlevel :=
  eapply steps_bind;
  [ apply steps_sampler;
    [ split; reflexivity | vm_compute; discriminate | vm_compute; discriminate ]
  | intros level Hlevel; cbv beta in Hlevel ].

Lemma steps_ReplaceGround tile ground density :
  0 <= density <= 3 ->
  steps (valid_call_on tile) (fun _ => True) (ReplaceGround tile ground density).
Proof.
  intros Hd. unfold ReplaceGround, GetTileType, SetClearGroundDensity,
    SetTreeGroundDensity, MakeClear.
  quiet_steps; apply steps_grid_call; (split; [reflexivity | exact Hd]).
Qed.

Lemma steps_ApplyTerrain r g b tile :
  steps (valid_call_on tile) (fun _ => True) (ApplyTerrain r g b tile).
Proof.
  unfold ApplyTerrain, ApplyTerrain_with, GetTileType, when.
  apply (steps_bind _ (fun _ => True)); [quiet_steps |]. intros current _.
  destruct (_ && _); [quiet_steps |].
  apply (steps_bind _ (fun _ => True)).
  { destruct (16 <=? r); [| quiet_steps].
    sample_step level Hlevel. cbv zeta.
    destruct (u32 level <? 3) eqn:Hlt; [| quiet_steps].
    apply steps_ReplaceGround. ltb_facts.
    pose proof (u32_range level) as Hu. unfold is_u32 in Hu. lia. }
  intros _ _. apply (steps_bind _ (fun _ => True)).
  { destruct (16 <=? g); [| quiet_steps].
    sample_step level Hlevel.
    destruct (negb _); [| quiet_steps]. apply steps_ReplaceGround. lia. }
  intros _ _. destruct (16 <=? b); [| quiet_steps].
  sample_step level Hlevel.
  destruct (negb _); [| quiet_steps]. apply steps_ReplaceGround. lia.
Qed.

Lemma steps_ApplyFields r g b tile :
  steps (valid_call_on tile) (fun _ => True) (ApplyFields r g b tile).
Proof.
  unfold ApplyFields, ApplyFields_with, when, MakeField.
  destruct (r <? LOWER_CUTOFF); [quiet_steps |]. cbv zeta.
  sample_step level Hlevel.
  destruct (negb _); [| quiet_steps].
  apply steps_grid_call. split; reflexivity.
Qed.

Lemma steps_ApplyWater r g b tile :
  steps (valid_call_on tile) (fun _ => True) (ApplyWater r g b tile).
Proof.
  unfold ApplyWater, GetTileSlope, GetTileOwner, IsTileFlat, TileHeight, when,
    MakeCanal, MakeRiver, MakeSea.
  destruct (UPPER_CUTOFF <=? r).
  - apply (steps_bind _ (fun _ => True)); [quiet_steps |]. intros slope _.
    destruct (slope =? SLOPE_FLAT).
    + eapply (steps_bind _ (fun o => o = o)); [apply steps_gets; reflexivity |].
      intros owner _. destruct (owner =? OWNER_WATER) eqn:Ho; cbn [negb].
      * apply (steps_bind _ (fun _ => True)); [apply steps_Random |].
        intros word _. apply steps_grid_call. split; [reflexivity |].
        cbn. discriminate.
      * apply (steps_bind _ (fun _ => True)); [apply steps_Random |].
        intros word _. apply steps_grid_call. split; [reflexivity |].
        cbn. ltb_facts. exact Ho.
    + quiet_steps; apply steps_grid_call; (split; [reflexivity | exact I]).
  - quiet_steps; apply steps_grid_call; (split; [reflexivity | exact I]).
Qed.

Lemma TreeTypeLookup_valid b s tree s' :
  TreeTypeLookup b s = Some (tree, s') ->
  s' = s /\ (tree = TREE_INVALID \/ 0 <= tree < TREE_INVALID).
Proof.
  unfold TreeTypeLookup. destruct (b <? 16).
  - intros [= <- <-]. split; [reflexivity | left; reflexivity].
  - unfold bind, gets.
    change TREE_COUNT_TEMPERATE with 12. change TREE_COUNT_SUB_ARCTIC with 8.
    change TREE_COUNT_SUB_TROPICAL with 4. change TREE_COUNT_TOYLAND with 9.
    change TREE_TEMPERATE with 0. change TREE_SUB_ARCTIC with 12.
    change TREE_RAINFOREST with 20. change TREE_TOYLAND with 32.
    change TREE_INVALID with 255.
    set (step := u32 (isub (Z.shiftr b 4) 1)).
    destruct (landscape s); intros [= <- <-]; (split; [reflexivity | right]);
      unfold uadd;
      match goal with |- context [step mod ?n] =>
        pose proof (Z.mod_pos_bound step n ltac:(lia)) end;
      rewrite u32_small by (unfold is_u32; lia); lia.
Qed.

Lemma steps_ApplyTrees r g b tile :
  steps (valid_call_on tile) (fun _ => True) (ApplyTrees r g b tile).
Proof.
  unfold ApplyTrees, ApplyTrees_with, when, PlantTreesOnTile.
  apply (steps_bind _ (fun growth => 0 <= growth <= 6)).
  { destruct (r <? 16); [apply steps_ret; lia |].
    sample_step level Hlevel. apply steps_ret.
    rewrite u32_small by (unfold is_u32; lia). exact Hlevel. }
  intros growth Hgrowth. sample_step level Hlevel. cbv zeta.
  change (iadd 3 1) with 4 in Hlevel.
  assert (Ed : isub level 1 = level - 1)
    by (unfold isub; apply i32_small; unfold is_i32; lia).
  rewrite Ed. destruct (level - 1 <? 0) eqn:Hneg; [quiet_steps |]. ltb_facts.
  apply (steps_bind _ (fun _ => True)).
  { unfold GetRandomTreeType, TreeTypeLookup. quiet_steps. }
  intros tree _. destruct (tree =? TREE_INVALID) eqn:Htree; [quiet_steps |].
  ltb_facts. unfold CanPlantTreesOnTile.
  apply (steps_bind _ (fun _ => True)); [quiet_steps |]. intros ok _.
  destruct ok; [| quiet_steps].
  apply steps_grid_call. split; [reflexivity |]. cbn.
  rewrite u32_small by (unfold is_u32; lia). repeat split; first [exact Htree | lia].
Qed.

Lemma steps_ApplySnow r g b tile :
  steps (valid_call_on tile) (fun _ => True) (ApplySnow r g b tile).
Proof.
  unfold ApplySnow, ApplySnow_with, GetTileType, IsSnowTile, GetTreeGround,
    SetClearGroundDensity, MakeSnow, SetTreeGroundDensity.
  sample_step level Hlevel. cbv zeta.
  change (iadd 3 1) with 4 in Hlevel.
  assert (Ed : isub level 1 = level - 1)
    by (unfold isub; apply i32_small; unfold is_i32; lia).
  rewrite Ed. destruct (level - 1 <? 0) eqn:Hneg; [quiet_steps |]. ltb_facts.
  assert (Hu : 0 <= u32 (level - 1) <= 3)
    by (rewrite u32_small by (unfold is_u32; lia); lia).
  quiet_steps; apply steps_grid_call; (split; [reflexivity | exact Hu]).
Qed.

Lemma desert_density level :
  0 <= level <= 2 -> isub (imul level 2) 1 = 2 * level - 1.
Proof.
  intros H. unfold isub, imul.
  rewrite (i32_small (level * 2)) by (unfold is_i32; lia).
  rewrite i32_small by (unfold is_i32; lia). lia.
Qed.

Lemma steps_ApplyDesert r g b tile :
  steps (valid_call_on tile) (fun _ => True) (ApplyDesert r g b tile).
Proof.
  unfold ApplyDesert, ApplyDesert_with, when, SetTropicZone.
  sample_step level Hlevel. cbv zeta.
  change (iadd 1 1) with 2 in Hlevel.
  rewrite desert_density by exact Hlevel.
  destruct (2 * level - 1 <? 0) eqn:Hneg; [quiet_steps |]. ltb_facts.
  apply (steps_bind _ (fun _ => True)).
  { apply steps_ReplaceGround. rewrite u32_small by (unfold is_u32; lia). lia. }
  intros _ _. destruct (UPPER_CUTOFF <? g); [| quiet_steps].
  apply steps_grid_call. split; [reflexivity | exact I].
Qed.

Lemma steps_ApplyTropics r g b tile :
  steps (valid_call_on tile) (fun _ => True) (ApplyTropics r g b tile).
Proof.
  unfold ApplyTropics, SetTropicZone.
  quiet_steps; apply steps_grid_call; (split; [reflexivity | exact I]).
Qed.

Lemma steps_theme_classifier rdt proc r g b tile :
  theme_classifier rdt = Some proc ->
  steps (valid_call_on tile) (fun _ => True) (proc r g b tile).
Proof.
  destruct rdt; cbn [theme_classifier]; intros H.
  all: try discriminate H.
  all: injection H as <-.
  exact (steps_ApplyTerrain r g b tile).
  exact (steps_ApplyFields r g b tile).
  exact (steps_ApplyWater r g b tile).
  exact (steps_ApplyTrees r g b tile).
  exact (steps_ApplySnow r g b tile).
  exact (steps_ApplyDesert r g b tile).
  exact (steps_ApplyTropics r g b tile).
Qed.

(** ** The projection pass *)

Lemma udivM_inv a b s v s' :
  udivM a b s = Some (v, s') -> s' = s /\ b <> 0 /\ v = a / b.
Proof.
  unfold udivM. destruct (Z.eqb_spec b 0); [discriminate |].
  intros [= <- <-]. repeat split. assumption.
Qed.

Lemma source_row_inv p row s v s' :
  source_row p row s = Some (v, s') -> s' = s.
Proof. unfold source_row. intros H. apply udivM_inv in H. tauto. Qed.

Lemma source_col_inv rotation p col s v s' :
  source_col rotation p col s = Some (v, s') -> s' = s.
Proof.
  unfold source_col. destruct rotation; intros H; apply udivM_inv in H; tauto.
Qed.

Lemma read_byte_inv raster i s v s' :
  read_byte raster i s = Some (v, s') -> s' = s /\ raster !! Z.to_nat i = Some v.
Proof.
  unfold read_byte. destruct (raster !! Z.to_nat i) as [w |]; [| discriminate].
  intros [= <- <-]. split; reflexivity.
Qed.

Lemma IsInnerTile_inv tile s v s' :
  IsInnerTile tile s = Some (v, s') ->
  s' = s /\ MapSizeX s <> 0 /\ v = is_inner s tile.
Proof.
  unfold IsInnerTile, bind, gets. destruct (Z.eqb_spec (MapSizeX s) 0); [discriminate |].
  intros [= <- <-]. repeat split. assumption.
Qed.

Lemma TileXY_projected s map_row map_col :
  match heightmap_rotation s with
  | HM_COUNTER_CLOCKWISE => TileXY map_col map_row
  | HM_CLOCKWISE => TileXY map_row map_col
  end s = Some (projected_tile s map_row map_col, s).
Proof. unfold projected_tile, TileXY. destruct (heightmap_rotation s); reflexivity. Qed.

(** What one cell of a pass that returns has done. *)
Lemma project_cell_inv rw rh raster proc p row col s s' :
  project_cell rw rh raster proc p row col s = Some (tt, s') ->
  exists rr rc r g b,
    source_row p row s = Some (rr, s)
    /\ source_col (heightmap_rotation s) p col s = Some (rc, s)
    /\ rr < rh /\ rc < rw
    /\ raster !! Z.to_nat (umul (uadd (umul rr rw) rc) 3) = Some r
    /\ raster !! Z.to_nat (uadd (umul (uadd (umul rr rw) rc) 3) 1) = Some g
    /\ raster !! Z.to_nat (uadd (umul (uadd (umul rr rw) rc) 3) 2) = Some b
    /\ MapSizeX s <> 0
    /\ (if is_inner s (projected_tile s row col)
        then proc r g b (projected_tile s row col) s = Some (tt, s')
        else s' = s).
Proof.
  unfold project_cell. unfold bind at 1, gets. unfold bind at 1.
  rewrite TileXY_projected. unfold bind at 1.
  destruct (source_row p row s) as [[rr s1] |] eqn:Er; [| discriminate].
  pose proof (source_row_inv _ _ _ _ _ Er) as ->.
  unfold bind at 1.
  destruct (source_col (heightmap_rotation s) p col s) as [[rc s1] |] eqn:Ec;
    [| discriminate].
  pose proof (source_col_inv _ _ _ _ _ _ Ec) as ->.
  unfold bind at 1, assert.
  destruct (Z.ltb_spec rr rh) as [Hr | Hr]; [| discriminate]. cbn [ret].
  unfold bind at 1.
  destruct (Z.ltb_spec rc rw) as [Hc | Hc]; [| discriminate]. cbn [ret].
  cbv zeta. unfold bind at 1.
  match goal with |- match read_byte raster ?i s with _ => _ end = _ -> _ =>
    destruct (read_byte raster i s) as [[r s1] |] eqn:E1; [| discriminate] end.
  destruct (read_byte_inv _ _ _ _ _ E1) as [-> L1].
  unfold bind at 1.
  match goal with |- match read_byte raster ?i s with _ => _ end = _ -> _ =>
    destruct (read_byte raster i s) as [[g s1] |] eqn:E2; [| discriminate] end.
  destruct (read_byte_inv _ _ _ _ _ E2) as [-> L2].
  unfold bind at 1.
  match goal with |- match read_byte raster ?i s with _ => _ end = _ -> _ =>
    destruct (read_byte raster i s) as [[b s1] |] eqn:E3; [| discriminate] end.
  destruct (read_byte_inv _ _ _ _ _ E3) as [-> L3].
  unfold bind at 1.
  match goal with |- match IsInnerTile ?t s with _ => _ end = _ -> _ =>
    destruct (IsInnerTile t s) as [[inner s1] |] eqn:Ei; [| discriminate] end.
  destruct (IsInnerTile_inv _ _ _ _ Ei) as (-> & Hsx & ->).
  intros Hrun. exists rr, rc, r, g, b.
  repeat (split; [assumption || reflexivity |]).
  unfold when in Hrun. destruct (is_inner s _); [exact Hrun |].
  injection Hrun as <-. reflexivity.
Qed.

Lemma for_count_invariant (Inv : Game -> Prop) (body : Z -> M unit) :
  (forall i s s', Inv s -> body i s = Some (tt, s') -> Inv s') ->
  forall n i s s', Inv s -> for_count n i body s = Some (tt, s') -> Inv s'.
Proof.
  intros Hbody n. induction n as [| n IH]; intros i s s' Hs; cbn [for_count].
  - intros [= <-]. exact Hs.
  - unfold bind. destruct (body i s) as [[[] s1] |] eqn:E; [| discriminate].
    apply IH. eapply Hbody; eassumption.
Qed.

Lemma projection_setup_inv rw rh s p s' :
  projection_setup rw rh s = Some (p, s') -> s' = s.
Proof.
  unfold projection_setup, bind, gets.
  destruct (heightmap_rotation s);
    repeat match goal with
    | |- context [udivM ?a ?b s] =>
        let E := fresh "E" in
        destruct (udivM a b s) as [[? ?] |] eqn:E; [| discriminate];
        apply udivM_inv in E; destruct E as (-> & _ & _)
    | |- context [if ?c then _ else _] => destruct c
    end; intros [= <- <-]; reflexivity.
Qed.

Lemma is_inner_same_settings s s' t :
  same_settings s s' -> is_inner s' t = is_inner s t.
Proof.
  intros (_ & _ & Hx & Hy & _). unfold is_inner. rewrite Hx, Hy. reflexivity.
Qed.

(** A pass that returns has only done what its classifier does on inner
    cells, with pixels of the buffer. *)
Lemma ApplyRasterToMap_evolves (Q : GridCall -> Prop) rw rh raster proc s s' :
  (forall r g b t s1 s2,
      same_settings s s1 -> r ∈ raster -> g ∈ raster -> b ∈ raster ->
      is_inner s t = true ->
      proc r g b t s1 = Some (tt, s2) -> evolves Q s1 s2) ->
  ApplyRasterToMap rw rh raster proc s = Some (tt, s') ->
  evolves Q s s'.
Proof.
  intros Hproc. unfold ApplyRasterToMap, bind at 1.
  destruct (projection_setup rw rh s) as [[p s0] |] eqn:Ep; [| discriminate].
  pose proof (projection_setup_inv _ _ _ _ _ Ep) as ->.
  unfold for_uint. apply for_count_invariant; [| apply evolves_refl].
  intros row s1 s2 H1. apply for_count_invariant; [| exact H1].
  clear s1 s2 H1. intros col s1 s2 H1 Hcell.
  destruct (project_cell_inv _ _ _ _ _ _ _ _ _ Hcell)
    as (rr & rc & r & g & b & _ & _ & _ & _ & L1 & L2 & L3 & _ & Hdone).
  destruct H1 as [Hset H1'].
  rewrite (is_inner_same_settings s s1) in Hdone by exact Hset.
  destruct (is_inner s (projected_tile s1 row col)) eqn:Hin.
  - eapply evolves_trans; [split; [exact Hset | exact H1'] |].
    eapply Hproc; try eassumption;
      eapply list_elem_of_lookup_2; eassumption.
  - subst s2. split; assumption.
Qed.

(** ** Images and grids with sides of at most 16384 *)

Lemma div_bounds a b : 0 < b -> b * (a / b) <= a < b * (a / b) + b.
Proof.
  intros Hb. pose proof (Z.div_mod a b ltac:(lia)).
  pose proof (Z.mod_pos_bound a b Hb). lia.
Qed.

Lemma half_bounds a : 0 <= a -> 2 * (a / 2) <= a <= 2 * (a / 2) + 1.
Proof. intros _. pose proof (div_bounds a 2 ltac:(lia)). lia. Qed.

(** The values of [projection_setup] for an image and a grid with sides of
    at most 16384: nothing wraps, the scale is positive, and the visited
    rows and columns scale back to less than the image. *)
Lemma projection_setup_small rw rh s :
  1 <= rw <= 16384 -> 1 <= rh <= 16384 ->
  1 <= MapSizeX s <= 16384 -> 1 <= MapSizeY s <= 16384 ->
  exists p,
    projection_setup rw rh s = Some (p, s)
    /\ 0 < raster_scale p
    /\ 1 <= map_width p <= 16384 /\ 1 <= map_height p <= 16384
    /\ 0 <= map_row_pad p <= map_height p /\ 0 <= map_col_pad p <= map_width p
    /\ (forall row, map_row_pad p <= row < map_height p - map_row_pad p ->
                    (row - map_row_pad p) * 16384 < raster_scale p * rh)
    /\ (forall col, map_col_pad p <= col < map_width p - map_col_pad p ->
                    (col - map_col_pad p) * 16384 < raster_scale p * rw
                    /\ (map_width p - 1 - col - map_col_pad p) * 16384
                       < raster_scale p * rw).
Proof.
  intros Hrw Hrh Hsx Hsy.
  unfold projection_setup, bind at 1, gets. unfold bind at 1. unfold bind at 1.
  set (mw := match heightmap_rotation s with
             | HM_COUNTER_CLOCKWISE => MapSizeX s | HM_CLOCKWISE => MapSizeY s end).
  set (mh := match heightmap_rotation s with
             | HM_COUNTER_CLOCKWISE => MapSizeY s | HM_CLOCKWISE => MapSizeX s end).
  assert (Hmw : 1 <= mw <= 16384) by (unfold mw; destruct (heightmap_rotation s); lia).
  assert (Hmh : 1 <= mh <= 16384) by (unfold mh; destruct (heightmap_rotation s); lia).
  replace (match heightmap_rotation s with
           | HM_COUNTER_CLOCKWISE => (MapSizeX s, MapSizeY s)
           | HM_CLOCKWISE => (MapSizeY s, MapSizeX s) end) with (mw, mh)
    by (unfold mw, mh; destruct (heightmap_rotation s); reflexivity).
  clearbody mw mh. cbv beta iota. unfold num_div.
  assert (Hu : forall z, 0 <= z < 2 ^ 32 -> u32 z = z)
    by (intros z Hz; apply u32_small; exact Hz).
  assert (Hdiv : forall a b, b <> 0 -> udivM a b s = Some (a / b, s)).
  { intros a b Hb. unfold udivM.
    destruct (Z.eqb_spec b 0); [contradiction | reflexivity]. }
  unfold umul, udiv.
  rewrite (Hu (rw * 16384)), (Hu (mw * 16384)), (Hu (mh * 16384)) by lia.
  unfold bind at 1. rewrite Hdiv by lia.
  unfold bind at 1. rewrite Hdiv by lia.
  pose proof (div_bounds (rw * 16384) rh ltac:(lia)) as HA.
  pose proof (div_bounds (mw * 16384) mh ltac:(lia)) as HB.
  set (A := rw * 16384 / rh) in *. set (B := mw * 16384 / mh) in *.
  destruct (Z.ltb_spec B A) as [Hwide | Htall].
  - (* the image is wider than the grid *)
    unfold bind at 1. rewrite Hdiv by lia.
    pose proof (div_bounds (mw * 16384) rw ltac:(lia)) as Hsc.
    set (scale := mw * 16384 / rw) in *.
    clearbody A B scale.
    assert (Hscale : 1 <= scale <= 2 ^ 28) by nia.
    assert (Haspect : mw * rh < rw * mh).
    { assert (H1 : mw * 16384 < mh * A) by nia.
      assert (H2 : mh * (rh * A) <= mh * (rw * 16384))
        by (apply Z.mul_le_mono_nonneg_l; lia).
      assert (H3 : mw * 16384 * rh < mh * A * rh)
        by (apply Z.mul_lt_mono_pos_r; lia).
      lia. }
    assert (Hprod : rh * scale < mh * 16384).
    { assert (H1 : rh * (rw * scale) <= rh * (mw * 16384))
        by (apply Z.mul_le_mono_nonneg_l; lia).
      apply (Z.mul_lt_mono_pos_l rw); lia. }
    rewrite (Hu (rh * scale)) by (split; [apply Z.mul_nonneg_nonneg |]; lia).
    pose proof (div_bounds (rh * scale) 16384 ltac:(lia)) as HS.
    set (S := rh * scale / 16384) in *. clearbody S.
    assert (HS' : 0 <= S < mh) by nia.
    unfold usub, uadd. rewrite (Hu (1 + mh)) by lia.
    rewrite (Hu (1 + mh - S)) by lia.
    pose proof (half_bounds (1 + mh - S) ltac:(lia)) as Hpad.
    set (pad := (1 + mh - S) / 2) in *. clearbody pad.
    eexists. split; [reflexivity |]. cbn [raster_scale map_width map_height
      map_row_pad map_col_pad].
    split; [lia |]. split; [lia |]. split; [lia |]. split; [lia |].
    split; [lia |]. split; [intros row Hrow; lia |].
    intros col Hcol. split; lia.
  - (* the image is taller than the grid, or of the same aspect *)
    unfold bind at 1. rewrite Hdiv by lia.
    pose proof (div_bounds (mh * 16384) rh ltac:(lia)) as Hsc.
    set (scale := mh * 16384 / rh) in *.
    clearbody A B scale.
    assert (Hscale : 1 <= scale <= 2 ^ 28) by nia.
    assert (Haspect : rw * 16384 * mh < mw * 16384 * rh + rh * mh).
    { assert (H1 : rw * 16384 < rh * B + rh) by nia.
      assert (H2 : rh * (mh * B) <= rh * (mw * 16384))
        by (apply Z.mul_le_mono_nonneg_l; lia).
      assert (H3 : rw * 16384 * mh < (rh * B + rh) * mh)
        by (apply Z.mul_lt_mono_pos_r; lia).
      lia. }
    assert (Hprod : rw * scale < mw * 16384 + mh).
    { assert (H1 : rw * (rh * scale) <= rw * (mh * 16384))
        by (apply Z.mul_le_mono_nonneg_l; lia).
      apply (Z.mul_lt_mono_pos_l rh); lia. }
    rewrite (Hu (rw * scale)) by (split; [apply Z.mul_nonneg_nonneg |]; lia).
    pose proof (div_bounds (rw * scale) 16384 ltac:(lia)) as HS.
    set (S := rw * scale / 16384) in *. clearbody S.
    assert (HS' : 0 <= S <= mw) by nia.
    unfold usub, uadd. rewrite (Hu (1 + mw)) by lia.
    rewrite (Hu (1 + mw - S)) by lia.
    pose proof (half_bounds (1 + mw - S) ltac:(lia)) as Hpad.
    set (pad := (1 + mw - S) / 2) in *. clearbody pad.
    eexists. split; [reflexivity |]. cbn [raster_scale map_width map_height
      map_row_pad map_col_pad].
    split; [lia |]. split; [lia |]. split; [lia |]. split; [lia |].
    split; [lia |]. split; [intros row Hrow; lia |].
    intros col Hcol. split; lia.
Qed.

Lemma source_pixel_exact rotation p row col s :
  0 < raster_scale p ->
  1 <= map_width p <= 16384 -> 1 <= map_height p <= 16384 ->
  0 <= map_row_pad p <= row -> row < map_height p - map_row_pad p ->
  0 <= map_col_pad p <= col -> col < map_width p - map_col_pad p ->
  source_row p row s = Some ((row - map_row_pad p) * 16384 / raster_scale p, s)
  /\ source_col rotation p col s
     = Some (match rotation with
             | HM_COUNTER_CLOCKWISE =>
                 (map_width p - 1 - col - map_col_pad p) * 16384 / raster_scale p
             | HM_CLOCKWISE => (col - map_col_pad p) * 16384 / raster_scale p
             end, s).
Proof.
  intros Hscale Hw Hh Hrow Hrow' Hcol Hcol'.
  assert (Hdiv : forall a, udivM a (raster_scale p) s = Some (a / raster_scale p, s)).
  { intros a. unfold udivM.
    destruct (Z.eqb_spec (raster_scale p) 0); [lia | reflexivity]. }
  assert (Hu : forall z, 0 <= z < 2 ^ 32 -> u32 z = z)
    by (intros z Hz; apply u32_small; exact Hz).
  unfold source_row, source_col, num_div. split.
  - rewrite Hdiv. unfold umul, usub.
    rewrite (Hu (row - map_row_pad p)) by lia. rewrite Hu by lia. reflexivity.
  - destruct rotation; rewrite Hdiv; unfold umul, usub.
    + rewrite (Hu (map_width p - 1)) by lia.
      rewrite (Hu (map_width p - 1 - col)) by lia.
      rewrite (Hu (map_width p - 1 - col - map_col_pad p)) by lia.
      rewrite Hu by lia. reflexivity.
    + rewrite (Hu (col - map_col_pad p)) by lia.
      rewrite Hu by lia. reflexivity.
Qed.

Lemma small_cell_in_bounds rw rh s p row col :
  0 < raster_scale p ->
  1 <= map_width p <= 16384 -> 1 <= map_height p <= 16384 ->
  0 <= map_row_pad p <= map_height p -> 0 <= map_col_pad p <= map_width p ->
  (forall row, map_row_pad p <= row < map_height p - map_row_pad p ->
               (row - map_row_pad p) * 16384 < raster_scale p * rh) ->
  (forall col, map_col_pad p <= col < map_width p - map_col_pad p ->
               (col - map_col_pad p) * 16384 < raster_scale p * rw
               /\ (map_width p - 1 - col - map_col_pad p) * 16384
                  < raster_scale p * rw) ->
  map_row_pad p <= row < usub (map_height p) (map_row_pad p) ->
  map_col_pad p <= col < usub (map_width p) (map_col_pad p) ->
  exists rr rc,
    source_row p row s = Some (rr, s)
    /\ source_col (heightmap_rotation s) p col s = Some (rc, s)
    /\ 0 <= rr < rh /\ 0 <= rc < rw.
Proof.
  intros Hscale Hw Hh Hpr Hpc Hrows Hcols Hrow Hcol.
  unfold usub in Hrow, Hcol.
  rewrite u32_small in Hrow by (unfold is_u32; lia).
  rewrite u32_small in Hcol by (unfold is_u32; lia).
  destruct (source_pixel_exact (heightmap_rotation s) p row col s)
    as [Er Ec]; try lia.
  specialize (Hrows row Hrow). destruct (Hcols col Hcol) as [Hc1 Hc2].
  eexists _, _. split; [exact Er |]. split; [exact Ec |]. split.
  - split; [apply Z.div_pos; lia | apply Z.div_lt_upper_bound; lia].
  - destruct (heightmap_rotation s);
      (split; [apply Z.div_pos; lia | apply Z.div_lt_upper_bound; lia]).
Qed.

(** X5: for an image and a grid with sides of at most 16384, every cell the
    projector visits gets a source row below the image height and a source
    column below the image width: the two assertions hold. *)
Theorem small_images_stay_in_bounds (rw rh : Z) (s : Game) :
  1 <= rw <= 16384 -> 1 <= rh <= 16384 ->
  1 <= MapSizeX s <= 16384 -> 1 <= MapSizeY s <= 16384 ->
  exists p,
    projection_setup rw rh s = Some (p, s)
    /\ forall row col,
         map_row_pad p <= row < usub (map_height p) (map_row_pad p) ->
         map_col_pad p <= col < usub (map_width p) (map_col_pad p) ->
         exists rr rc,
           source_row p row s = Some (rr, s)
           /\ source_col (heightmap_rotation s) p col s = Some (rc, s)
           /\ 0 <= rr < rh /\ 0 <= rc < rw.
Proof.
  intros Hrw Hrh Hsx Hsy.
  destruct (projection_setup_small rw rh s Hrw Hrh Hsx Hsy)
    as (p & Ep & Hscale & Hw & Hh & Hpr & Hpc & Hrows & Hcols).
  exists p. split; [exact Ep |]. intros row col Hrow Hcol.
  eapply small_cell_in_bounds; eassumption.
Qed.

Lemma small_images_stay_in_bounds_witness :
  exists p,
    projection_setup 2 3 (Examples.game HM_COUNTER_CLOCKWISE LT_TEMPERATE 0)
    = Some (p, Examples.game HM_COUNTER_CLOCKWISE LT_TEMPERATE 0)
    /\ forall row col,
         map_row_pad p <= row < usub (map_height p) (map_row_pad p) ->
         map_col_pad p <= col < usub (map_width p) (map_col_pad p) ->
         exists rr rc,
           source_row p row (Examples.game HM_COUNTER_CLOCKWISE LT_TEMPERATE 0)
           = Some (rr, Examples.game HM_COUNTER_CLOCKWISE LT_TEMPERATE 0)
           /\ source_col HM_COUNTER_CLOCKWISE p col
                (Examples.game HM_COUNTER_CLOCKWISE LT_TEMPERATE 0)
              = Some (rc, Examples.game HM_COUNTER_CLOCKWISE LT_TEMPERATE 0)
           /\ 0 <= rr < 3 /\ 0 <= rc < 2.
Proof.
  refine (small_images_stay_in_bounds 2 3
            (Examples.game HM_COUNTER_CLOCKWISE LT_TEMPERATE 0) _ _ _ _).
  - lia.
  - lia.
  - cbn. lia.
  - cbn. lia.
Defined.

Lemma for_count_total (Inv : Game -> Prop) (body : Z -> M unit) n :
  forall lo,
    (forall i s, lo <= i < lo + Z.of_nat n -> Inv s ->
                 exists s', body i s = Some (tt, s') /\ Inv s') ->
    forall s, Inv s -> exists s', for_count n lo body s = Some (tt, s') /\ Inv s'.
Proof.
  induction n as [| n IH]; intros lo Hbody s Hs; cbn [for_count].
  - exists s. split; [reflexivity | exact Hs].
  - destruct (Hbody lo s ltac:(lia) Hs) as (s1 & E1 & H1).
    unfold bind. rewrite E1. apply IH; [| exact H1].
    intros i s2 Hi. apply Hbody. lia.
Qed.

Lemma project_cell_run rw rh raster proc p row col s rr rc r g b :
  source_row p row s = Some (rr, s) ->
  source_col (heightmap_rotation s) p col s = Some (rc, s) ->
  rr < rh -> rc < rw ->
  raster !! Z.to_nat (umul (uadd (umul rr rw) rc) 3) = Some r ->
  raster !! Z.to_nat (uadd (umul (uadd (umul rr rw) rc) 3) 1) = Some g ->
  raster !! Z.to_nat (uadd (umul (uadd (umul rr rw) rc) 3) 2) = Some b ->
  MapSizeX s <> 0 ->
  project_cell rw rh raster proc p row col s
  = if is_inner s (projected_tile s row col)
    then proc r g b (projected_tile s row col) s else Some (tt, s).
Proof.
  intros Er Ec Hr Hc L1 L2 L3 Hsx.
  unfold project_cell. unfold bind at 1, gets. unfold bind at 1.
  rewrite TileXY_projected. unfold bind at 1. rewrite Er.
  unfold bind at 1. rewrite Ec. unfold bind at 1, assert.
  replace (rr <? rh) with true by (symmetry; apply Z.ltb_lt; exact Hr).
  cbn [ret]. unfold bind at 1.
  replace (rc <? rw) with true by (symmetry; apply Z.ltb_lt; exact Hc).
  cbn [ret]. cbv zeta. unfold read_byte. rewrite L1, L2, L3.
  unfold bind at 1. cbn [ret]. unfold bind at 1. cbn [ret].
  unfold bind at 1. cbn [ret]. unfold bind at 1.
  unfold IsInnerTile, bind at 1, gets. unfold bind at 1.
  destruct (Z.eqb_spec (MapSizeX s) 0); [contradiction |].
  cbn [ret]. fold (is_inner s (projected_tile s row col)).
  unfold when. destruct (is_inner s _); reflexivity.
Qed.

Lemma pixel_lookup (raster : list Z) rw rh rr rc k :
  1 <= rw <= 16384 -> 1 <= rh <= 16384 ->
  Z.of_nat (length raster) = rw * rh * 3 ->
  0 <= rr < rh -> 0 <= rc < rw -> 0 <= k < 3 ->
  exists v, raster !! Z.to_nat (uadd (umul (uadd (umul rr rw) rc) 3) k) = Some v.
Proof.
  intros Hrw Hrh Hlen Hr Hc Hk.
  assert (Hu : forall z, 0 <= z < 2 ^ 32 -> u32 z = z)
    by (intros z Hz; apply u32_small; exact Hz).
  assert (Hidx : 0 <= rr * rw + rc < rw * rh) by nia.
  assert (Hmax : rw * rh <= 16384 * 16384) by nia.
  unfold uadd, umul. rewrite (Hu (rr * rw)) by nia.
  rewrite (Hu (rr * rw + rc)) by lia.
  rewrite (Hu ((rr * rw + rc) * 3)) by lia. rewrite Hu by lia.
  apply lookup_lt_is_Some. lia.
Qed.

Lemma pixel_lookups (raster : list Z) rw rh rr rc :
  1 <= rw <= 16384 -> 1 <= rh <= 16384 ->
  Z.of_nat (length raster) = rw * rh * 3 ->
  0 <= rr < rh -> 0 <= rc < rw ->
  exists r g b,
    raster !! Z.to_nat (umul (uadd (umul rr rw) rc) 3) = Some r
    /\ raster !! Z.to_nat (uadd (umul (uadd (umul rr rw) rc) 3) 1) = Some g
    /\ raster !! Z.to_nat (uadd (umul (uadd (umul rr rw) rc) 3) 2) = Some b.
Proof.
  intros Hrw Hrh Hlen Hr Hc.
  destruct (pixel_lookup raster rw rh rr rc 0 Hrw Hrh Hlen Hr Hc ltac:(lia)) as [r L0].
  destruct (pixel_lookup raster rw rh rr rc 1 Hrw Hrh Hlen Hr Hc ltac:(lia)) as [g L1].
  destruct (pixel_lookup raster rw rh rr rc 2 Hrw Hrh Hlen Hr Hc ltac:(lia)) as [b L2].
  exists r, g, b. split; [| split; assumption].
  unfold uadd in L0 at 1. rewrite Z.add_0_r in L0.
  rewrite u32_small in L0; [exact L0 |]. unfold umul. apply u32_range.
Qed.

Lemma evolves_on_inner s s1 s2 tile :
  same_settings s s1 -> is_inner s tile = true ->
  evolves (valid_call_on tile) s1 s2 -> evolves (inner_valid_call s) s1 s2.
Proof.
  intros _ Hin. apply evolves_weaken. intros c [<- Hv]. split; assumption.
Qed.

(** A pass over an image and a grid with sides of at most 16384, with a
    buffer of three bytes per pixel and a classifier that returns, returns;
    it has mutated inner cells only. *)
Lemma ApplyRasterToMap_small_runs rw rh raster proc s :
  1 <= rw <= 16384 -> 1 <= rh <= 16384 ->
  1 <= MapSizeX s <= 16384 -> 1 <= MapSizeY s <= 16384 ->
  Z.of_nat (length raster) = rw * rh * 3 ->
  (forall r g b t, steps (valid_call_on t) (fun _ => True) (proc r g b t)) ->
  exists s',
    ApplyRasterToMap rw rh raster proc s = Some (tt, s')
    /\ evolves (inner_valid_call s) s s'.
Proof.
  intros Hrw Hrh Hsx Hsy Hlen Hproc.
  destruct (projection_setup_small rw rh s Hrw Hrh Hsx Hsy)
    as (p & Ep & Hscale & Hw & Hh & Hpr & Hpc & Hrows & Hcols).
  unfold ApplyRasterToMap, bind at 1. rewrite Ep. unfold for_uint.
  apply (for_count_total (fun s1 => evolves (inner_valid_call s) s s1));
    [| apply evolves_refl].
  intros row s1 Hrow H1.
  apply (for_count_total (fun s2 => evolves (inner_valid_call s) s s2));
    [| exact H1].
  clear s1 H1. intros col s1 Hcol H1.
  pose proof H1 as [Hset _].
  destruct (small_cell_in_bounds rw rh s1 p row col Hscale Hw Hh Hpr Hpc Hrows Hcols)
    as (rr & rc & Er & Ec & Hr & Hc); [lia | lia |].
  destruct (pixel_lookups raster rw rh rr rc Hrw Hrh Hlen Hr Hc)
    as (r & g & b & L1 & L2 & L3).
  assert (Hsx1 : MapSizeX s1 <> 0)
    by (destruct Hset as (_ & _ & E & _); rewrite E; lia).
  rewrite (project_cell_run rw rh raster proc p row col s1 rr rc r g b)
    by (assumption || lia).
  rewrite (is_inner_same_settings s s1) by exact Hset.
  destruct (is_inner s (projected_tile s1 row col)) eqn:Hin.
  - destruct (Hproc r g b (projected_tile s1 row col) s1) as ([] & s2 & E2 & _ & Ev).
    exists s2. split; [exact E2 |].
    eapply evolves_trans; [exact H1 |].
    eapply evolves_on_inner; eassumption.
  - exists s1. split; [reflexivity | exact H1].
Qed.



(** X6: for an image and a grid with sides of at most 16384 and a buffer of
    three bytes per pixel, the projection pass returns for every theme that
    has a classifier: no assertion fails, no read leaves the buffer, no
    division is by zero. *)
Theorem ApplyRasterToMap_small_image_returns (rw rh : Z) (raster : list Z)
    (rdt : RasterDataType) (proc : TileRasterCallback) (s : Game) :
  1 <= rw <= 16384 -> 1 <= rh <= 16384 ->
  1 <= MapSizeX s <= 16384 -> 1 <= MapSizeY s <= 16384 ->
  Z.of_nat (length raster) = rw * rh * 3 ->
  theme_classifier rdt = Some proc ->
  exists s', ApplyRasterToMap rw rh raster proc s = Some (tt, s').
Proof.
  intros Hrw Hrh Hsx Hsy Hlen Htheme.
  destruct (ApplyRasterToMap_small_runs rw rh raster proc s Hrw Hrh Hsx Hsy Hlen)
    as (s' & Hrun & _).
  - intros r g b t. eapply steps_theme_classifier. exact Htheme.
  - exists s'. exact Hrun.
Qed.

Lemma ApplyRasterToMap_small_image_returns_witness :
  exists s',
    ApplyRasterToMap 2 2 (replicate 12 250) ApplyWater
      (Examples.game HM_CLOCKWISE LT_TEMPERATE 5) = Some (tt, s').
Proof.
  refine (ApplyRasterToMap_small_image_returns 2 2 (replicate 12 250) RDT_WATER
            ApplyWater (Examples.game HM_CLOCKWISE LT_TEMPERATE 5) _ _ _ _ _ _).
  - lia.
  - lia.
  - cbn. lia.
  - cbn. lia.
  - reflexivity.
  - reflexivity.
Defined.



(** ** Dark pixels *)

Lemma steps_sampler_dark Q sample max_level :
  0 <= sample <= 15 -> 0 < max_level <= 225 ->
  steps Q (fun y => y = 0)
        (SampleQuantizedGradient sample max_level LOWER_CUTOFF UPPER_CUTOFF).
Proof.
  intros Hs Hml s.
  assert (Hargs : gradient_args sample max_level LOWER_CUTOFF UPPER_CUTOFF).
  { unfold gradient_args. change LOWER_CUTOFF with 15. change UPPER_CUTOFF with 240.
    repeat split; try lia.
    change (240 - 15) with 225. rewrite Z.quot_div_nonneg by lia.
    pose proof (Z.div_le_lower_bound 225 max_level 1 ltac:(lia) ltac:(lia)). lia. }
  destruct (sampler_clamps sample max_level LOWER_CUTOFF UPPER_CUTOFF s Hargs
              ltac:(discriminate)) as [Hlow _].
  exists 0, (next_random s). split.
  - apply Hlow. change LOWER_CUTOFF with 15. change UPPER_CUTOFF with 240. lia.
  - split; [reflexivity |].
    split; [unfold same_settings; cbn; tauto |]. exists []. cbn.
    rewrite app_nil_r. repeat split. constructor.
Qed.

Ltac dark_sample := eapply steps_bind; [apply steps_sampler_dark; lia | intros ? ->].

Lemma dark_pixel_is_quiet rdt proc r g b tile :
  theme_classifier rdt = Some proc ->
  0 <= r <= 15 -> 0 <= g <= 15 -> 0 <= b <= 15 ->
  steps (fun _ => False) (fun _ => True) (proc r g b tile).
Proof.
  intros Htheme Hr Hg Hb.
  destruct rdt; cbn [theme_classifier] in Htheme; try discriminate Htheme;
    injection Htheme as <-.
  - unfold ApplyTerrain, ApplyTerrain_with, GetTileType.
    replace (16 <=? r) with false by (symmetry; apply Z.leb_gt; lia).
    replace (16 <=? g) with false by (symmetry; apply Z.leb_gt; lia).
    replace (16 <=? b) with false by (symmetry; apply Z.leb_gt; lia).
    quiet_steps.
  - unfold ApplyFields, ApplyFields_with, when.
    destruct (r <? LOWER_CUTOFF); [quiet_steps |]. cbv zeta.
    dark_sample. cbn. quiet_steps.
  - unfold ApplyWater. change UPPER_CUTOFF with 240.
    replace (240 <=? r) with false by (symmetry; apply Z.leb_gt; lia).
    replace (240 <=? g) with false by (symmetry; apply Z.leb_gt; lia).
    replace (240 <=? b) with false by (symmetry; apply Z.leb_gt; lia).
    quiet_steps.
  - unfold ApplyTrees, ApplyTrees_with.
    replace (r <? 16) with true by (symmetry; apply Z.ltb_lt; lia).
    apply (steps_bind _ (fun _ => True)); [quiet_steps |]. intros growth _.
    change (iadd 3 1) with 4. dark_sample. cbn. quiet_steps.
  - unfold ApplySnow, ApplySnow_with.
    change (iadd 3 1) with 4. dark_sample. cbn. quiet_steps.
  - unfold ApplyDesert, ApplyDesert_with.
    change (iadd 1 1) with 2. dark_sample. cbn. quiet_steps.
  - unfold ApplyTropics. change UPPER_CUTOFF with 240.
    replace (240 <? r) with false by (symmetry; apply Z.ltb_ge; lia).
    replace (240 <? g) with false by (symmetry; apply Z.ltb_ge; lia).
    replace (240 <? b) with false by (symmetry; apply Z.ltb_ge; lia).
    quiet_steps.
Qed.

Lemma evolves_nothing s s' :
  evolves (fun _ => False) s s' ->
  same_settings s s' /\ journal s' = journal s /\ tiles s' = tiles s.
Proof.
  intros [Hset (calls & J & Hall & T)].
  destruct calls as [| c calls].
  - rewrite app_nil_r in J. cbn in T. tauto.
  - inversion Hall as [| ? ? Hc _]. contradiction.
Qed.

(** X8: a pixel whose three channels are all at most 15 makes no classifier
    of any theme issue a request: the grid and the journal are as before. *)
Theorem dark_pixel_mutates_nothing (rdt : RasterDataType) (proc : TileRasterCallback)
    (r g b : Z) (tile : TileIndex) (s : Game) :
  theme_classifier rdt = Some proc ->
  0 <= r <= 15 -> 0 <= g <= 15 -> 0 <= b <= 15 ->
  exists s',
    proc r g b tile s = Some (tt, s')
    /\ journal s' = journal s /\ tiles s' = tiles s /\ same_settings s s'.
Proof.
  intros Htheme Hr Hg Hb.
  destruct (dark_pixel_is_quiet rdt proc r g b tile Htheme Hr Hg Hb s)
    as ([] & s' & E & _ & Ev).
  exists s'. split; [exact E |].
  destruct (evolves_nothing _ _ Ev) as (H1 & H2 & H3). tauto.
Qed.

Lemma dark_pixel_mutates_nothing_witness :
  exists s',
    ApplyTrees 3 7 15 130 (Examples.town HM_CLOCKWISE 9) = Some (tt, s')
    /\ journal s' = journal (Examples.town HM_CLOCKWISE 9)
    /\ tiles s' = tiles (Examples.town HM_CLOCKWISE 9)
    /\ same_settings (Examples.town HM_CLOCKWISE 9) s'.
Proof.
  refine (dark_pixel_mutates_nothing RDT_TREES ApplyTrees 3 7 15 130
            (Examples.town HM_CLOCKWISE 9) _ _ _ _).
  - reflexivity.
  - lia.
  - lia.
  - lia.
Defined.

Lemma ApplyRasterToMap_dark_image_lemma (rw rh : Z) (raster : list Z)
    (rdt : RasterDataType) (proc : TileRasterCallback) (s s' : Game) :
  theme_classifier rdt = Some proc ->
  Forall (fun v => 0 <= v <= 15) raster ->
  ApplyRasterToMap rw rh raster proc s = Some (tt, s') ->
  journal s' = journal s /\ tiles s' = tiles s /\ same_settings s s'.
Proof.
  intros Htheme Hdark Hrun.
  assert (Hev : evolves (fun _ => False) s s').
  { eapply ApplyRasterToMap_evolves; [| exact Hrun].
    intros r g b t s1 s2 _ Hr Hg Hb _ Hstep.
    rewrite Forall_forall in Hdark.
    destruct (dark_pixel_is_quiet rdt proc r g b t Htheme
                (Hdark r Hr) (Hdark g Hg) (Hdark b Hb) s1)
      as ([] & s2' & E & _ & Ev).
    rewrite Hstep in E. injection E as <-. exact Ev. }
  destruct (evolves_nothing _ _ Hev) as (H1 & H2 & H3). tauto.
Qed.

(** ** Each classifier on its own *)

(** X9: the classifier of every theme returns for every pixel and every
    tile; all its requests are for that tile and carry valid arguments
    (densities and tree counts in [0, 3], growth in [0, 6], a real tree
    species, a canal owner other than water); the grid changes only by these
    requests, so every other tile is as before, and so are the settings. *)
Theorem classifiers_keep_to_their_tile (rdt : RasterDataType)
    (proc : TileRasterCallback) (r g b : Z) (tile : TileIndex) (s : Game) :
  theme_classifier rdt = Some proc ->
  exists s',
    proc r g b tile s = Some (tt, s')
    /\ same_settings s s'
    /\ Forall (valid_call_on tile) (calls_since s s')
    /\ tiles s' = replay (calls_since s s') (tiles s)
    /\ forall t, t <> tile -> tiles s' !! t = tiles s !! t.
Proof.
  intros Htheme.
  destruct (steps_theme_classifier rdt proc r g b tile Htheme s)
    as ([] & s' & E & _ & Ev).
  exists s'. split; [exact E |].
  destruct (evolves_calls_since _ _ _ Ev) as [Hall Htiles].
  split; [exact (proj1 Ev) |]. split; [exact Hall |]. split; [exact Htiles |].
  intros t Ht. rewrite Htiles. apply replay_elsewhere.
  eapply Forall_impl; [exact Hall |]. intros c [Hc _]. congruence.
Qed.

Lemma classifiers_keep_to_their_tile_witness :
  exists s',
    ApplyWater 250 250 0 130 (Examples.town HM_CLOCKWISE 77) = Some (tt, s')
    /\ same_settings (Examples.town HM_CLOCKWISE 77) s'
    /\ Forall (valid_call_on 130) (calls_since (Examples.town HM_CLOCKWISE 77) s')
    /\ tiles s' = replay (calls_since (Examples.town HM_CLOCKWISE 77) s')
                    (tiles (Examples.town HM_CLOCKWISE 77))
    /\ forall t, t <> 130 -> tiles s' !! t = tiles (Examples.town HM_CLOCKWISE 77) !! t.
Proof.
  refine (classifiers_keep_to_their_tile RDT_WATER ApplyWater 250 250 0 130
            (Examples.town HM_CLOCKWISE 77) _).
  reflexivity.
Defined.

Lemma steps_ApplyDesert_calls r g b tile :
  steps (desert_call tile) (fun _ => True) (ApplyDesert r g b tile).
Proof.
  unfold ApplyDesert, ApplyDesert_with, when, SetTropicZone.
  sample_step level Hlevel. cbv zeta.
  change (iadd 1 1) with 2 in Hlevel.
  rewrite desert_density by exact Hlevel.
  destruct (2 * level - 1 <? 0) eqn:Hneg; [quiet_steps |]. ltb_facts.
  rewrite u32_small by (unfold is_u32; lia).
  assert (Hd : 2 * level - 1 = 1 \/ 2 * level - 1 = 3) by lia.
  apply (steps_bind _ (fun _ => True)).
  { unfold ReplaceGround, GetTileType, SetClearGroundDensity, SetTreeGroundDensity.
    quiet_steps; apply steps_grid_call; right; eexists; (split; [exact Hd |]);
      first [left; reflexivity | right; reflexivity]. }
  intros _ _. destruct (UPPER_CUTOFF <? g); [| quiet_steps].
  apply steps_grid_call. left. reflexivity.
Qed.

(** X10: the desert classifier returns for every pixel; a ground request it
    issues is desert ground of density 1 or 3, and its only other request is
    the desert zone tag; with red at most 15 it issues no request at all,
    whatever the green channel. *)
Theorem ApplyDesert_density (r g b : Z) (tile : TileIndex) (s : Game) :
  exists s',
    ApplyDesert r g b tile s = Some (tt, s')
    /\ Forall (desert_call tile) (calls_since s s')
    /\ (0 <= r <= 15 -> calls_since s s' = []).
Proof.
  destruct (steps_ApplyDesert_calls r g b tile s) as ([] & s' & E & _ & Ev).
  exists s'. split; [exact E |].
  split; [exact (proj1 (evolves_calls_since _ _ _ Ev)) |].
  intros Hr.
  assert (Hquiet : steps (fun _ => False) (fun _ => True) (ApplyDesert r g b tile)).
  { unfold ApplyDesert, ApplyDesert_with.
    change (iadd 1 1) with 2. dark_sample. cbn. quiet_steps. }
  destruct (Hquiet s) as ([] & s'' & E' & _ & Ev').
  rewrite E in E'. injection E' as <-.
  destruct (evolves_calls_since _ _ _ Ev') as [Hall _].
  destruct (calls_since s s') as [| c rest]; [reflexivity |].
  inversion Hall as [| ? ? Hc _]. contradiction.
Qed.

(** X11: [TreeTypeLookup] returns in every climate; below 16 it gives
    [TREE_INVALID], and from 16 to 255 a species of the block of the active
    climate, never [TREE_INVALID]. *)
Theorem TreeTypeLookup_in_climate_block (b : Z) (s : Game) :
  0 <= b <= 255 ->
  exists tree,
    TreeTypeLookup b s = Some (tree, s)
    /\ (b < 16 -> tree = TREE_INVALID)
    /\ (16 <= b -> in_climate_block (landscape s) tree /\ tree <> TREE_INVALID).
Proof.
  intros Hb. destruct (Z.lt_ge_cases b 16) as [Hlow | Hhigh].
  - exists TREE_INVALID. unfold TreeTypeLookup.
    replace (b <? 16) with true by (symmetry; apply Z.ltb_lt; exact Hlow).
    split; [reflexivity |]. split; [reflexivity | lia].
  - rewrite (TreeTypeLookup_decodes b s) by lia.
    eexists. split; [reflexivity |]. split; [lia |]. intros _.
    unfold in_climate_block.
    change TREE_COUNT_TEMPERATE with 12. change TREE_COUNT_SUB_ARCTIC with 8.
    change TREE_COUNT_SUB_TROPICAL with 4. change TREE_COUNT_TOYLAND with 9.
    change TREE_TEMPERATE with 0. change TREE_SUB_ARCTIC with 12.
    change TREE_RAINFOREST with 20. change TREE_TOYLAND with 32.
    change TREE_INVALID with 255.
    destruct (landscape s);
      match goal with |- context [?a mod ?n] =>
        pose proof (Z.mod_pos_bound a n ltac:(lia)) end; lia.
Qed.

Lemma TreeTypeLookup_in_climate_block_witness :
  exists tree,
    TreeTypeLookup 0x60 (Examples.game HM_CLOCKWISE LT_TROPIC 0)
    = Some (tree, Examples.game HM_CLOCKWISE LT_TROPIC 0)
    /\ (0x60 < 16 -> tree = TREE_INVALID)
    /\ (16 <= 0x60 ->
        in_climate_block (landscape (Examples.game HM_CLOCKWISE LT_TROPIC 0)) tree
        /\ tree <> TREE_INVALID).
Proof.
  refine (TreeTypeLookup_in_climate_block 0x60 (Examples.game HM_CLOCKWISE LT_TROPIC 0) _).
  lia.
Defined.

(** ** Reading and loading *)

Lemma buffer_size w h :
  IsValidRasterDimension w h = true -> 0 <= w -> 0 <= h ->
  u64 (u64 (w * h) * 3) = w * h * 3 /\ 1 <= w <= 131072 /\ 1 <= h <= 131072
  /\ w * h <= 268435456.
Proof.
  intros Hvalid Hw Hh. unfold IsValidRasterDimension in Hvalid.
  destruct raster_limits as [E1 E2]. rewrite E1, E2 in Hvalid.
  rewrite !andb_true_iff, !Z.leb_le, !Z.ltb_lt in Hvalid.
  destruct Hvalid as [[[[Hp Hw0] Hw1] Hh0] Hh1].
  assert (Hwh : 0 <= w * h <= 131072 * 131072) by nia.
  rewrite (u64_small w) in Hp by (unfold is_u64; lia).
  rewrite u64_small in Hp by (unfold is_u64; lia).
  rewrite (u64_small (w * h)) by (unfold is_u64; lia).
  rewrite u64_small by (unfold is_u64; lia). lia.
Qed.

(** What a read that reports success has done. *)
Lemma ReadRasterFile_success_inv dft filename subdir want_raster out0 out s s1 :
  ReadRasterFile dft filename subdir want_raster out0 s = Some (out, s1) ->
  read_ok out = true ->
  exists f,
    disk s subdir filename = Some f
    /\ img_header_ok f = true
    /\ read_x out = u32 (img_width f) /\ read_y out = u32 (img_height f)
    /\ IsValidRasterDimension (read_x out) (read_y out) = true
    /\ (if want_raster
        then img_bitmap_ok f = true
             /\ read_raster out
                = Some (resize (Z.to_nat (read_x out * read_y out * 3)) 0 (img_rgb f))
             /\ s1 = with_live_buffers (live_buffers s + 1) s
        else read_raster out = read_raster out0 /\ s1 = s).
Proof.
  unfold ReadRasterFile, bind at 1, gets.
  destruct dft; [| | discriminate];
    (destruct (disk s subdir filename) as [f |];
     [| intros [= <- <-]; discriminate]).
  - unfold ReadRasterBMP.
    destruct (img_header_ok f) eqn:Hh; cbn [negb];
      [| intros [= <- <-]; discriminate].
    destruct (IsValidRasterDimension _ _) eqn:Hv; cbn [negb];
      [| intros [= <- <-]; discriminate].
    pose proof (u32_range (img_width f)) as Hw.
    pose proof (u32_range (img_height f)) as Hh'. unfold is_u32 in Hw, Hh'.
    destruct (buffer_size _ _ Hv ltac:(lia) ltac:(lia)) as (Hsize & _).
    destruct want_raster.
    + destruct (img_bitmap_ok f) eqn:Hb; cbn [negb];
        [| intros [= <- <-]; discriminate].
      intros [= <- <-] _. exists f. cbn [read_x read_y read_raster].
      rewrite Hsize. repeat (split; [reflexivity || assumption |]). reflexivity.
    + intros [= <- <-] _. exists f. cbn [read_x read_y read_raster].
      repeat (split; [reflexivity || assumption |]). reflexivity.
  - unfold ReadRasterPNG.
    destruct (img_header_ok f) eqn:Hh; cbn [negb];
      [| intros [= <- <-]; discriminate].
    destruct (IsValidRasterDimension _ _) eqn:Hv; cbn [negb];
      [| intros [= <- <-]; discriminate].
    pose proof (u32_range (img_width f)) as Hw.
    pose proof (u32_range (img_height f)) as Hh'. unfold is_u32 in Hw, Hh'.
    destruct (buffer_size _ _ Hv ltac:(lia) ltac:(lia)) as (Hsize & _).
    destruct want_raster.
    + unfold bind at 1, MallocT, bind at 1, modify. cbn [ret].
      destruct (img_bitmap_ok f) eqn:Hb; cbn [negb];
        [| intros [= <- <-]; discriminate].
      intros [= <- <-] _. exists f. cbn [read_x read_y read_raster].
      rewrite Hsize. repeat (split; [reflexivity || assumption |]). reflexivity.
    + intros [= <- <-] _. exists f. cbn [read_x read_y read_raster].
      repeat (split; [reflexivity || assumption |]). reflexivity.
Qed.

(** X12: a read that reports success has found the file, returns dimensions
    that pass [IsValidRasterDimension], and shows no error message; when
    pixels are asked for, it has allocated exactly one buffer, of three
    bytes per pixel; when only the size is asked for, it allocates nothing
    and leaves the state and the caller's buffer pointer as they were. *)
Theorem ReadRasterFile_success (dft : DetailedFileType) (filename subdir : Z)
    (want_raster : bool) (out0 out : ReadOutcome) (s s1 : Game) :
  ReadRasterFile dft filename subdir want_raster out0 s = Some (out, s1) ->
  read_ok out = true ->
  IsValidRasterDimension (read_x out) (read_y out) = true
  /\ error_messages s1 = error_messages s
  /\ (if want_raster
      then exists bytes,
             read_raster out = Some bytes
             /\ Z.of_nat (length bytes) = read_x out * read_y out * 3
             /\ live_buffers s1 = live_buffers s + 1
      else read_raster out = read_raster out0 /\ s1 = s).
Proof.
  intros Hread Hok.
  destruct (ReadRasterFile_success_inv _ _ _ _ _ _ _ _ Hread Hok)
    as (f & _ & _ & Ex & Ey & Hv & Hrest).
  split; [exact Hv |].
  pose proof (u32_range (img_width f)) as Hw.
  pose proof (u32_range (img_height f)) as Hh. unfold is_u32 in Hw, Hh.
  destruct want_raster.
  - destruct Hrest as (_ & Hbuf & ->). split; [reflexivity |].
    eexists. split; [exact Hbuf |]. split; [| reflexivity].
    rewrite length_resize. rewrite Ex, Ey. nia.
  - destruct Hrest as (Hbuf & ->). split; [reflexivity |]. split; [exact Hbuf | reflexivity].
Qed.

Lemma ReadRasterFile_success_witness :
  exists out s1,
    ReadRasterFile DFT_HEIGHTMAP_BMP 4 0 true (mkReadOutcome false 0 0 None)
      (Images.plot HM_CLOCKWISE 5) = Some (out, s1)
    /\ IsValidRasterDimension (read_x out) (read_y out) = true
    /\ error_messages s1 = error_messages (Images.plot HM_CLOCKWISE 5)
    /\ exists bytes,
         read_raster out = Some bytes
         /\ Z.of_nat (length bytes) = read_x out * read_y out * 3
         /\ live_buffers s1 = live_buffers (Images.plot HM_CLOCKWISE 5) + 1.
Proof.
  eexists. eexists. split; [vm_compute; reflexivity |].
  refine (ReadRasterFile_success DFT_HEIGHTMAP_BMP 4 0 true (mkReadOutcome false 0 0 None)
            _ (Images.plot HM_CLOCKWISE 5) _ _ _).
  - vm_compute. reflexivity.
  - reflexivity.
Defined.



Lemma LoadRaster_unfold dft rdt filename subdir s :
  LoadRaster dft rdt filename subdir s
  = match ReadRasterFile dft filename subdir true (mkReadOutcome false 0 0 None) s with
    | None => None
    | Some (out, s1) =>
        if read_ok out then
          match theme_classifier rdt with
          | None => None
          | Some proc =>
              match ApplyRasterToMap (read_x out) (read_y out)
                      (default [] (read_raster out)) proc s1 with
              | None => None
              | Some (_, s2) =>
                  match free (read_raster out) s2 with
                  | None => None
                  | Some (_, s3) => Some (tt, with_screen_dirty s3)
                  end
              end
          end
        else free (read_raster out) s1
    end.
Proof.
  unfold LoadRaster, bind at 1.
  destruct (ReadRasterFile _ _ _ _ _ s) as [[out s1] |]; [| reflexivity].
  destruct (read_ok out); cbn [negb]; [| reflexivity].
  unfold bind at 1.
  destruct rdt; cbn [theme_classifier]; try reflexivity;
    match goal with |- context [ApplyRasterToMap ?x ?y ?r ?p s1] =>
      destruct (ApplyRasterToMap x y r p s1) as [[[] s2] |]; [| reflexivity] end;
    unfold bind at 1;
    (destruct (free (read_raster out) s2) as [[[] s3] |]; reflexivity).
Qed.

Lemma inner_valid_call_same_settings s s1 c :
  same_settings s s1 -> inner_valid_call s1 c -> inner_valid_call s c.
Proof.
  intros Hset [Hin Hv]. split; [| exact Hv].
  rewrite <- (is_inner_same_settings s s1) by exact Hset. exact Hin.
Qed.



(** X15: for a PNG or BMP file that exists, is accepted by its decoder and has
    readable rows and sides of at most 16384 pixels, on a grid with sides of
    at most 16384 and for a theme that has a classifier, [LoadRaster]
    returns and marks the screen dirty. *)
Theorem LoadRaster_small_image_returns (dft : DetailedFileType) (rdt : RasterDataType)
    (proc : TileRasterCallback) (filename subdir : Z) (f : ImageFile) (s : Game) :
  dft <> DFT_OTHER -> theme_classifier rdt = Some proc ->
  disk s subdir filename = Some f ->
  img_header_ok f = true -> img_bitmap_ok f = true ->
  1 <= img_width f <= 16384 -> 1 <= img_height f <= 16384 ->
  1 <= MapSizeX s <= 16384 -> 1 <= MapSizeY s <= 16384 ->
  exists s',
    LoadRaster dft rdt filename subdir s = Some (tt, s') /\ screen_dirty s' = true.
Proof.
  intros Hdft Htheme Hfile Hhead Hrows Hw Hh Hsx Hsy.
  rewrite LoadRaster_unfold.
  assert (Ew : u32 (img_width f) = img_width f) by (apply u32_small; unfold is_u32; lia).
  assert (Eh : u32 (img_height f) = img_height f) by (apply u32_small; unfold is_u32; lia).
  assert (Hvalid : IsValidRasterDimension (img_width f) (img_height f) = true).
  { unfold IsValidRasterDimension. destruct raster_limits as [-> ->].
    rewrite (u64_small (img_width f)) by (unfold is_u64; lia).
    rewrite u64_small by (unfold is_u64; nia).
    rewrite !andb_true_iff, !Z.leb_le, !Z.ltb_lt. repeat split; try lia. nia. }
  destruct (buffer_size _ _ Hvalid ltac:(lia) ltac:(lia)) as (Hsize & _).
  assert (Hread : ReadRasterFile dft filename subdir true (mkReadOutcome false 0 0 None) s
                  = Some (mkReadOutcome true (img_width f) (img_height f)
                            (Some (resize (Z.to_nat (img_width f * img_height f * 3)) 0
                                          (img_rgb f))),
                          with_live_buffers (live_buffers s + 1) s)).
  { unfold ReadRasterFile, bind at 1, gets. rewrite Hfile.
    destruct dft; [| | contradiction].
    - unfold ReadRasterBMP. rewrite Hhead, Hrows, Ew, Eh, Hvalid. cbn [negb].
      rewrite Hsize. reflexivity.
    - unfold ReadRasterPNG. rewrite Hhead, Hrows, Ew, Eh, Hvalid. cbn [negb].
      rewrite Hsize. reflexivity. }
  rewrite Hread. cbn [read_ok read_x read_y read_raster default from_option id].
  rewrite Htheme.
  destruct (ApplyRasterToMap_small_runs (img_width f) (img_height f)
              (resize (Z.to_nat (img_width f * img_height f * 3)) 0 (img_rgb f))
              proc (with_live_buffers (live_buffers s + 1) s))
    as (s2 & Hrun & _); try assumption.
  - rewrite length_resize. nia.
  - intros r g b t. eapply steps_theme_classifier. exact Htheme.
  - rewrite Hrun. cbn [free modify]. eexists. split; reflexivity.
Qed.

Lemma LoadRaster_small_image_returns_witness :
  exists s',
    LoadRaster DFT_HEIGHTMAP_BMP RDT_TREES 4 0 (Images.plot HM_CLOCKWISE 5)
    = Some (tt, s') /\ screen_dirty s' = true.
Proof.
  refine (LoadRaster_small_image_returns DFT_HEIGHTMAP_BMP RDT_TREES ApplyTrees 4 0
            (mkImageFile true 2 2 true (replicate 12 250))
            (Images.plot HM_CLOCKWISE 5) _ _ _ _ _ _ _ _ _).
  - discriminate.
  - reflexivity.
  - reflexivity.
  - reflexivity.
  - reflexivity.
  - cbn. lia.
  - cbn. lia.
  - cbn. lia.
  - cbn. lia.
Defined.

(** X16: loading an image whose bytes are all at most 15 (a black image),
    whatever the theme, issues no request and leaves the grid as it was. *)
Theorem LoadRaster_dark_image (dft : DetailedFileType) (rdt : RasterDataType)
    (filename subdir : Z) (f : ImageFile) (s s' : Game) :
  disk s subdir filename = Some f ->
  Forall (fun v => 0 <= v <= 15) (img_rgb f) ->
  LoadRaster dft rdt filename subdir s = Some (tt, s') ->
  journal s' = journal s /\ tiles s' = tiles s.
Proof.
  intros Hfile Hdark. rewrite LoadRaster_unfold.
  destruct (ReadRasterFile _ _ _ _ _ s) as [[out s1] |] eqn:Hread; [| discriminate].
  destruct (read_ok out) eqn:Hok.
  - destruct (ReadRasterFile_success_inv _ _ _ _ _ _ _ _ Hread Hok)
      as (f' & Hfile' & _ & _ & _ & _ & _ & Hbuf & ->).
    rewrite Hfile in Hfile'. injection Hfile' as <-.
    destruct (theme_classifier rdt) as [proc |] eqn:Htheme; [| discriminate].
    rewrite Hbuf. cbn [default from_option id free modify].
    match goal with |- context [ApplyRasterToMap ?x ?y ?r proc ?s1] =>
      destruct (ApplyRasterToMap x y r proc s1) as [[[] s2] |] eqn:Hrun;
        [| discriminate] end.
    intros [= <-].
    assert (Hbytes : Forall (fun v => 0 <= v <= 15)
                       (resize (Z.to_nat (read_x out * read_y out * 3)) 0 (img_rgb f))).
    { rewrite resize_spec. apply Forall_app. split.
      - apply Forall_take. exact Hdark.
      - apply Forall_replicate. lia. }
    destruct (ApplyRasterToMap_dark_image_lemma _ _ _ _ _ _ _ Htheme Hbytes Hrun)
      as (Hj & Ht & _).
    cbn in Hj, Ht |- *. split; assumption.
  - destruct (ReadRasterFile_failure _ _ _ _ _ _ _ _ Hread Hok)
      as [[-> Hbuf] | [-> [bytes Hbuf]]]; rewrite Hbuf; cbn [read_raster free ret modify];
      intros [= <-]; split; reflexivity.
Qed.

Lemma LoadRaster_dark_image_witness :
  exists s',
    LoadRaster DFT_HEIGHTMAP_PNG RDT_TERRAIN 3 0 (Images.plot HM_CLOCKWISE 5)
    = Some (tt, s')
    /\ journal s' = journal (Images.plot HM_CLOCKWISE 5)
    /\ tiles s' = tiles (Images.plot HM_CLOCKWISE 5).
Proof.
  eexists. split; [vm_compute; reflexivity |].
  refine (LoadRaster_dark_image DFT_HEIGHTMAP_PNG RDT_TERRAIN 3 0
            (mkImageFile true 2 2 true (replicate 12 8))
            (Images.plot HM_CLOCKWISE 5) _ _ _ _).
  - reflexivity.
  - cbn [img_rgb]. apply Forall_replicate. lia.
  - vm_compute. reflexivity.
Defined.

(** ** An image of the size of the grid *)

(** X17: an image that has exactly the extents of the grid (as the projector
    sees them in the current orientation) is projected without padding and
    pixel for pixel: the cell in a row and column samples the pixel of the
    same row and of the same column in clockwise orientation, of the
    mirrored column in counter-clockwise orientation. *)
Theorem same_size_image_maps_pixel_for_pixel (s : Game) :
  1 <= MapSizeX s <= 131072 -> 1 <= MapSizeY s <= 131072 ->
  projection_setup (grid_width s) (grid_height s) s
  = Some (mkProjection (grid_width s) (grid_height s) 0 0 16384, s)
  /\ forall row col,
       0 <= row < grid_height s -> 0 <= col < grid_width s ->
       source_row (mkProjection (grid_width s) (grid_height s) 0 0 16384) row s
       = Some (row, s)
       /\ source_col (heightmap_rotation s)
            (mkProjection (grid_width s) (grid_height s) 0 0 16384) col s
          = Some (match heightmap_rotation s with
                  | HM_COUNTER_CLOCKWISE => grid_width s - 1 - col
                  | HM_CLOCKWISE => col
                  end, s).
Proof.
  intros Hsx Hsy.
  assert (Hw : 1 <= grid_width s <= 131072)
    by (unfold grid_width; destruct (heightmap_rotation s); lia).
  assert (Hh : 1 <= grid_height s <= 131072)
    by (unfold grid_height; destruct (heightmap_rotation s); lia).
  assert (Hu : forall z, 0 <= z < 2 ^ 32 -> u32 z = z)
    by (intros z Hz; apply u32_small; exact Hz).
  assert (Hdiv : forall a b, b <> 0 -> udivM a b s = Some (a / b, s)).
  { intros a b Hb. unfold udivM.
    destruct (Z.eqb_spec b 0); [contradiction | reflexivity]. }
  split.
  - unfold projection_setup, bind at 1, gets. unfold bind at 1. unfold bind at 1.
    replace (match heightmap_rotation s with
             | HM_COUNTER_CLOCKWISE => (MapSizeX s, MapSizeY s)
             | HM_CLOCKWISE => (MapSizeY s, MapSizeX s) end)
      with (grid_width s, grid_height s)
      by (unfold grid_width, grid_height; destruct (heightmap_rotation s); reflexivity).
    set (w := grid_width s) in *. set (h := grid_height s) in *. clearbody w h.
    cbv beta iota. unfold num_div, umul, udiv.
    rewrite (Hu (w * 16384)), (Hu (h * 16384)) by lia.
    unfold bind at 1. rewrite Hdiv by lia.
    unfold bind at 1. rewrite Hdiv by lia.
    rewrite Z.ltb_irrefl. unfold bind at 1. rewrite Hdiv by lia.
    replace (h * 16384 / h) with 16384
      by (rewrite Z.mul_comm; symmetry; apply Z.div_mul; lia).
    rewrite (Hu (w * 16384)) by lia.
    rewrite Z.div_mul by lia. unfold usub, uadd.
    rewrite (Hu (1 + w)) by lia. replace (1 + w - w) with 1 by lia.
    reflexivity.
  - intros row col Hrow Hcol.
    unfold source_row, source_col, num_div, usub, umul.
    cbn [raster_scale map_row_pad map_col_pad map_width map_height].
    set (w := grid_width s) in *. set (h := grid_height s) in *. clearbody w h.
    rewrite !Z.sub_0_r. split.
    + rewrite (Hu row) by lia. rewrite (Hu (row * 16384)) by lia.
      rewrite Hdiv by lia. rewrite Z.div_mul by lia. reflexivity.
    + destruct (heightmap_rotation s).
      * rewrite (Hu (w - 1)) by lia. rewrite (Hu (w - 1 - col)) by lia.
        rewrite (Hu (w - 1 - col)) by lia.
        rewrite (Hu ((w - 1 - col) * 16384)) by lia.
        rewrite Hdiv by lia. rewrite Z.div_mul by lia. reflexivity.
      * rewrite (Hu col) by lia. rewrite (Hu (col * 16384)) by lia.
        rewrite Hdiv by lia. rewrite Z.div_mul by lia. reflexivity.
Qed.

Lemma same_size_image_maps_pixel_for_pixel_witness :
  projection_setup 64 64 (Examples.game HM_COUNTER_CLOCKWISE LT_TEMPERATE 0)
  = Some (mkProjection 64 64 0 0 16384, Examples.game HM_COUNTER_CLOCKWISE LT_TEMPERATE 0)
  /\ forall row col,
       0 <= row < 64 -> 0 <= col < 64 ->
       source_row (mkProjection 64 64 0 0 16384) row
         (Examples.game HM_COUNTER_CLOCKWISE LT_TEMPERATE 0)
       = Some (row, Examples.game HM_COUNTER_CLOCKWISE LT_TEMPERATE 0)
       /\ source_col HM_COUNTER_CLOCKWISE (mkProjection 64 64 0 0 16384) col
            (Examples.game HM_COUNTER_CLOCKWISE LT_TEMPERATE 0)
          = Some (64 - 1 - col, Examples.game HM_COUNTER_CLOCKWISE LT_TEMPERATE 0).
Proof.
  refine (same_size_image_maps_pixel_for_pixel
            (Examples.game HM_COUNTER_CLOCKWISE LT_TEMPERATE 0) _ _).
  - cbn. lia.
  - cbn. lia.
Defined.

(** ** Copying rows into the pixel buffer *)

Lemma loop_count_ext {S} (body1 body2 : Z -> S -> option S) n :
  forall lo st,
    (forall i st', lo <= i < lo + Z.of_nat n -> body1 i st' = body2 i st') ->
    loop_count n lo body1 st = loop_count n lo body2 st.
Proof.
  induction n as [| n IH]; intros lo st Hext; cbn [loop_count]; [reflexivity |].
  rewrite Hext by lia. destruct (body2 lo st) as [st' |]; [| reflexivity].
  apply IH. intros i st'' Hi. apply Hext. lia.
Qed.

Lemma loop_count_inv {S} (Inv : Z -> S -> Prop) (body : Z -> S -> option S) n :
  forall lo st st',
    Inv lo st ->
    (forall i st1 st2, lo <= i < lo + Z.of_nat n -> Inv i st1 ->
                       body i st1 = Some st2 -> Inv (i + 1) st2) ->
    loop_count n lo body st = Some st' -> Inv (lo + Z.of_nat n) st'.
Proof.
  induction n as [| n IH]; intros lo st st' H0 Hstep; cbn [loop_count].
  - intros [= <-]. replace (lo + Z.of_nat 0) with lo by lia. exact H0.
  - destruct (body lo st) as [st1 |] eqn:E; [| discriminate]. intros Hrun.
    replace (lo + Z.of_nat (Datatypes.S n)) with (lo + 1 + Z.of_nat n) by lia.
    eapply IH; [| | exact Hrun].
    + eapply Hstep; [| exact H0 | exact E]. lia.
    + intros i st2 st3 Hi. apply Hstep. lia.
Qed.

Lemma store_inv index value raster raster' :
  store index value raster = Some raster' ->
  length raster' = length raster
  /\ load raster' index = Some value
  /\ forall j, j <> index -> load raster' j = load raster j.
Proof.
  unfold store.
  destruct (0 <=? index) eqn:H0; [| discriminate].
  destruct (index <? Z.of_nat (length raster)) eqn:H1; [| discriminate].
  cbn [andb]. intros [= <-]. apply Z.leb_le in H0. apply Z.ltb_lt in H1.
  split; [apply length_insert |]. split.
  - unfold load. replace (0 <=? index) with true by (symmetry; apply Z.leb_le; lia).
    apply list_lookup_insert_eq. lia.
  - intros j Hj. unfold load. destruct (0 <=? j) eqn:Hj0; [| reflexivity].
    apply Z.leb_le in Hj0. apply list_lookup_insert_ne. lia.
Qed.

Lemma store3_inv pixel a b c raster raster' :
  store3 pixel a b c raster = Some raster' ->
  length raster' = length raster
  /\ load raster' pixel = Some a /\ load raster' (pixel + 1) = Some b
  /\ load raster' (pixel + 2) = Some c
  /\ forall j, j < pixel \/ pixel + 3 <= j -> load raster' j = load raster j.
Proof.
  unfold store3.
  destruct (store pixel a raster) as [r1 |] eqn:E1; [| discriminate].
  destruct (store (pixel + 1) b r1) as [r2 |] eqn:E2; [| discriminate].
  intros E3.
  destruct (store_inv _ _ _ _ E1) as (L1 & V1 & O1).
  destruct (store_inv _ _ _ _ E2) as (L2 & V2 & O2).
  destruct (store_inv _ _ _ _ E3) as (L3 & V3 & O3).
  split; [congruence |]. split; [| split; [| split]].
  - rewrite O3, O2 by lia. exact V1.
  - rewrite O3 by lia. exact V2.
  - exact V3.
  - intros j Hj. rewrite O3, O2, O1 by lia. reflexivity.
Qed.

Lemma pixel_index_apart w x y x' y' :
  0 <= x < w -> 0 <= x' < w -> (x', y') <> (x, y) ->
  (y' * w + x') * 3 + 3 <= (y * w + x) * 3 \/ (y * w + x) * 3 + 3 <= (y' * w + x') * 3.
Proof.
  intros Hx Hx' Hne.
  destruct (Z.lt_trichotomy y' y) as [Hy | [Hy | Hy]].
  - left. nia.
  - subst y'. assert (x' <> x) by congruence. lia.
  - right. nia.
Qed.

(** Writing one pixel fills it and keeps the pixels already filled. *)
Lemma fill_step fetch w x y raster raster' :
  0 <= x < w ->
  match fetch x y with
  | Some (a, b, c) => store3 ((y * w + x) * 3) a b c raster
  | None => None
  end = Some raster' ->
  length raster' = length raster
  /\ filled fetch raster' w x y
  /\ forall x' y', 0 <= x' < w -> (x', y') <> (x, y) ->
                   filled fetch raster w x' y' -> filled fetch raster' w x' y'.
Proof.
  intros Hx. destruct (fetch x y) as [[[a b] c] |] eqn:Ef; [| discriminate].
  intros Hst. destruct (store3_inv _ _ _ _ _ _ Hst) as (L & Va & Vb & Vc & Ho).
  split; [exact L |]. split.
  - exists (a, b, c). split; [exact Ef |]. unfold buffer_pixel.
    rewrite Va, Vb, Vc. reflexivity.
  - intros x' y' Hx' Hne (col & Ef' & Hb). exists col. split; [exact Ef' |].
    unfold buffer_pixel in *.
    destruct (pixel_index_apart w x y x' y' Hx Hx' Hne);
      rewrite !Ho by lia; exact Hb.
Qed.

(** A column-by-column fill of a buffer, as [ReadPNGRows] does it. *)
Lemma column_major_fill fetch w h raster raster' :
  loop_uint 0 w (fun x => loop_uint 0 h (fun y r =>
    match fetch x y with
    | Some (a, b, c) => store3 ((y * w + x) * 3) a b c r
    | None => None
    end)) raster = Some raster' ->
  length raster' = length raster
  /\ forall x y, 0 <= x < w -> 0 <= y < h -> filled fetch raster' w x y.
Proof.
  unfold loop_uint. rewrite !Z.sub_0_r. intros Hrun.
  pose (Outer := fun (kx : Z) (r : list Z) =>
    length r = length raster
    /\ forall x y, 0 <= x < kx -> x < w -> 0 <= y < h -> filled fetch r w x y).
  assert (Hfinal : Outer (0 + Z.of_nat (Z.to_nat w)) raster').
  { eapply (loop_count_inv Outer); [| | exact Hrun].
    - split; [reflexivity |]. intros x y Hx. lia.
    - intros x r1 r2 Hx [L1 F1] Hcol.
      pose (Inner := fun (ky : Z) (r : list Z) =>
        length r = length raster
        /\ (forall x' y', 0 <= x' < x -> x' < w -> 0 <= y' < h -> filled fetch r w x' y')
        /\ (forall y', 0 <= y' < ky -> y' < h -> filled fetch r w x y')).
      assert (Hin : Inner (0 + Z.of_nat (Z.to_nat h)) r2).
      { eapply (loop_count_inv Inner); [| | exact Hcol].
        - split; [exact L1 |]. split; [exact F1 |]. intros y' Hy'. lia.
        - intros y r3 r4 Hy (L3 & F3 & G3) Hcell.
          destruct (fill_step fetch w x y r3 r4 ltac:(lia) Hcell) as (L4 & Hnew & Hkeep).
          split; [congruence |]. split.
          + intros x' y' Hx' Hx'' Hy'. apply Hkeep; [lia | | apply F3; lia].
            intros [= E _]. lia.
          + intros y' Hy' Hy''. destruct (Z.eq_dec y' y) as [-> | Hne].
            * exact Hnew.
            * apply Hkeep; [lia | | apply G3; lia]. intros [= E]. contradiction. }
      destruct Hin as (L2 & F2 & G2). split; [exact L2 |].
      intros x' y' Hx' Hx'' Hy'. destruct (Z.eq_dec x' x) as [-> | Hne].
      + apply G2; lia.
      + apply F2; lia. }
  destruct Hfinal as [L F]. split; [exact L |].
  intros x y Hx Hy. apply F; lia.
Qed.

Lemma valid_dimension_bounds w h :
  IsValidRasterDimension w h = true ->
  1 <= w <= 131072 /\ 1 <= h <= 131072 /\ w * h <= 268435456.
Proof.
  intros Hvalid. unfold IsValidRasterDimension in Hvalid.
  destruct raster_limits as [E1 E2]. rewrite E1, E2 in Hvalid.
  rewrite !andb_true_iff, !Z.leb_le, !Z.ltb_lt in Hvalid.
  destruct Hvalid as [[[[Hp Hw0] Hw1] Hh0] Hh1].
  rewrite (u64_small w) in Hp by (unfold is_u64; lia).
  rewrite u64_small in Hp by (unfold is_u64; nia). lia.
Qed.

Lemma ReadPNGRows_as_fill raster png :
  IsValidRasterDimension (png_width png) (png_height png) = true ->
  0 <= png_channels png <= 4 ->
  ReadPNGRows raster png
  = loop_uint 0 (png_width png) (fun x => loop_uint 0 (png_height png) (fun y r =>
      match png_pixel png x y with
      | Some (a, b, c) => store3 ((y * png_width png + x) * 3) a b c r
      | None => None
      end)) raster.
Proof.
  intros Hvalid Hch.
  destruct (valid_dimension_bounds _ _ Hvalid) as (Hw & Hh & Hwh).
  assert (Hu : forall z, 0 <= z < 2 ^ 32 -> u32 z = z)
    by (intros z Hz; apply u32_small; exact Hz).
  assert (Hpix : forall x y, 0 <= x < png_width png -> 0 <= y < png_height png ->
            umul (uadd (umul y (png_width png)) x) 3 = (y * png_width png + x) * 3).
  { intros x y Hx Hy. assert (0 <= y * png_width png + x < png_width png * png_height png) by nia.
    unfold umul, uadd. rewrite (Hu (y * png_width png)) by nia.
    rewrite (Hu (y * png_width png + x)) by lia. apply Hu. lia. }
  assert (Hoff : forall x, 0 <= x < png_width png ->
            umul x (png_channels png) = x * png_channels png).
  { intros x Hx. unfold umul. apply Hu. nia. }
  unfold ReadPNGRows, png_pixel, loop_uint. rewrite !Z.sub_0_r.
  destruct (png_has_palette png).
  - apply loop_count_ext. intros x r Hx.
    apply loop_count_ext. intros y r' Hy.
    rewrite Hpix, Hoff by lia.
    destruct (load (png_rows png) y) as [row |]; [| reflexivity].
    destruct (load row _) as [index |]; [| reflexivity].
    destruct (load (png_palette png) index) as [c |]; reflexivity.
  - apply loop_count_ext. intros x r Hx.
    apply loop_count_ext. intros y r' Hy.
    rewrite Hpix, Hoff by lia.
    destruct (load (png_rows png) y) as [row |]; [| reflexivity].
    destruct (Z.eqb_spec (png_channels png) 3) as [E3 | _].
    + rewrite E3. unfold uadd.
      rewrite (Hu (x * 3 + 0)), (Hu (x * 3 + 1)), (Hu (x * 3 + 2)) by lia.
      rewrite Z.add_0_r.
      destruct (load row (x * 3)), (load row (x * 3 + 1)), (load row (x * 3 + 2));
        reflexivity.
    + destruct (load row _); reflexivity.
Qed.

(** X18: when [ReadPNGRows] returns, on an image of valid dimensions with at
    most 4 channels, the buffer has kept its length and every pixel of it
    holds the colour of the decoded image in that column and row: the
    palette entry the row byte indexes, the three bytes of an RGB row, or
    the one byte of a grey row three times. *)
Theorem ReadPNGRows_fills_every_pixel (raster raster' : list Z) (png : PngImage) :
  IsValidRasterDimension (png_width png) (png_height png) = true ->
  0 <= png_channels png <= 4 ->
  ReadPNGRows raster png = Some raster' ->
  length raster' = length raster
  /\ forall x y, 0 <= x < png_width png -> 0 <= y < png_height png ->
       exists colour,
         png_pixel png x y = Some colour
         /\ buffer_pixel raster' (png_width png) x y = Some colour.
Proof.
  intros Hvalid Hch Hrun. rewrite ReadPNGRows_as_fill in Hrun by assumption.
  exact (column_major_fill (png_pixel png) _ _ _ _ Hrun).
Qed.

Lemma ReadPNGRows_fills_every_pixel_witness :
  length [1; 2; 3; 4; 5; 6; 7; 8; 9; 10; 11; 12] = length (replicate 12 0)
  /\ forall x y, 0 <= x < 2 -> 0 <= y < 2 ->
       exists colour,
         png_pixel Images.rgb_png x y = Some colour
         /\ buffer_pixel [1; 2; 3; 4; 5; 6; 7; 8; 9; 10; 11; 12] 2 x y = Some colour.
Proof.
  refine (ReadPNGRows_fills_every_pixel (replicate 12 0) _ Images.rgb_png _ _ _).
  - reflexivity.
  - cbn. lia.
  - reflexivity.
Defined.

Lemma ReadBMPRows_palette raster raster' bmp palette :
  IsValidRasterDimension (bmp_width bmp) (bmp_height bmp) = true ->
  bmp_palette bmp = Some palette ->
  ReadBMPRows raster bmp = Some raster' ->
  length raster' = length raster
  /\ forall x y, 0 <= x < bmp_width bmp -> 0 <= y < bmp_height bmp ->
                 filled (bmp_pixel bmp) raster' (bmp_width bmp) x y.
Proof.
  intros Hvalid Hpal.
  destruct (valid_dimension_bounds _ _ Hvalid) as (Hw & Hh & Hwh).
  assert (Hu : forall z, 0 <= z < 2 ^ 32 -> u32 z = z)
    by (intros z Hz; apply u32_small; exact Hz).
  unfold ReadBMPRows. rewrite Hpal. unfold loop_uint. rewrite !Z.sub_0_r.
  set (w := bmp_width bmp) in *. set (h := bmp_height bmp) in *.
  intros Hrun.
  pose (Outer := fun (ky : Z) (r : list Z) =>
    length r = length raster
    /\ forall x y, 0 <= x < w -> 0 <= y < ky -> y < h ->
                   filled (bmp_pixel bmp) r w x y).
  assert (Hfinal : Outer (0 + Z.of_nat (Z.to_nat h)) raster').
  { eapply (loop_count_inv Outer); [| | exact Hrun].
    - split; [reflexivity |]. intros x y _ Hy. lia.
    - intros y r1 r2 Hy HO. unfold Outer in HO. destruct HO as [L1 F1].
      match goal with
      | |- match ?run with _ => _ end = _ -> _ =>
          destruct run as [st |] eqn:Hrow; [| discriminate]
      end.
      destruct st as [[p b] r].
      intros [= <-].
      pose (Inner := fun (kx : Z) (st : Z * Z * list Z) =>
        let '(p, b, r) := st in
        p = (y * w + kx) * 3 /\ b = y * w + kx /\ length r = length raster
        /\ (forall x' y', 0 <= x' < w -> 0 <= y' < y -> filled (bmp_pixel bmp) r w x' y')
        /\ (forall x', 0 <= x' < kx -> x' < w -> filled (bmp_pixel bmp) r w x' y)).
      assert (Hin : Inner (0 + Z.of_nat (Z.to_nat w)) (p, b, r)).
      { eapply (loop_count_inv Inner); [| | exact Hrow].
        - cbn. unfold umul. assert (0 <= y * w < w * h) by nia.
          rewrite (Hu (y * w)) by lia. rewrite Hu by lia.
          split; [lia |]. split; [lia |]. split; [exact L1 |].
          split; [intros x' y' Hx' Hy'; apply F1; lia | intros x' Hx'; lia].
        - intros x [[p1 b1] r3] st2 Hx HI Hcell. unfold Inner in HI.
          destruct HI as (Ep & Eb & L3 & F3 & G3).
          cbn beta iota in Hcell.
          destruct (load (bmp_bitmap bmp) b1) as [index |] eqn:Eidx; [| discriminate].
          destruct (load palette index) as [c |] eqn:Ec; [| discriminate].
          destruct (store3 p1 _ _ _ r3) as [r4 |] eqn:Est; [| discriminate].
          injection Hcell as <-.
          assert (Hgen : match bmp_pixel bmp x y with
                         | Some (a, b', c') => store3 ((y * w + x) * 3) a b' c' r3
                         | None => None
                         end = Some r4).
          { unfold bmp_pixel. rewrite Hpal. fold w. rewrite <- Ep, <- Eb, Eidx, Ec.
            exact Est. }
          destruct (fill_step _ w x y r3 r4 ltac:(lia) Hgen) as (L4 & Hnew & Hkeep).
          cbn. split; [lia |]. split; [lia |]. split; [congruence |]. split.
          + intros x' y' Hx' Hy'. apply Hkeep; [lia | | apply F3; lia].
            intros [= _ E]. lia.
          + intros x' Hx' Hx''. destruct (Z.eq_dec x' x) as [-> | Hne].
            * exact Hnew.
            * apply Hkeep; [lia | | apply G3; lia]. intros [= E]. contradiction. }
      unfold Inner in Hin. destruct Hin as (_ & _ & L2 & F2 & G2). split; [exact L2 |].
      intros x' y' Hx' Hy' Hy''. destruct (Z.eq_dec y' y) as [-> | Hne].
      + apply G2; lia.
      + apply F2; lia. }
  unfold Outer in Hfinal. destruct Hfinal as [L F]. split; [exact L |].
  intros x y Hx Hy. apply F; lia.
Qed.

Lemma ReadBMPRows_rgb raster raster' bmp :
  IsValidRasterDimension (bmp_width bmp) (bmp_height bmp) = true ->
  bmp_palette bmp = None -> bmp_bpp bmp = 24 ->
  ReadBMPRows raster bmp = Some raster' ->
  length raster' = length raster
  /\ forall j, 0 <= j < bmp_height bmp * bmp_width bmp * 3 ->
       exists v, load (bmp_bitmap bmp) j = Some v /\ load raster' j = Some v.
Proof.
  intros Hvalid Hpal Hbpp.
  destruct (valid_dimension_bounds _ _ Hvalid) as (Hw & Hh & Hwh).
  assert (Hu : forall z, 0 <= z < 2 ^ 32 -> u32 z = z)
    by (intros z Hz; apply u32_small; exact Hz).
  unfold ReadBMPRows. rewrite Hpal, Hbpp. cbn [Z.eqb Pos.eqb].
  unfold loop_uint. rewrite !Z.sub_0_r.
  set (w := bmp_width bmp) in *. set (h := bmp_height bmp) in *.
  intros Hrun.
  pose (Outer := fun (ky : Z) (r : list Z) =>
    length r = length raster
    /\ forall j, 0 <= j < ky * w * 3 ->
         exists v, load (bmp_bitmap bmp) j = Some v /\ load r j = Some v).
  assert (Hfinal : Outer (0 + Z.of_nat (Z.to_nat h)) raster').
  { eapply (loop_count_inv Outer); [| | exact Hrun].
    - split; [reflexivity |]. intros j Hj. lia.
    - intros y r1 r2 Hy HO. unfold Outer in HO. destruct HO as [L1 F1].
      match goal with
      | |- match ?run with _ => _ end = _ -> _ =>
          destruct run as [st |] eqn:Hrow; [| discriminate]
      end.
      destruct st as [[p b] r].
      intros [= <-].
      pose (Inner := fun (kx : Z) (st : Z * Z * list Z) =>
        let '(p, b, r) := st in
        p = y * w * 3 + kx /\ b = y * w * 3 + kx /\ length r = length raster
        /\ forall j, 0 <= j < y * w * 3 + kx ->
             exists v, load (bmp_bitmap bmp) j = Some v /\ load r j = Some v).
      assert (Hin : Inner (0 + Z.of_nat (Z.to_nat (umul w 3))) (p, b, r)).
      { eapply (loop_count_inv Inner); [| | exact Hrow].
        - cbn. unfold umul. assert (0 <= y * w < w * h) by nia.
          rewrite (Hu (y * w)) by lia. rewrite Hu by lia.
          split; [lia |]. split; [lia |]. split; [exact L1 |].
          intros j Hj. apply F1. lia.
        - intros x [[p1 b1] r3] st2 Hx HI Hcell. unfold Inner in HI.
          destruct HI as (Ep & Eb & L3 & F3).
          cbn beta iota in Hcell.
          destruct (load (bmp_bitmap bmp) b1) as [v |] eqn:Ev; [| discriminate].
          destruct (store p1 v r3) as [r4 |] eqn:Est; [| discriminate].
          injection Hcell as <-.
          destruct (store_inv _ _ _ _ Est) as (L4 & V4 & O4).
          cbn. split; [lia |]. split; [lia |]. split; [congruence |].
          intros j Hj. destruct (Z.eq_dec j p1) as [-> | Hne].
          + exists v. split; [replace p1 with b1 by lia; exact Ev | exact V4].
          + rewrite O4 by exact Hne. apply F3. lia. }
      unfold Inner in Hin. destruct Hin as (_ & _ & L2 & F2). split; [exact L2 |].
      intros j Hj. apply F2. unfold umul. rewrite Hu by lia. lia. }
  unfold Outer in Hfinal. destruct Hfinal as [L F]. split; [exact L |].
  intros j Hj. apply F. lia.
Qed.

(** X19: when [ReadBMPRows] returns, on an image of valid dimensions, the
    buffer has kept its length; with a palette, or without one at 24 bits
    per pixel, every pixel of the buffer holds the colour of the image in
    that column and row (the palette entry the bitmap byte indexes, or the
    three bytes of the bitmap); without a palette at any other depth the
    buffer is left exactly as it was. *)
Theorem ReadBMPRows_fills_every_pixel (raster raster' : list Z) (bmp : BmpImage) :
  IsValidRasterDimension (bmp_width bmp) (bmp_height bmp) = true ->
  ReadBMPRows raster bmp = Some raster' ->
  length raster' = length raster
  /\ (bmp_palette bmp = None -> bmp_bpp bmp <> 24 -> raster' = raster)
  /\ (bmp_palette bmp <> None \/ bmp_bpp bmp = 24 ->
      forall x y, 0 <= x < bmp_width bmp -> 0 <= y < bmp_height bmp ->
        exists colour,
          bmp_pixel bmp x y = Some colour
          /\ buffer_pixel raster' (bmp_width bmp) x y = Some colour).
Proof.
  intros Hvalid Hrun.
  destruct (valid_dimension_bounds _ _ Hvalid) as (Hw & Hh & Hwh).
  destruct (bmp_palette bmp) as [palette |] eqn:Hpal.
  - destruct (ReadBMPRows_palette raster raster' bmp palette Hvalid Hpal Hrun)
      as [L F].
    split; [exact L |]. split; [discriminate |]. intros _ x y Hx Hy.
    exact (F x y Hx Hy).
  - destruct (Z.eq_dec (bmp_bpp bmp) 24) as [Hbpp | Hbpp].
    + destruct (ReadBMPRows_rgb raster raster' bmp Hvalid Hpal Hbpp Hrun) as [L F].
      split; [exact L |]. split; [contradiction |]. intros _ x y Hx Hy.
      assert (Hidx : 0 <= y * bmp_width bmp + x < bmp_height bmp * bmp_width bmp) by nia.
      destruct (F ((y * bmp_width bmp + x) * 3) ltac:(lia)) as (a & Ba & Ra).
      destruct (F ((y * bmp_width bmp + x) * 3 + 1) ltac:(lia)) as (b & Bb & Rb).
      destruct (F ((y * bmp_width bmp + x) * 3 + 2) ltac:(lia)) as (c & Bc & Rc).
      exists (a, b, c). unfold bmp_pixel, buffer_pixel.
      rewrite Hpal, Ba, Bb, Bc, Ra, Rb, Rc. split; reflexivity.
    + assert (E : raster' = raster).
      { unfold ReadBMPRows in Hrun. rewrite Hpal in Hrun.
        destruct (Z.eqb_spec (bmp_bpp bmp) 24); [contradiction |].
        injection Hrun as <-. reflexivity. }
      split; [rewrite E; reflexivity |]. split; [intros _ _; exact E |].
      intros [H | H]; [contradiction | contradiction].
Qed.

Lemma ReadBMPRows_fills_every_pixel_witness :
  length [10; 20; 30; 40; 50; 60; 40; 50; 60; 10; 20; 30] = length (replicate 12 0)
  /\ (bmp_palette Images.indexed_bmp = None -> bmp_bpp Images.indexed_bmp <> 24 ->
      [10; 20; 30; 40; 50; 60; 40; 50; 60; 10; 20; 30] = replicate 12 0)
  /\ (bmp_palette Images.indexed_bmp <> None \/ bmp_bpp Images.indexed_bmp = 24 ->
      forall x y, 0 <= x < 2 -> 0 <= y < 2 ->
        exists colour,
          bmp_pixel Images.indexed_bmp x y = Some colour
          /\ buffer_pixel [10; 20; 30; 40; 50; 60; 40; 50; 60; 10; 20; 30] 2 x y
             = Some colour).
Proof.
  refine (ReadBMPRows_fills_every_pixel (replicate 12 0) _ Images.indexed_bmp _ _).
  - reflexivity.
  - reflexivity.
Defined.

(** ** The row readers stay inside the buffer *)

Lemma loop_count_runs {S} (Inv : Z -> S -> Prop) (body : Z -> S -> option S) n :
  forall lo st,
    Inv lo st ->
    (forall i st1, lo <= i < lo + Z.of_nat n -> Inv i st1 ->
                   exists st2, body i st1 = Some st2 /\ Inv (i + 1) st2) ->
    exists st', loop_count n lo body st = Some st' /\ Inv (lo + Z.of_nat n) st'.
Proof.
  induction n as [| n IH]; intros lo st H0 Hstep; cbn [loop_count].
  - exists st. split; [reflexivity |].
    replace (lo + Z.of_nat 0) with lo by lia. exact H0.
  - destruct (Hstep lo st ltac:(lia) H0) as (st1 & E & H1). rewrite E.
    replace (lo + Z.of_nat (Datatypes.S n)) with (lo + 1 + Z.of_nat n) by lia.
    apply IH; [exact H1 |]. intros i st2 Hi. apply Hstep. lia.
Qed.

Lemma store_runs index value raster :
  0 <= index < Z.of_nat (length raster) ->
  exists raster', store index value raster = Some raster'.
Proof.
  intros Hi. unfold store.
  replace (0 <=? index) with true by (symmetry; apply Z.leb_le; lia).
  replace (index <? Z.of_nat (length raster)) with true
    by (symmetry; apply Z.ltb_lt; lia).
  eexists. reflexivity.
Qed.

Lemma store3_runs pixel a b c raster :
  0 <= pixel -> pixel + 3 <= Z.of_nat (length raster) ->
  exists raster', store3 pixel a b c raster = Some raster'
                  /\ length raster' = length raster.
Proof.
  intros H0 H1. unfold store3.
  destruct (store_runs pixel a raster ltac:(lia)) as [r1 E1]. rewrite E1.
  destruct (store_inv _ _ _ _ E1) as (L1 & _).
  destruct (store_runs (pixel + 1) b r1 ltac:(lia)) as [r2 E2]. rewrite E2.
  destruct (store_inv _ _ _ _ E2) as (L2 & _).
  destruct (store_runs (pixel + 2) c r2 ltac:(lia)) as [r3 E3]. rewrite E3.
  destruct (store_inv _ _ _ _ E3) as (L3 & _).
  exists r3. split; [reflexivity | congruence].
Qed.

Lemma load_runs {A} (cells : list A) index :
  0 <= index < Z.of_nat (length cells) ->
  exists v, load cells index = Some v /\ In v cells.
Proof.
  intros Hi. unfold load.
  replace (0 <=? index) with true by (symmetry; apply Z.leb_le; lia).
  destruct (lookup_lt_is_Some_2 cells (Z.to_nat index) ltac:(lia)) as [v Hv].
  exists v. split; [exact Hv |].
  apply list_elem_of_In. exact (list_elem_of_lookup_2 _ _ _ Hv).
Qed.

Lemma palette_index_runs (palette : list Colour) (bytes : list Z) v :
  forallb (fun v => (0 <=? v) && (v <? Z.of_nat (length palette))) bytes = true ->
  In v bytes -> exists c, load palette v = Some c.
Proof.
  intros Hall Hin. rewrite forallb_forall in Hall. specialize (Hall v Hin).
  apply andb_true_iff in Hall. destruct Hall as [H0 H1].
  apply Z.leb_le in H0. apply Z.ltb_lt in H1.
  destruct (load_runs palette v ltac:(lia)) as (c & Ec & _). exists c. exact Ec.
Qed.

Lemma png_pixel_defined png x y :
  png_rows_fit png = true -> 1 <= png_channels png ->
  0 <= x < png_width png -> 0 <= y < png_height png ->
  exists colour, png_pixel png x y = Some colour.
Proof.
  intros Hfit Hch Hx Hy. unfold png_rows_fit in Hfit.
  apply andb_true_iff in Hfit. destruct Hfit as [Hlen Hrows].
  apply Z.eqb_eq in Hlen. rewrite forallb_forall in Hrows.
  destruct (load_runs (png_rows png) y ltac:(lia)) as (row & Erow & Hin).
  specialize (Hrows row Hin). apply andb_true_iff in Hrows.
  destruct Hrows as [Hwide Hidx]. apply Z.leb_le in Hwide.
  unfold png_pixel. rewrite Erow.
  assert (Hoff : 0 <= x * png_channels png
                 /\ x * png_channels png + png_channels png <= Z.of_nat (length row)) by nia.
  destruct (png_has_palette png).
  - cbn [negb orb] in Hidx.
    destruct (load_runs row (x * png_channels png) ltac:(lia)) as (v & Ev & Hv).
    rewrite Ev. destruct (palette_index_runs _ _ _ Hidx Hv) as [c Ec]. rewrite Ec.
    eexists. reflexivity.
  - destruct (Z.eqb_spec (png_channels png) 3) as [E3 | _].
    + rewrite E3 in Hoff.
      destruct (load_runs row (x * 3) ltac:(lia)) as (a & Ea & _).
      destruct (load_runs row (x * 3 + 1) ltac:(lia)) as (b & Eb & _).
      destruct (load_runs row (x * 3 + 2) ltac:(lia)) as (c & Ec & _).
      rewrite Ea, Eb, Ec. eexists. reflexivity.
    + destruct (load_runs row (x * png_channels png) ltac:(lia)) as (v & Ev & _).
      rewrite Ev. eexists. reflexivity.
Qed.

Lemma column_major_fill_runs fetch w h raster :
  0 <= w -> 0 <= h -> w * h * 3 <= Z.of_nat (length raster) ->
  (forall x y, 0 <= x < w -> 0 <= y < h -> exists colour, fetch x y = Some colour) ->
  exists raster',
    loop_uint 0 w (fun x => loop_uint 0 h (fun y r =>
      match fetch x y with
      | Some (a, b, c) => store3 ((y * w + x) * 3) a b c r
      | None => None
      end)) raster = Some raster'.
Proof.
  intros Hw Hh Hlen Hfetch. unfold loop_uint. rewrite !Z.sub_0_r.
  pose (Inv := fun (_ : Z) (r : list Z) => length r = length raster).
  destruct (loop_count_runs Inv
    (fun x => loop_count (Z.to_nat h) 0 (fun y r =>
       match fetch x y with
       | Some (a, b, c) => store3 ((y * w + x) * 3) a b c r
       | None => None
       end)) (Z.to_nat w) 0 raster) as (r' & E & _).
  - reflexivity.
  - intros x r1 Hx L1. apply (loop_count_runs Inv); [exact L1 |].
    intros y r2 Hy L2. unfold Inv in L2.
    destruct (Hfetch x y ltac:(lia) ltac:(lia)) as ([[a b] c] & Ef). rewrite Ef.
    assert (0 <= y * w + x < w * h) by nia.
    destruct (store3_runs ((y * w + x) * 3) a b c r2 ltac:(lia) ltac:(lia))
      as (r3 & E3 & L3).
    exists r3. split; [exact E3 |]. unfold Inv. congruence.
  - exists r'. exact E.
Qed.

(** X20: on an image of valid dimensions with 1 to 4 channels whose rows
    cover it, [ReadPNGRows] stays inside the rows, the palette and a buffer
    of [width * height * 3] bytes, the size [ReadRasterPNG] allocates: it
    returns. *)
Theorem ReadPNGRows_stays_in_buffer (raster : list Z) (png : PngImage) :
  IsValidRasterDimension (png_width png) (png_height png) = true ->
  1 <= png_channels png <= 4 ->
  png_rows_fit png = true ->
  png_width png * png_height png * 3 <= Z.of_nat (length raster) ->
  exists raster', ReadPNGRows raster png = Some raster'.
Proof.
  intros Hvalid Hch Hfit Hlen.
  destruct (valid_dimension_bounds _ _ Hvalid) as (Hw & Hh & Hwh).
  rewrite ReadPNGRows_as_fill by (try assumption; lia).
  apply column_major_fill_runs; [lia | lia | exact Hlen |].
  intros x y Hx Hy. apply png_pixel_defined; [exact Hfit | lia | exact Hx | exact Hy].
Qed.

Lemma ReadPNGRows_stays_in_buffer_witness :
  exists raster', ReadPNGRows (replicate 12 0) Images.rgb_png = Some raster'.
Proof.
  refine (ReadPNGRows_stays_in_buffer (replicate 12 0) Images.rgb_png _ _ _ _).
  - reflexivity.
  - cbn. lia.
  - reflexivity.
  - cbn. lia.
Defined.

(** X21: on an image of valid dimensions whose bitmap covers it,
    [ReadBMPRows] stays inside the bitmap, the palette and a buffer of
    [width * height * 3] bytes, the size [ReadRasterBMP] allocates: it
    returns. *)
Theorem ReadBMPRows_stays_in_buffer (raster : list Z) (bmp : BmpImage) :
  IsValidRasterDimension (bmp_width bmp) (bmp_height bmp) = true ->
  bmp_bitmap_fits bmp = true ->
  bmp_width bmp * bmp_height bmp * 3 <= Z.of_nat (length raster) ->
  exists raster', ReadBMPRows raster bmp = Some raster'.
Proof.
  intros Hvalid Hfit Hlen.
  destruct (valid_dimension_bounds _ _ Hvalid) as (Hw & Hh & Hwh).
  assert (Hu : forall z, 0 <= z < 2 ^ 32 -> u32 z = z)
    by (intros z Hz; apply u32_small; exact Hz).
  unfold bmp_bitmap_fits in Hfit. unfold ReadBMPRows, loop_uint.
  rewrite !Z.sub_0_r.
  set (w := bmp_width bmp) in *. set (h := bmp_height bmp) in *.
  pose (Outer := fun (_ : Z) (r : list Z) => length r = length raster).
  destruct (bmp_palette bmp) as [palette |].
  - apply andb_true_iff in Hfit. destruct Hfit as [Hcover Hidx].
    apply Z.leb_le in Hcover.
    match goal with
    | |- exists r, loop_count ?n ?lo ?body ?st = Some r =>
        destruct (loop_count_runs Outer body n lo st) as (r' & E & _);
          [reflexivity | | exists r'; exact E]
    end.
    intros y r1 Hy L1. unfold Outer in L1. cbn beta.
    pose (Inner := fun (kx : Z) (st : Z * Z * list Z) =>
      fst (fst st) = (y * w + kx) * 3 /\ snd (fst st) = y * w + kx
      /\ length (snd st) = length raster).
    match goal with
    | |- exists r, match loop_count ?n ?lo ?body ?st with _ => _ end = Some r /\ _ =>
        destruct (loop_count_runs Inner body n lo st) as ([[p b] r2] & E & HI)
    end.
    + unfold Inner, umul. cbn [fst snd]. assert (0 <= y * w < w * h) by nia.
      rewrite (Hu (y * w)) by lia. rewrite Hu by lia.
      split; [lia |]. split; [lia | exact L1].
    + intros x [[p1 b1] r3] Hx HI. unfold Inner in HI. cbn [fst snd] in HI.
      destruct HI as (Ep & Eb & L3). cbn beta iota.
      assert (0 <= y * w + x < w * h) by nia.
      destruct (load_runs (bmp_bitmap bmp) b1 ltac:(lia)) as (v & Ev & Hv).
      rewrite Ev. destruct (palette_index_runs _ _ _ Hidx Hv) as [c Ec]. rewrite Ec.
      destruct (store3_runs p1 (colour_r c) (colour_g c) (colour_b c) r3
                  ltac:(lia) ltac:(lia)) as (r4 & E4 & L4).
      rewrite E4. eexists. split; [reflexivity |].
      unfold Inner. cbn [fst snd]. split; [lia |]. split; [lia | congruence].
    + rewrite E. exists r2. split; [reflexivity |].
      unfold Inner in HI. cbn [fst snd] in HI. unfold Outer. tauto.
  - destruct (Z.eqb_spec (bmp_bpp bmp) 24) as [_ | _]; [| eexists; reflexivity].
    apply Z.leb_le in Hfit.
    match goal with
    | |- exists r, loop_count ?n ?lo ?body ?st = Some r =>
        destruct (loop_count_runs Outer body n lo st) as (r' & E & _);
          [reflexivity | | exists r'; exact E]
    end.
    intros y r1 Hy L1. unfold Outer in L1. cbn beta.
    pose (Inner := fun (kx : Z) (st : Z * Z * list Z) =>
      fst (fst st) = y * w * 3 + kx /\ snd (fst st) = y * w * 3 + kx
      /\ length (snd st) = length raster).
    assert (Hrow : umul w 3 = w * 3) by (unfold umul; apply Hu; lia).
    match goal with
    | |- exists r, match loop_count ?n ?lo ?body ?st with _ => _ end = Some r /\ _ =>
        destruct (loop_count_runs Inner body n lo st) as ([[p b] r2] & E & HI)
    end.
    + unfold Inner, umul. cbn [fst snd]. assert (0 <= y * w < w * h) by nia.
      rewrite (Hu (y * w)) by lia. rewrite Hu by lia.
      split; [lia |]. split; [lia | exact L1].
    + intros x [[p1 b1] r3] Hx HI. unfold Inner in HI. cbn [fst snd] in HI.
      destruct HI as (Ep & Eb & L3). cbn beta iota. rewrite Hrow in Hx.
      assert (0 <= y * w * 3 + x < w * h * 3) by nia.
      destruct (load_runs (bmp_bitmap bmp) b1 ltac:(lia)) as (v & Ev & _).
      rewrite Ev. destruct (store_runs p1 v r3 ltac:(lia)) as [r4 E4].
      rewrite E4. destruct (store_inv _ _ _ _ E4) as (L4 & _).
      eexists. split; [reflexivity |].
      unfold Inner. cbn [fst snd]. split; [lia |]. split; [lia | congruence].
    + rewrite E. exists r2. split; [reflexivity |].
      unfold Inner in HI. cbn [fst snd] in HI. unfold Outer. tauto.
Qed.

Lemma ReadBMPRows_stays_in_buffer_witness :
  exists raster', ReadBMPRows (replicate 12 0) Images.indexed_bmp = Some raster'.
Proof.
  refine (ReadBMPRows_stays_in_buffer (replicate 12 0) Images.indexed_bmp _ _ _).
  - reflexivity.
  - reflexivity.
  - cbn. lia.
Defined.
